(** * supernote-converter: the RATTA_RLE codec, the layer loader, the
    compositor and the notebook parser of [internal/note/parse.go], with the
    page functions of the converter package, of the command-line program and
    of the logger, embedded in Rocq.

    Conventions of the embedding.
    - A Go [byte] is a [Byte.byte]; [int(b)] is [byteZ b].
    - A Go [int] is a [Z].  The only product that could leave the 64-bit range
      is [w * h] of the notebook's dimensions; it is wrapped explicitly
      ([int_wrap]) in the decoder and in the size checks of its callers.
    - A [[]byte] that is appended to or updated by index is a [list byte];
      the index update [s[i] = v] is stdpp's [<[i:=v]> s].
    - A function that can hit a Go run-time panic (division by zero, [make]
      with a negative size) returns [option]: [None] is the panic.
    - [os.Getenv] is a function [getenv : string -> string] (the empty string
      for an unset variable); file reads and [png.Decode] are inputs.  The
      parser reads a file given by its bytes ([fileSource] turns such a file
      into the reads of the loader).
    - A Go [string] is a [string] of bytes; a [map[string]string] is a
      [gmap string string], and the order of a [range] over it is a
      parameter.
    - Library functions whose code is not part of the repository
      ([strconv.ParseInt], [strconv.Atoi], [strings.TrimSpace]) are
      parameters of the functions that call them. *)

From Stdlib Require Import ZArith Lia Bool.
From Stdlib.Strings Require Import Byte Ascii String.
From stdpp Require Import base option list gmap strings sorting.

Open Scope Z_scope.

(** ** Bytes and machine integers *)

#[global] Instance byte_eq_dec : EqDecision byte := Byte.byte_eq_dec.

(** [int(b)] for a byte [b]. *)
Definition byteZ (b : byte) : Z := Z.of_N (Byte.to_N b).

(** [byte(z)]: conversion of an integer to a byte keeps the low 8 bits. *)
Definition byte_of_Z (z : Z) : byte :=
  match Byte.of_N (Z.to_N (z mod 256)) with
  | Some b => b
  | None => x00
  end.

(** Two's complement wrap-around of Go's 64-bit [int]. *)
Definition int_wrap (z : Z) : Z := (z + 2 ^ 63) mod 2 ^ 64 - 2 ^ 63.

Definition max_int : Z := 2 ^ 63 - 1.

(** [len(s)] as an [int]. *)
Definition lenZ (s : list byte) : Z := Z.of_nat (length s).

(** ** Constants of parse.go *)

Definition pageWidth : Z := 1404.
Definition pageHeight : Z := 1872.

Definition colBlack : byte := x61.
Definition colBG : byte := x62.
Definition colDark : byte := x63.
Definition colGray : byte := x64.
Definition colWhite : byte := x65.
Definition colMBlack : byte := x66.
Definition colMDark : byte := x67.
Definition colMGray : byte := x68.
Definition lenMark : byte := xff.
Definition longLen : Z := 0x4000.
Definition specialWhiteStyleBlockSize : Z := 0x140e.

(** ** The palette *)

(** [grayLUT] (parse.go, line 992): the map literal, as its list of
    bindings.  A Go map literal has no duplicate keys, so the order of the
    bindings is irrelevant. *)
Definition grayLUT : list (byte * byte) :=
  [ (colBlack, x00); (colMBlack, x00);
    (colDark, x9d); (colMDark, x9d);
    (colGray, xc9); (colMGray, xc9);
    (colWhite, xfe);
    (colBG, xff);
    (x9d, x9d); (xc9, xc9); (x9e, x9d); (xca, xc9) ].

(** [g, known := m[code]] on such a map. *)
Fixpoint lut_get (m : list (byte * byte)) (code : byte) : option byte :=
  match m with
  | [] => None
  | (k, v) :: m' => if Byte.eqb k code then Some v else lut_get m' code
  end.

(** The gray value [writeRun] paints for a colour code (lines 1256-1263). *)
Definition gray_of (code : byte) : byte :=
  match lut_get grayLUT code with
  | Some g => g
  | None => if Byte.eqb code colBG then xff else xc9
  end.

(** ** writeRun *)

(** The [for length > 0 && len( *out ) < expected] loop of [writeRun]
    (lines 1264-1284).  Every iteration appends [chunk >= 1] bytes and takes
    [chunk] off [length], so [Z.to_nat length] iterations are always enough
    (see [writeRun_loop_spec]); [None] is a run-time panic: [len % w] with
    [w = 0], or [make([]byte, chunk)] with a negative [chunk]. *)
Fixpoint writeRun_loop (fuel : nat) (expected w : Z) (g : byte)
    (out : list byte) (length : Z) : option (list byte) :=
  if (0 <? length) && (lenZ out <? expected) then
    match fuel with
    | O => None
    | S fuel' =>
        let remain := expected - lenZ out in
        if remain <=? 0 then Some out
        else if w =? 0 then None
        else
          let spaceInRow := w - Z.rem (lenZ out) w in
          let chunk := length in
          let chunk := if chunk >? spaceInRow then spaceInRow else chunk in
          let chunk := if chunk >? remain then remain else chunk in
          if chunk <? 0 then None
          else writeRun_loop fuel' expected w g
                 (out ++ replicate (Z.to_nat chunk) g) (length - chunk)
    end
  else Some out.

(** [writeRun(&out, expected, w, code, length)] (line 1252); the new value
    of [*out] is returned. *)
Definition writeRun (out : list byte) (expected w : Z) (code : byte)
    (length : Z) : option (list byte) :=
  if length <=? 0 then Some out
  else writeRun_loop (Z.to_nat length) expected w (gray_of code) out length.

(** ** decodeRattaRLERef *)

(** The decoder's loop variables: the output buffer and the pending holder.
    [holdColor] and [holdLen] keep their last value when [haveHolder] is
    reset, as the Go variables do. *)
Record rleState := RleState {
  out : list byte;
  haveHolder : bool;
  holdColor : byte;
  holdLen : byte
}.

(** [if n > remain { n = remain }]. *)
Definition clamp (n remain : Z) : Z := if n >? remain then remain else n.

(** What [decodeRattaRLERef] returns: the raster with its dimensions, or the
    size-mismatch error [ratta_ref decoded %d != %d] with its two counts and
    a nil pixel slice. *)
Inductive rleResult :=
  | RleOk (pix : list byte) (w h : Z)
  | RleMismatch (produced expected : Z).

Section Codec.

(** [os.Getenv]. *)
Variable getenv : string → string.

(** The length of a sentinel long run (lines 895-901). *)
Definition specialLen (w : Z) (allBlank : bool) (color : byte) : Z :=
  let special := longLen in
  let special :=
    if String.eqb (getenv "RLE_FIX_BG") "1" && Byte.eqb color colBG
    then w else special in
  if allBlank then 0x400 else special.

(** Lines 893-921: a pair processed from scratch, with [dataPushed] false.
    The holder fields of [st] are the current ones. *)
Definition rle_fresh (expected w : Z) (allBlank : bool)
    (color length : byte) (st : rleState) : option rleState :=
  if Byte.eqb length lenMark then
    let special := specialLen w allBlank color in
    let remain := expected - lenZ (out st) in
    o ← writeRun (out st) expected w color (clamp special remain);
    Some (RleState o (haveHolder st) (holdColor st) (holdLen st))
  else if negb (Z.land (byteZ length) 0x80 =? 0) then
    Some (RleState (out st) true color length)
  else
    let runLen := byteZ length + 1 in
    let remain := expected - lenZ (out st) in
    o ← writeRun (out st) expected w color (clamp runLen remain);
    Some (RleState o (haveHolder st) (holdColor st) (holdLen st)).

(** Lines 868-921: the body of the decoding loop for the pair
    [(color, length)]. *)
Definition rle_pair (expected w : Z) (allBlank : bool)
    (color length : byte) (st : rleState) : option rleState :=
  if haveHolder st then
    let pc := holdColor st in
    let pl := holdLen st in
    if Byte.eqb color pc then
      let mergedLen :=
        1 + byteZ length + Z.shiftl (Z.land (byteZ pl) 0x7f + 1) 7 in
      let remain := expected - lenZ (out st) in
      o ← writeRun (out st) expected w pc (clamp mergedLen remain);
      Some (RleState o false pc pl)
    else
      let flushLen := 1 + Z.shiftl (Z.land (byteZ pl) 0x7f + 1) 7 in
      let remain := expected - lenZ (out st) in
      o ← writeRun (out st) expected w pc (clamp flushLen remain);
      rle_fresh expected w allBlank color length (RleState o false pc pl)
  else rle_fresh expected w allBlank color length st.

(** Lines 864-926: [for i < len(data) && len(out) < expected], leaving the
    loop when fewer than two bytes remain.  [data] is [data[i:]]. *)
Fixpoint rle_loop (expected w : Z) (allBlank : bool) (data : list byte)
    (st : rleState) : option rleState :=
  match data with
  | color :: length :: rest =>
      if lenZ (out st) <? expected then
        st' ← rle_pair expected w allBlank color length st;
        rle_loop expected w allBlank rest st'
      else Some st
  | _ => Some st
  end.

(** Lines 931-937: the largest shift [bit], from 7 down to 0, whose run
    fits the gap; 0 when none does. *)
Fixpoint tail_search (pl : byte) (gap : Z) (bits : list Z) : Z :=
  match bits with
  | [] => 0
  | bit :: bits' =>
      let l := Z.shiftl (Z.land (byteZ pl) 0x7f + 1) bit in
      if l <=? gap then l else tail_search pl gap bits'
  end.

Definition tail_bits : list Z := [7; 6; 5; 4; 3; 2; 1; 0].

(** Lines 927-941: the tail adjustment. *)
Definition rle_tail (expected w : Z) (st : rleState) : option (list byte) :=
  if haveHolder st && (lenZ (out st) <? expected) then
    let gap := expected - lenZ (out st) in
    let adjusted := tail_search (holdLen st) gap tail_bits in
    if 0 <? adjusted
    then writeRun (out st) expected w (holdColor st) adjusted
    else Some (out st)
  else Some (out st).

(** [decodeRattaRLERef] (line 840).  [make([]byte, 0, expected)] panics
    when [expected] is negative. *)
Definition decodeRattaRLERef (data : list byte) (w h : Z)
    (allBlank horiz : bool) : option rleResult :=
  let '(w, h) := if horiz then (h, w) else (w, h) in
  let expected := int_wrap (w * h) in
  if expected <? 0 then None
  else
    st ← rle_loop expected w allBlank data (RleState [] false x00 x00);
    o ← rle_tail expected w st;
    if negb (lenZ o =? expected)
    then Some (RleMismatch (lenZ o) expected)
    else Some (RleOk o w h).

End Codec.

(** ** Rasters and the compositor *)

(** [GrayImage] (line 1376).  [alpha] is optional: [None] is the nil slice.
    The fields [W] and [H] are [imgW] and [imgH] here. *)
Record GrayImage := mkGrayImage {
  pix : list byte;
  alpha : option (list byte);
  imgW : Z;
  imgH : Z
}.

(** The loop of [Composite] (lines 136-142) from index [i] on.  The planes
    keep their lengths, so at most [length m - i] iterations run; [fuel]
    bounds them.  [None] stands for an index out of range, which the loop
    condition excludes (see [composite_loop_total]). *)
Fixpoint composite_loop (fuel i : nat) (m a bp : list byte)
    : option (list byte * list byte) :=
  match fuel with
  | O => Some (m, a)
  | S fuel' =>
      if (i <? length m)%nat && (i <? length bp)%nat && (i <? length a)%nat then
        ai ← a !! i;
        if Byte.eqb ai x00 then
          bi ← bp !! i;
          composite_loop fuel' (S i) (<[i:=bi]> m) (<[i:=xff]> a) bp
        else composite_loop fuel' (S i) m a bp
      else Some (m, a)
  end.

(** [Composite(main, bg)] (line 128).  The two arguments are pointers, [None]
    is nil; the result is the state of the two rasters after the call.  The
    planes of the two rasters are distinct buffers (every raster of the
    package is built from freshly made slices), so writing [main] leaves
    [bg] as it is. *)
Definition Composite (main bg : option GrayImage)
    : option (option GrayImage * option GrayImage) :=
  match main, bg with
  | Some mi, Some bi =>
      match alpha mi with
      | None => Some (main, bg)
      | Some a =>
          '(m', a') ← composite_loop (length (pix mi)) 0 (pix mi) a (pix bi);
          Some (Some (mkGrayImage m' (Some a') (imgW mi) (imgH mi)), bg)
      end
  | _, _ => Some (main, bg)
  end.

(** ** The layer loader *)

(** The errors of the loader, one constructor per message. *)
Inductive error :=
  | ErrLayerKeyMissing (key : string)
  | ErrRead
  | ErrBitmapMissing (key : string)
  | ErrPngDecode
  | ErrRattaRef (produced expected : Z)
  | ErrRattaRefFallback (got expected : Z) (ferr : option (Z * Z))
  | ErrRattaRefExact (got expected : Z)
  | ErrUnsupportedProtocol (proto : string)
  | ErrBgProtocol (proto : string)
  | ErrNoBGLayer
  | ErrPageIndex.

(** The byte source behind [fileReader], by the reads the loader performs.
    Addresses are the decimal strings of the metadata, as handed to
    [strconv.ParseInt]; [None] is a read error.
    - [src_readMeta a] is [readMeta(fileReader, a)];
    - [src_blockLen a] is the [uint32] read after [Seek(a)];
    - [src_block a n] is [io.ReadFull] of the [n] bytes that follow it. *)
Record byteSource := mkByteSource {
  src_readMeta : string → option (gmap string string);
  src_blockLen : string → option Z;
  src_block : string → Z → option (list byte)
}.

(** What [png.Decode] returns: the bounds of the image and the colour
    [img.At(x, y).RGBA()] of a pixel (four 16-bit components). *)
Record pngImage := mkPngImage {
  Dx : Z;
  Dy : Z;
  RGBA : Z → Z → Z * Z * Z * Z
}.

(** [Notebook] (line 30), with the fields the decoders read. *)
Record Notebook := mkNotebook {
  nbW : Z;
  nbH : Z;
  Pages : list (gmap string string)
}.

(** [m[k]] on a [map[string]string]: the empty string for a missing key. *)
Definition param (m : gmap string string) (k : string) : string :=
  default EmptyString (m !! k).

(** [for k := 0; k < n; k++ { s = body(k, s) }]. *)
Definition for_upto {St : Type} (n : Z) (body : Z → St → St) (s : St) : St :=
  fold_left (fun s k => body (Z.of_nat k) s) (seq 0 (Z.to_nat n)) s.

(** [s[i]] for an index in range. *)
Definition at_index (s : list byte) (i : Z) : byte :=
  default x00 (s !! Z.to_nat i).

(** [s[i] = v]. *)
Definition set_index (s : list byte) (i : Z) (v : byte) : list byte :=
  <[Z.to_nat i := v]> s.

(** The PNG magic [89 50 4E 47 0D 0A 1A 0A]. *)
Definition pngSig : list byte := [x89; x50; x4e; x47; x0d; x0a; x1a; x0a].

(** Lines 299-311: the luminance and the alpha of one pixel. *)
Definition luma (c : Z * Z * Z * Z) : byte * byte :=
  let '(rc, gc, bc, ac) := c in
  let R := Z.shiftr rc 8 in
  let G := Z.shiftr gc 8 in
  let B := Z.shiftr bc 8 in
  let A := Z.shiftr ac 8 in
  let Y := Z.quot (299 * R + 587 * G + 114 * B) 1000 in
  let Y := if Y >? 255 then 255 else Y in
  (byte_of_Z Y, byte_of_Z A).

(** Lines 293-313: the two planes of a decoded PNG, filled pixel by pixel. *)
Definition png_planes (img : pngImage) : list byte * list byte :=
  let w2 := Dx img in
  let h2 := Dy img in
  let pix := replicate (Z.to_nat (w2 * h2)) x00 in
  let alp := replicate (Z.to_nat (w2 * h2)) x00 in
  for_upto h2 (fun y =>
    for_upto w2 (fun x '(pix, alp) =>
      let '(Y, A) := luma (RGBA img x y) in
      let i := y * w2 + x in
      (set_index pix i Y, set_index alp i A)))
    (pix, alp).

(** Lines 319-341: the quarter turn of the two planes, for [rot] one of
    ["cw"] and ["ccw"]; any other value leaves the raster as it is. *)
Definition png_rotate (rot : string) (w2 h2 : Z) (pix alp : list byte)
    : list byte * list byte * Z * Z :=
  if String.eqb rot "cw" || String.eqb rot "ccw" then
    let outW := h2 in
    let outH := w2 in
    let rpix := replicate (Z.to_nat (outW * outH)) x00 in
    let ralp := replicate (Z.to_nat (outW * outH)) x00 in
    let '(rpix, ralp) :=
      for_upto h2 (fun y =>
        for_upto w2 (fun x '(rpix, ralp) =>
          let iOld := y * w2 + x in
          let '(nx, ny) :=
            if String.eqb rot "cw" then (h2 - 1 - y, x) else (y, w2 - 1 - x) in
          let iNew := ny * outW + nx in
          (set_index rpix iNew (at_index pix iOld),
           set_index ralp iNew (at_index alp iOld))))
        (rpix, ralp) in
    (rpix, ralp, outW, outH)
  else (pix, alp, w2, h2).

(** Lines 383-390: the alpha plane of an RLE raster, transparent where the
    pixel is the sentinel 0xff. *)
Definition alpha_of (pix : list byte) : list byte :=
  map (fun v => if Byte.eqb v xff then x00 else xff) pix.

(** Lines 272-278: the neutral background. *)
Definition neutralBackground : GrayImage :=
  mkGrayImage (replicate (Z.to_nat (pageWidth * pageHeight)) xfe)
              (Some (replicate (Z.to_nat (pageWidth * pageHeight)) xff))
              pageWidth pageHeight.

(** A decoder's outcome: a raster, an error, or ([None]) a run-time panic
    inherited from the codec. *)
Definition outcome : Type := option (GrayImage + error).

Definition ok (g : GrayImage) : outcome := Some (inl g).
Definition fail (e : error) : outcome := Some (inr e).

Section Loader.

Variable getenv : string → string.
Variable pngDecode : list byte → option pngImage.
Variable src : byteSource.

(** Lines 289-343: the PNG branch. *)
Definition pngBranch (data : list byte) (horiz : bool) : outcome :=
  match pngDecode data with
  | None => fail ErrPngDecode
  | Some img =>
      let w2 := Dx img in
      let h2 := Dy img in
      let '(pix, alp) := png_planes img in
      let rot := getenv "SUPERNOTE_PNG_ROTATE" in
      let rot := if String.eqb rot "auto" && horiz then "cw"%string else rot in
      let '(pix, alp, w2, h2) := png_rotate rot w2 h2 pix alp in
      ok (mkGrayImage pix (Some alp) w2 h2)
  end.

(** Lines 364-391, from the label [sizecheck] on. *)
Definition sizecheck (nb : Notebook) (data : list byte) (horiz : bool)
    (pix : list byte) (w2 h2 : Z) : outcome :=
  let expected := int_wrap (w2 * h2) in
  let finish (pix : list byte) (w2 h2 : Z) :=
    ok (mkGrayImage pix (Some (alpha_of pix)) w2 h2) in
  if negb (lenZ pix =? expected) then
    if negb (nbW nb =? pageWidth) || negb (nbH nb =? pageHeight) then
      r ← decodeRattaRLERef getenv data pageWidth pageHeight false horiz;
      match r with
      | RleOk fpix fw fh =>
          if lenZ fpix =? int_wrap (fw * fh) then finish fpix fw fh
          else fail (ErrRattaRefFallback (lenZ pix) expected None)
      | RleMismatch p e =>
          fail (ErrRattaRefFallback (lenZ pix) expected (Some (p, e)))
      end
    else fail (ErrRattaRefExact (lenZ pix) expected)
  else finish pix w2 h2.

(** Lines 346-394: the dispatch on the declared protocol. *)
Definition rleBranch (nb : Notebook) (proto : string) (data : list byte)
    (horiz : bool) : outcome :=
  if String.eqb proto "RATTA_RLE" then
    r ← decodeRattaRLERef getenv data (nbW nb) (nbH nb) false horiz;
    match r with
    | RleOk pix w2 h2 => sizecheck nb data horiz pix w2 h2
    | RleMismatch p e =>
        if negb (nbW nb =? pageWidth) || negb (nbH nb =? pageHeight) then
          r' ← decodeRattaRLERef getenv data pageWidth pageHeight false horiz;
          match r' with
          | RleOk fpix fw fh => sizecheck nb data horiz fpix fw fh
          | RleMismatch _ _ => fail (ErrRattaRef p e)
          end
        else fail (ErrRattaRef p e)
    end
  else fail (ErrUnsupportedProtocol proto).

(** [decodeLayerFromPage] (line 245). *)
Definition decodeLayerFromPage (nb : Notebook) (pm : gmap string string)
    (key : string) : outcome :=
  match pm !! key with
  | None => fail (ErrLayerKeyMissing key)
  | Some addrStr =>
      match src_readMeta src addrStr with
      | None => fail ErrRead
      | Some meta =>
          let proto := param meta "LAYERPROTOCOL" in
          match meta !! "LAYERBITMAP" with
          | None => fail (ErrBitmapMissing key)
          | Some bmpStr =>
              match src_blockLen src bmpStr with
              | None => fail ErrRead
              | Some blockLen =>
                  if (blockLen <? 16) && String.eqb key "BGLAYER"
                  then ok neutralBackground
                  else
                    match src_block src bmpStr blockLen with
                    | None => fail ErrRead
                    | Some data =>
                        let horiz :=
                          String.eqb (param pm "ORIENTATION") "1090" in
                        if (lenZ data >=? 8)
                           && bool_decide (take 8 data = pngSig)
                        then pngBranch data horiz
                        else rleBranch nb proto data horiz
                    end
              end
          end
      end
  end.

(** [DecodeBackground] (line 181), for the page [pm] of the notebook, the
    page index being in range. *)
Definition DecodeBackground (nb : Notebook) (pm : gmap string string)
    : outcome :=
  match pm !! "BGLAYER" with
  | None => fail ErrNoBGLayer
  | Some addrStr =>
      match src_readMeta src addrStr with
      | None => fail ErrRead
      | Some meta =>
          let bmpStr := param meta "LAYERBITMAP" in
          let proto := param meta "LAYERPROTOCOL" in
          if negb (String.eqb proto "RATTA_RLE")
          then fail (ErrBgProtocol proto)
          else
            match src_blockLen src bmpStr with
            | None => fail ErrRead
            | Some blockLen =>
                match src_block src bmpStr blockLen with
                | None => fail ErrRead
                | Some data =>
                    let allBlank :=
                      match pm !! "PAGESTYLE" with
                      | Some style =>
                          String.eqb style "style_white"
                          && (blockLen =? specialWhiteStyleBlockSize)
                      | None => false
                      end in
                    let horiz :=
                      String.eqb (param pm "ORIENTATION") "1090" in
                    r ← decodeRattaRLERef getenv data (nbW nb) (nbH nb)
                          allBlank horiz;
                    match r with
                    | RleMismatch p e => fail (ErrRattaRef p e)
                    | RleOk pix w2 h2 =>
                        let finish (pix : list byte) (w2 h2 : Z) :=
                          ok (mkGrayImage pix (Some (alpha_of pix)) w2 h2) in
                        let expected := int_wrap (w2 * h2) in
                        if negb (lenZ pix =? expected) then
                          if negb (nbW nb =? pageWidth)
                             || negb (nbH nb =? pageHeight) then
                            r' ← decodeRattaRLERef getenv data pageWidth
                                   pageHeight allBlank horiz;
                            match r' with
                            | RleOk fpix fw fh =>
                                if lenZ fpix =? int_wrap (fw * fh)
                                then finish fpix fw fh
                                else fail (ErrRattaRefFallback (lenZ pix)
                                             expected None)
                            | RleMismatch p e =>
                                fail (ErrRattaRefFallback (lenZ pix)
                                        expected (Some (p, e)))
                            end
                          else fail (ErrRattaRef (lenZ pix) expected)
                        else finish pix w2 h2
                    end
                end
            end
      end
  end.

(** [DecodeLayers] (line 107): the main raster and the background raster;
    a background that fails to decode is logged and dropped. *)
Definition DecodeLayers (nb : Notebook) (idx : Z)
    : option ((GrayImage * option GrayImage) + error) :=
  if (idx <? 0) || (idx >=? Z.of_nat (length (Pages nb)))
  then Some (inr ErrPageIndex)
  else
    match Pages nb !! Z.to_nat idx with
    | None => None
    | Some pm =>
        m ← decodeLayerFromPage nb pm "MAINLAYER";
        match m with
        | inr e => Some (inr e)
        | inl mainImg =>
            match pm !! "BGLAYER" with
            | None => Some (inl (mainImg, None))
            | Some _ =>
                b ← decodeLayerFromPage nb pm "BGLAYER";
                match b with
                | inl bgImg => Some (inl (mainImg, Some bgImg))
                | inr _ => Some (inl (mainImg, None))
                end
            end
        end
    end.

(** [DecodePage] (line 92). *)
Definition DecodePage (nb : Notebook) (idx : Z) : outcome :=
  if (idx <? 0) || (idx >=? Z.of_nat (length (Pages nb)))
  then fail ErrPageIndex
  else
    l ← DecodeLayers nb idx;
    match l with
    | inr e => fail e
    | inl (mainImg, None) => ok mainImg
    | inl (mainImg, Some bgImg) =>
        r ← Composite (Some mainImg) (Some bgImg);
        match r.1 with
        | Some m => ok m
        | None => None
        end
    end.

End Loader.

(** ** Specification-side vocabulary *)

(** Number of pixels a run of [length] adds to a buffer that has room for
    [remain] more: the run, clamped to the room left (and nothing for a run
    that is not positive). *)
Definition emitted (length remain : Z) : nat := Z.to_nat (Z.min length remain).

(** [holder_unit l1] is [(l1 & 0x7F) + 1], the holder's length in units of
    128 pixels. *)
Definition holder_unit (l1 : byte) : Z := Z.land (byteZ l1) 0x7f + 1.

(** The common length of the three planes the compositor walks. *)
Definition common_len (m a bp : list byte) : nat :=
  Nat.min (Nat.min (length m) (length bp)) (length a).

(** The indices from [i] on that the compositor replaces: inside the common
    length, with a zero alpha byte. *)
Definition replaced_from (i : nat) (m a bp : list byte) (j : nat) : Prop :=
  (i <= j < common_len m a bp)%nat /\ a !! j = Some x00.

#[global] Instance replaced_from_dec i m a bp j :
  Decision (replaced_from i m a bp j).
Proof. unfold replaced_from. apply _. Defined.

(** The two nested loops
    [for y < h2 { for x < w2 { l[f(x, y)] = v(x, y) } }] on one buffer. *)
Definition scatter (w2 h2 : Z) (f : Z → Z → Z) (v : Z → Z → byte)
    (l : list byte) : list byte :=
  for_upto h2
    (fun y => for_upto w2 (fun x l => set_index l (f x y) (v x y))) l.

(** The index, in the turned raster of width [h2], of the pixel [(x, y)] of
    a [w2] by [h2] source: clockwise it goes to column [h2 - 1 - y] of row
    [x], counter-clockwise to column [y] of row [w2 - 1 - x]. *)
Definition quarter_turn (cw : bool) (w2 h2 x y : Z) : Z :=
  if cw then x * h2 + (h2 - 1 - y) else (w2 - 1 - x) * h2 + y.

(** Every alpha byte of a raster is 255 (a raster without an alpha plane has
    no alpha byte). *)
Definition all_opaque (g : GrayImage) : Prop :=
  forall a, alpha g = Some a -> forall i x, a !! i = Some x -> x = xff.

(** The reads the loader makes for the layer [key] of the page [pm] before it
    looks at the payload: the layer's metadata block, with its declared
    protocol [proto] and the address [bmpStr] of its bitmap block, and the
    length [blockLen] of that block. *)
Definition layer_header (src : byteSource) (pm : gmap string string)
    (key proto bmpStr : string) (blockLen : Z) : Prop :=
  exists addr meta,
    pm !! key = Some addr
    /\ src_readMeta src addr = Some meta
    /\ meta !! "LAYERBITMAP"%string = Some bmpStr
    /\ param meta "LAYERPROTOCOL" = proto
    /\ src_blockLen src bmpStr = Some blockLen.

(** The RLE branch of the layer loader as section 4.4 of the specification
    words it, for a given all-blank hint: decode at the notebook's
    dimensions; on a size mismatch at other than the default dimensions,
    retry once at the default ones; derive the alpha plane. *)
Definition loader_rle_spec (getenv : string → string) (hint : bool)
    (nb : Notebook) (data : list byte) (horiz : bool) : outcome :=
  r ← decodeRattaRLERef getenv data (nbW nb) (nbH nb) hint horiz;
  match r with
  | RleOk pix w2 h2 => ok (mkGrayImage pix (Some (alpha_of pix)) w2 h2)
  | RleMismatch p e =>
      if (nbW nb =? pageWidth) && (nbH nb =? pageHeight)
      then fail (ErrRattaRef p e)
      else
        r' ← decodeRattaRLERef getenv data pageWidth pageHeight hint horiz;
        match r' with
        | RleOk fpix fw fh => ok (mkGrayImage fpix (Some (alpha_of fpix)) fw fh)
        | RleMismatch _ _ => fail (ErrRattaRef p e)
        end
  end.

(** The background decoder for a given all-blank hint: decode at the
    notebook's dimensions and derive the alpha plane; a size mismatch is
    returned as it is. *)
Definition background_rle_spec (getenv : string → string) (hint : bool)
    (nb : Notebook) (data : list byte) (horiz : bool) : outcome :=
  r ← decodeRattaRLERef getenv data (nbW nb) (nbH nb) hint horiz;
  match r with
  | RleOk pix w2 h2 => ok (mkGrayImage pix (Some (alpha_of pix)) w2 h2)
  | RleMismatch p e => fail (ErrRattaRef p e)
  end.

(** [g] is the quarter turn (clockwise for [cw], counter-clockwise otherwise)
    of the [w2] by [h2] raster with the planes [pix] and [alp]: the dimensions
    are swapped and every pixel of the source is found at its turned index in
    both planes. *)
Definition is_quarter_turn (cw : bool) (w2 h2 : Z) (pix alp : list byte)
    (g : GrayImage) : Prop :=
  exists rpix ralp,
    g = mkGrayImage rpix (Some ralp) h2 w2
    /\ length rpix = Z.to_nat (h2 * w2)
    /\ length ralp = Z.to_nat (h2 * w2)
    /\ forall x y, 0 <= x < w2 -> 0 <= y < h2 ->
         rpix !! Z.to_nat (quarter_turn cw w2 h2 x y)
         = Some (at_index pix (y * w2 + x))
         /\ ralp !! Z.to_nat (quarter_turn cw w2 h2 x y)
            = Some (at_index alp (y * w2 + x)).

(** ** Example inputs *)

(** An environment with no variable set. *)
Definition no_env : string → string := fun _ => EmptyString.

(** A notebook of default dimensions, as [Parse] builds it. *)
Definition default_notebook (pages : list (gmap string string)) : Notebook :=
  mkNotebook pageWidth pageHeight pages.

(** A byte source with one layer: its metadata block at address 100 declares
    the protocol RATTA_RLE and the bitmap block at address 200, which holds
    [data] behind its length [blockLen]. *)
Definition one_layer_source (blockLen : Z) (data : list byte) : byteSource :=
  mkByteSource
    (fun a => if String.eqb a "100"
              then Some (<["LAYERBITMAP"%string := "200"%string]>
                          (<["LAYERPROTOCOL"%string := "RATTA_RLE"%string]> ∅))
              else None)
    (fun a => if String.eqb a "200" then Some blockLen else None)
    (fun a n => if String.eqb a "200" && (n =? blockLen)
                then Some data else None).

(** A white-styled page whose background layer is that layer. *)
Definition white_page : gmap string string :=
  <["BGLAYER"%string := "100"%string]>
    (<["PAGESTYLE"%string := "style_white"%string]> ∅).

(** A payload of 0x140E bytes: 2566 one-pixel runs of black, then one
    sentinel pair of the background colour. *)
Definition white_payload : list byte :=
  concat (replicate 2566 [x61; x00]) ++ [x62; xff].

(** A complete PNG file of 68 bytes: a 2x1 8-bit grayscale image with a black
    and a white pixel. *)
Definition tiny_png : list byte :=
  [x89; x50; x4e; x47; x0d; x0a; x1a; x0a; x00; x00; x00; x0d; x49; x48; x44;
   x52; x00; x00; x00; x02; x00; x00; x00; x01; x08; x00; x00; x00; x00; xd1;
   x49; x20; x56; x00; x00; x00; x0b; x49; x44; x41; x54; x78; xda; x63; x60;
   xf8; x0f; x00; x01; x02; x01; x00; xd1; x1a; xcb; x8f; x00; x00; x00; x00;
   x49; x45; x4e; x44; xae; x42; x60; x82].

(** What [png.Decode] returns for [tiny_png]: an opaque gray image whose
    [RGBA] components are the 8-bit gray value repeated in both bytes. *)
Definition tiny_png_image : pngImage :=
  mkPngImage 2 1
    (fun x y => if x =? 0 then (0, 0, 0, 0xffff)
                else (0xffff, 0xffff, 0xffff, 0xffff)).

(** [png.Decode] on the two PNG payloads of the examples: [tiny_png] decodes,
    the bare 8-byte magic is not a PNG file. *)
Definition png_decode_examples (data : list byte) : option pngImage :=
  if bool_decide (data = tiny_png) then Some tiny_png_image else None.

(** A horizontally stored page whose main layer is the layer at 100. *)
Definition horizontal_page : gmap string string :=
  <["MAINLAYER"%string := "100"%string]>
    (<["ORIENTATION"%string := "1090"%string]> ∅).

(** The gray values of the palette: the image of [grayLUT] and of the
    default of [writeRun]. *)
Definition palette_grays : list byte := [x00; x9d; xc9; xfe; xff].

(** A byte source with two layers of the protocol RATTA_RLE: the metadata
    block at 100 points to the bitmap block at 200, which holds [mainData],
    the metadata block at 300 to the bitmap block at 400, which holds
    [bgData]. *)
Definition two_layer_source (mainData bgData : list byte) : byteSource :=
  mkByteSource
    (fun a =>
       if String.eqb a "100"
       then Some (<["LAYERBITMAP"%string := "200"%string]>
                    (<["LAYERPROTOCOL"%string := "RATTA_RLE"%string]> ∅))
       else if String.eqb a "300"
       then Some (<["LAYERBITMAP"%string := "400"%string]>
                    (<["LAYERPROTOCOL"%string := "RATTA_RLE"%string]> ∅))
       else None)
    (fun a => if String.eqb a "200" then Some (lenZ mainData)
              else if String.eqb a "400" then Some (lenZ bgData)
              else None)
    (fun a n => if String.eqb a "200" then Some mainData
                else if String.eqb a "400" then Some bgData
                else None).

(** A page with a main layer at 100 and a background layer at 300. *)
Definition two_layer_page : gmap string string :=
  <["MAINLAYER"%string := "100"%string]>
    (<["BGLAYER"%string := "300"%string]> ∅).

(** ** The older decoders *)

(** The body of the loop of [legacyRLE] (lines 1098-1127) for the pair
    [(c, l)]: as in the reference decoder, but the runs are handed to
    [writeRun] unclamped, and a sentinel run is always [longLen]. *)
Definition legacy_pair (expected w : Z) (c l : byte) (st : rleState)
    : option rleState :=
  r ← (if haveHolder st then
         let pc := holdColor st in
         let pl := holdLen st in
         if Byte.eqb c pc then
           let length :=
             1 + byteZ l + Z.shiftl (Z.land (byteZ pl) 0x7f + 1) 7 in
           o ← writeRun (out st) expected w pc length;
           Some (true, RleState o false pc pl)
         else
           let length := 1 + Z.shiftl (Z.land (byteZ pl) 0x7f + 1) 7 in
           o ← writeRun (out st) expected w pc length;
           Some (false, RleState o false pc pl)
       else Some (false, st));
  let '(used, st1) := r in
  if used : bool then Some st1
  else if Byte.eqb l lenMark then
    o ← writeRun (out st1) expected w c longLen;
    Some (RleState o (haveHolder st1) (holdColor st1) (holdLen st1))
  else if negb (Z.land (byteZ l) 0x80 =? 0) then
    Some (RleState (out st1) true c l)
  else
    o ← writeRun (out st1) expected w c (byteZ l + 1);
    Some (RleState o (haveHolder st1) (holdColor st1) (holdLen st1)).

(** The loop of [legacyRLE] (lines 1097-1128). *)
Fixpoint legacy_loop (expected w : Z) (data : list byte) (st : rleState)
    : option rleState :=
  match data with
  | c :: l :: rest =>
      if lenZ (out st) <? expected then
        st' ← legacy_pair expected w c l st;
        legacy_loop expected w rest st'
      else Some st
  | _ => Some st
  end.

(** [legacyRLE] (line 1091): the pixels produced, the dimensions, and the
    counts of the error [fallback decoded %d != %d] when the raster is not
    complete.  The pixels are returned in both cases. *)
Definition legacyRLE (data : list byte) (w h : Z)
    : option (list byte * Z * Z * option (Z * Z)) :=
  let expected := int_wrap (w * h) in
  if expected <? 0 then None
  else
    st ← legacy_loop expected w data (RleState [] false x00 x00);
    o ← (if haveHolder st && (lenZ (out st) <? expected) then
           let remaining := expected - lenZ (out st) in
           let base := Z.shiftl (Z.land (byteZ (holdLen st)) 0x7f + 1) 7 in
           let base := if base >? remaining then remaining else base in
           writeRun (out st) expected w (holdColor st) base
         else Some (out st));
    if negb (lenZ o =? expected)
    then Some (o, w, h, Some (lenZ o, expected))
    else Some (o, w, h, None).

(** The body of the loop of [decodeRattaRLE] (lines 763-812) for the pair
    [(color, lb)].  A pending holder is merged only with a pair of its
    colour whose length byte has the high bit clear; otherwise it is flushed
    alone, as a run of [((pl & 0x7f) + 1) << 7], and a pair with the high bit
    set takes its place.  A pair that is not consumed is processed as in the
    reference decoder: lines 783-812 are lines 893-921 with the same three
    cases and the same run lengths ([rle_fresh]). *)
Definition ratta_pair (getenv : string → string) (expected w : Z)
    (allBlank : bool) (color lb : byte) (st : rleState) : option rleState :=
  if haveHolder st then
    let pc := holdColor st in
    let pl := holdLen st in
    if Byte.eqb color pc && (Z.land (byteZ lb) 0x80 =? 0) then
      let length :=
        1 + Z.land (byteZ lb) 0x7f + Z.shiftl (Z.land (byteZ pl) 0x7f + 1) 7 in
      let remain := expected - lenZ (out st) in
      o ← writeRun (out st) expected w pc (clamp length remain);
      Some (RleState o false pc pl)
    else
      let length := Z.shiftl (Z.land (byteZ pl) 0x7f + 1) 7 in
      let remain := expected - lenZ (out st) in
      o ← writeRun (out st) expected w pc (clamp length remain);
      if negb (Z.land (byteZ lb) 0x80 =? 0)
      then Some (RleState o true color lb)
      else rle_fresh getenv expected w allBlank color lb (RleState o false pc pl)
  else rle_fresh getenv expected w allBlank color lb st.

(** The loop of [decodeRattaRLE] (lines 746-812). *)
Fixpoint ratta_loop (getenv : string → string) (expected w : Z)
    (allBlank : bool) (data : list byte) (st : rleState) : option rleState :=
  match data with
  | color :: lb :: rest =>
      if lenZ (out st) <? expected then
        st' ← ratta_pair getenv expected w allBlank color lb st;
        ratta_loop getenv expected w allBlank rest st'
      else Some st
  | _ => Some st
  end.

(** [decodeRattaRLE] (line 736); its tail adjustment (lines 814-828) is that
    of the reference decoder ([rle_tail]), its error is
    [ratta_rle decoded %d != %d]. *)
Definition decodeRattaRLE (getenv : string → string) (data : list byte)
    (w h : Z) (allBlank horiz : bool) : option rleResult :=
  let '(w, h) := if horiz then (h, w) else (w, h) in
  let expected := int_wrap (w * h) in
  if expected <? 0 then None
  else
    st ← ratta_loop getenv expected w allBlank data (RleState [] false x00 x00);
    o ← rle_tail expected w st;
    if negb (lenZ o =? expected)
    then Some (RleMismatch (lenZ o) expected)
    else Some (RleOk o w h).

(** [decodeRattaRLERowFill] (line 950): the loop over the pairs (lines
    957-977), where a length byte 0xFF fills the rest of the current row. *)
Fixpoint rowfill_loop (expected w : Z) (data : list byte) (out : list byte)
    : option (list byte) :=
  match data with
  | color :: lb :: rest =>
      if lenZ out <? expected then
        run ← (if Byte.eqb lb xff then
                 if w =? 0 then None
                 else
                   let remainRow := w - Z.rem (lenZ out) w in
                   Some (if remainRow <=? 0 then w else remainRow)
               else Some (byteZ lb + 1));
        let remain := expected - lenZ out in
        o ← writeRun out expected w color (clamp run remain);
        rowfill_loop expected w rest o
      else Some out
  | _ => Some out
  end.

(** The padding loop [for len(out) < expected { writeRun(..., padColor, 1) }]
    (lines 983-985); every iteration adds one pixel, so [expected - len(out)]
    iterations are enough. *)
Fixpoint rowfill_pad (fuel : nat) (expected w : Z) (padColor : byte)
    (out : list byte) : option (list byte) :=
  if lenZ out <? expected then
    match fuel with
    | O => None
    | S fuel' =>
        o ← writeRun out expected w padColor 1;
        rowfill_pad fuel' expected w padColor o
    end
  else Some out.

(** [decodeRattaRLERowFill]: it has no error result.  The padding colour is
    the last byte written, a gray value, handed to [writeRun] as a colour
    code. *)
Definition decodeRattaRLERowFill (data : list byte) (w h : Z) (horiz : bool)
    : option (list byte * Z * Z) :=
  let '(w, h) := if horiz then (h, w) else (w, h) in
  let expected := int_wrap (w * h) in
  if expected <? 0 then None
  else
    o ← rowfill_loop expected w data [];
    o' ← (if negb (lenZ o =? expected) then
            let padColor := if 0 <? lenZ o then List.last o colBG else colBG in
            rowfill_pad (Z.to_nat (expected - lenZ o)) expected w padColor o
          else Some o);
    Some (o', w, h).


(** ** Raster utilities *)

(** [Histogram()[g]] (line 1412): the number of pixels of gray [g]. *)
Definition hist_count (pix : list byte) (g : byte) : Z :=
  Z.of_nat (length (filter (fun p => p = g) pix)).

(** Lines 154-163 of [FlattenBackground]: the scan of the histogram for the
    most frequent gray at or above 0xC0.  [order] is the order in which the
    [range] over the map yields its keys, which Go leaves unspecified. *)
Definition flatten_scan (pix : list byte) (order : list byte) : byte * Z :=
  fold_left
    (fun '(bestVal, bestCount) g =>
       let c := hist_count pix g in
       if (0xC0 <=? byteZ g) && (bestCount <? c) then (g, c)
       else (bestVal, bestCount))
    order (x00, -1).

(** [FlattenBackground(bg)] (line 149); the result is the raster after the
    call. *)
Definition FlattenBackground (order : list byte) (bg : option GrayImage)
    : option GrayImage :=
  match bg with
  | None => None
  | Some g =>
      if lenZ (pix g) =? 0 then bg
      else
        let '(bestVal, bestCount) := flatten_scan (pix g) order in
        if bestCount <=? 0 then bg
        else
          let tone := bestVal in
          let preserveCut := byteZ tone - 24 in
          let preserveCut := if preserveCut <? 0 then 0 else preserveCut in
          Some (mkGrayImage
                  (map (fun p => if byteZ p >=? preserveCut then tone else p)
                       (pix g))
                  (alpha g) (imgW g) (imgH g))
  end.

(** The colours [At] returns: [color.Gray{Y}] and [color.NRGBA{R, G, B, A}]. *)
Inductive pixelColor :=
  | Gray (y : byte)
  | NRGBA (r g b a : byte).

(** [s[i]] with Go's bounds check; [None] is the panic of an index out of
    range. *)
Definition index_checked (s : list byte) (i : Z) : option byte :=
  if i <? 0 then None else s !! Z.to_nat i.

(** [At(x, y)] (line 1384); [None] is the panic of an index out of range. *)
Definition At (g : GrayImage) (x y : Z) : option pixelColor :=
  if (x <? 0) || (y <? 0) || (x >=? imgW g) || (y >=? imgH g)
  then Some (Gray x00)
  else
    let idx := int_wrap (int_wrap (y * imgW g) + x) in
    match alpha g with
    | Some a =>
        if idx <? lenZ a then
          v ← index_checked (pix g) idx;
          av ← index_checked a idx;
          Some (NRGBA v v v av)
        else Gray <$> index_checked (pix g) idx
    | None => Gray <$> index_checked (pix g) idx
    end.

(** [SetPix(i, v)] (line 1405). *)
Definition SetPix (g : GrayImage) (i : Z) (v : byte) : GrayImage :=
  if (i >=? 0) && (i <? lenZ (pix g))
  then mkGrayImage (<[Z.to_nat i := v]> (pix g)) (alpha g) (imgW g) (imgH g)
  else g.

(** What a pending holder can still add. *)
Definition holder_credit (st : rleState) : Z :=
  if haveHolder st then 16384 else 0.

(** The length byte of a pending holder has its high bit set and is not the
    sentinel, so its flush run is shorter than a sentinel run. *)
Definition holder_ok (st : rleState) : Prop :=
  haveHolder st = true ->
  128 <= byteZ (holdLen st) /\ holdLen st <> lenMark.

(** ** The file format: metadata blocks and the notebook *)

Definition addressSize : Z := 4.

(** The characters that [metaRe] (line 698) excludes from a key and from a
    value. *)
Definition meta_delim (a : ascii) : bool :=
  Ascii.eqb a ":" || Ascii.eqb a "<" || Ascii.eqb a ">".

(** A character class of [metaRe] repeated, greedy: the longest prefix free of the three characters, and
    what follows it. *)
Fixpoint meta_span (s : string) : string * string :=
  match s with
  | EmptyString => (EmptyString, EmptyString)
  | String a r =>
      if meta_delim a then (EmptyString, s)
      else let '(k, r') := meta_span r in (String a k, r')
  end.

(** A match of [metaRe] at the start of [s], that is [<], a key of one or
    more characters other than [:<>], [:], a value of such characters and
    [>]: the two groups
    and what follows the match.  The classes exclude the character that has
    to come next, so the greedy match is the only one. *)
Definition meta_match (s : string) : option (string * string * string) :=
  match s with
  | String a r =>
      if Ascii.eqb a "<" then
        let '(k, r1) := meta_span r in
        match k, r1 with
        | String _ _, String c r2 =>
            if Ascii.eqb c ":" then
              let '(v, r3) := meta_span r2 in
              match r3 with
              | String d r4 => if Ascii.eqb d ">" then Some (k, v, r4) else None
              | EmptyString => None
              end
            else None
        | _, _ => None
        end
      else None
  | EmptyString => None
  end.

(** [metaRe.FindAllStringSubmatch(s, -1)]: the groups of the leftmost
    matches that do not overlap.  A match consumes at least one character,
    so [String.length s] steps are enough (see [meta_find_all_fuel]). *)
Fixpoint meta_find_all (fuel : nat) (s : string) : list (string * string) :=
  match fuel with
  | O => []
  | S fuel' =>
      match s with
      | EmptyString => []
      | String _ r =>
          match meta_match s with
          | Some (k, v, rest) => (k, v) :: meta_find_all fuel' rest
          | None => meta_find_all fuel' r
          end
      end
  end.

(** The body of the loop of [parseParams] (lines 703-707). *)
Definition param_insert (m : gmap string string) (gr : string * string)
    : gmap string string :=
  match m !! gr.1 with
  | Some _ => m
  | None => <[gr.1 := gr.2]> m
  end.

(** [parseParams] (line 700). *)
Definition parseParams (s : string) : gmap string string :=
  fold_left param_insert (meta_find_all (String.length s) s) ∅.

(** The file behind the [io.ReadSeeker], as its bytes; a read position is an
    offset from the start.  [r.Seek(addr, io.SeekStart)] fails on a negative
    offset and succeeds on any other. *)
Definition seek_start (addr : Z) : option Z :=
  if addr <? 0 then None else Some addr.

(** [binary.Read(r, binary.LittleEndian, &l)] of a [uint32] at offset [pos]:
    an error when fewer than four bytes are left. *)
Definition read_u32 (file : list byte) (pos : Z) : option Z :=
  match drop (Z.to_nat pos) file with
  | b0 :: b1 :: b2 :: b3 :: _ =>
      Some (byteZ b0 + Z.shiftl (byteZ b1) 8
            + Z.shiftl (byteZ b2) 16 + Z.shiftl (byteZ b3) 24)
  | _ => None
  end.

(** [io.ReadFull(r, make([]byte, n))] at offset [pos]: an error when fewer
    than [n] bytes are left. *)
Definition read_full (file : list byte) (pos n : Z) : option (list byte) :=
  let rest := drop (Z.to_nat pos) file in
  if n <=? lenZ rest then Some (take (Z.to_nat n) rest) else None.

(** [readMeta] (line 680); [None] is an error. *)
Definition readMeta (file : list byte) (addr : Z)
    : option (gmap string string) :=
  if addr =? 0 then Some ∅
  else
    pos ← seek_start addr;
    l ← read_u32 file pos;
    b ← read_full file (pos + 4) l;
    Some (parseParams (String.string_of_list_byte b)).

(** [sigPattern] (line 22), [SN_FILE_VER_\d{8}]. *)
Definition sig_prefix : list byte :=
  String.list_byte_of_string "SN_FILE_VER_".

Definition is_digit (b : byte) : bool :=
  (0x30 <=? byteZ b) && (byteZ b <=? 0x39).

(** A match of [sigPattern] at the start of [s]. *)
Definition sig_match (s : list byte) : option (list byte) :=
  if bool_decide (take 12 s = sig_prefix)
     && bool_decide (length (take 8 (drop 12 s)) = 8%nat)
     && forallb is_digit (take 8 (drop 12 s))
  then Some (take 20 s) else None.

(** [sigPattern.Find(buf)]: the leftmost match. *)
Fixpoint sig_find (s : list byte) : option (list byte) :=
  match sig_match s with
  | Some m => Some m
  | None =>
      match s with
      | [] => None
      | _ :: r => sig_find r
      end
  end.

(** The errors of [Parse]. *)
Inductive parseError :=
  | ErrSignatureNotFound
  | ErrSeekEnd
  | ErrFooterAddr
  | ErrFooter
  | ErrPageMeta.

Section Parser.

Variable getenv : string → string.

(** [strconv.ParseInt(s, 10, 64)], by the value it returns (also next to an
    error, which the callers drop). *)
Variable parseInt : string → Z.

(** The order in which a [range] over the footer yields its entries; Go
    leaves it unspecified. *)
Variable rangeOrder : list (string * string) → list (string * string).

(** [toInt64] (line 667) on the values of the footer, which are strings. *)
Definition toInt64 (v : string) : Z := parseInt v.

(** Lines 63-69: the addresses under the keys that start with PAGE, sorted.
    [sort.Slice] with [<] on integers returns the one ascending arrangement
    of its input, which [merge_sort] computes. *)
Definition pageAddrs (footer : gmap string string) : list Z :=
  merge_sort Z.le
    (map (fun kv => toInt64 kv.2)
       (filter (fun kv => String.prefix "PAGE" kv.1 = true)
          (rangeOrder (map_to_list footer)))).

(** [Parse] (line 42) on a reader at the start of [file], which reads as
    many of the 64 bytes as the file holds.  The result is the signature,
    the footer and the notebook. *)
Definition Parse (file : list byte)
    : (string * gmap string string * Notebook) + parseError :=
  let buf := take 64 (file ++ replicate 64 x00) in
  match sig_find buf with
  | None => inr ErrSignatureNotFound
  | Some sig =>
      if lenZ file <? addressSize then inr ErrSeekEnd
      else
        match read_u32 file (lenZ file - addressSize) with
        | None => inr ErrFooterAddr
        | Some footerAddr =>
            match readMeta file footerAddr with
            | None => inr ErrFooter
            | Some footer =>
                match mapM (readMeta file) (pageAddrs footer) with
                | None => inr ErrPageMeta
                | Some pages =>
                    let '(width, height) :=
                      if String.eqb (getenv "SUPERNOTE_FORCE_HIRES") "1"
                      then (1920, 2560) else (pageWidth, pageHeight) in
                    inl (String.string_of_list_byte sig, footer,
                         mkNotebook width height pages)
                end
            end
        end
  end.

(** The reads of the loader on [file]: what [fileReader] gives after
    [Parse]. *)
Definition fileSource (file : list byte) : byteSource :=
  mkByteSource
    (fun a => readMeta file (parseInt a))
    (fun a => pos ← seek_start (parseInt a); read_u32 file pos)
    (fun a n => read_full file (parseInt a + 4) n).

End Parser.

(** A string free of the characters [:], [<] and [>]. *)
Fixpoint meta_clean (s : string) : bool :=
  match s with
  | EmptyString => true
  | String a r => negb (meta_delim a) && meta_clean r
  end.

(** An entry [<key:value>] of a metadata block, followed by [s]. *)
Definition render_entry (kv : string * string) (s : string) : string :=
  String "<" (kv.1 +:+ String ":" (kv.2 +:+ String ">" s)).

(** The metadata block of a list of entries. *)
Definition render_meta (kvs : list (string * string)) : string :=
  fold_right render_entry EmptyString kvs.

(** A key is not empty, and neither key nor value holds [:], [<] or [>]. *)
Definition entry_ok (kv : string * string) : Prop :=
  kv.1 <> EmptyString /\ meta_clean kv.1 = true /\ meta_clean kv.2 = true.

(** The value of the first entry under key [k]. *)
Fixpoint first_value (kvs : list (string * string)) (k : string)
    : option string :=
  match kvs with
  | [] => None
  | kv :: rest => if String.eqb kv.1 k then Some kv.2 else first_value rest k
  end.

(** [strconv.ParseInt(s, 10, 64)] as the library documents it, to
    instantiate [parseInt] in examples: an optional sign and decimal digits,
    the value clamped to 64 bits, and 0 for any other string. *)
Fixpoint decimal_digits (s : string) (acc : Z) : option Z :=
  match s with
  | EmptyString => Some acc
  | String a r =>
      let d := Z.of_N (N_of_ascii a) - 48 in
      if (0 <=? d) && (d <=? 9) then decimal_digits r (10 * acc + d) else None
  end.

Definition parseInt10 (s : string) : Z :=
  let '(neg, body) :=
    match s with
    | String a r =>
        if Ascii.eqb a "+" then (false, r)
        else if Ascii.eqb a "-" then (true, r)
        else (false, s)
    | EmptyString => (false, s)
    end in
  match body with
  | EmptyString => 0
  | _ =>
      match decimal_digits body 0 with
      | Some n => Z.max (- 2 ^ 63) (Z.min max_int (if neg then - n else n))
      | None => 0
      end
  end.

(** The four bytes of a [uint32], little-endian. *)
Definition u32_bytes (n : Z) : list byte :=
  map (fun k => byte_of_Z (Z.shiftr n (8 * k) mod 256)) [0; 1; 2; 3].

(** A metadata block as the file holds it: the length, then the entries. *)
Definition meta_block (kvs : list (string * string)) : list byte :=
  let body := String.list_byte_of_string (render_meta kvs) in
  u32_bytes (lenZ body) ++ body.

(** A file of two pages: the signature, the metadata of the pages at
    offsets 20 and 65, the footer at offset 119 and its address.  The footer
    lists the page at the higher address first. *)
Definition two_page_file : list byte :=
  String.list_byte_of_string "SN_FILE_VER_20230015"
  ++ meta_block [("PAGESTYLE", "style_white"); ("ORIENTATION", "1000")]
  ++ meta_block [("PAGESTYLE", "style_8mm_ruled_line");
                 ("ORIENTATION", "1090")]
  ++ meta_block [("FILE_FEATURE", "24"); ("PAGE1", "65"); ("PAGE2", "20")]
  ++ u32_bytes 119.

(** ** The converter package and the logger *)

(** The errors of [ConvertPageToImage]: the page that does not exist, and an
    error of the decoder wrapped as [decode page: ...]. *)
Inductive convertError :=
  | ErrPageDoesNotExist (pageNum total : Z)
  | ErrDecodePage (e : error).

Section Converter.

Variable getenv : string → string.
Variable pngDecode : list byte → option pngImage.
Variable src : byteSource.

(** [ConvertPageToImage] (converter package, line 41). *)
Definition ConvertPageToImage (nb : Notebook) (pageNum : Z)
    : option (GrayImage + convertError) :=
  if pageNum >=? Z.of_nat (length (Pages nb))
  then Some (inr (ErrPageDoesNotExist pageNum (Z.of_nat (length (Pages nb)))))
  else
    l ← DecodeLayers getenv pngDecode src nb pageNum;
    match l with
    | inr e => Some (inr (ErrDecodePage e))
    | inl (mainImg, None) => Some (inl mainImg)
    | inl (mainImg, Some bgImg) =>
        r ← Composite (Some mainImg) (Some bgImg);
        match r.1 with
        | Some m => Some (inl m)
        | None => None
        end
    end.

End Converter.

(** The errors of [ParsePageSpec], one constructor per message. *)
Inductive specError :=
  | ErrInvalidPageNumber (part : string)
  | ErrPageOutOfRange (pageNum totalPages : Z)
  | ErrInvalidRangeFormat (spec : string)
  | ErrInvalidStartPage (part : string)
  | ErrInvalidEndPage (part : string)
  | ErrStartOutOfRange (start totalPages : Z)
  | ErrEndOutOfRange (stop totalPages : Z)
  | ErrStartAfterEnd (start stop : Z).

(** [strings.Contains(s, sep)] for a separator of one character. *)
Fixpoint contains_char (c : ascii) (s : string) : bool :=
  match s with
  | EmptyString => false
  | String a r => Ascii.eqb a c || contains_char c r
  end.

(** [strings.Split(s, sep)] for a separator of one character: the pieces
    between the separators, at least one. *)
Fixpoint split_char (c : ascii) (s : string) : list string :=
  match s with
  | EmptyString => [EmptyString]
  | String a r =>
      if Ascii.eqb a c then EmptyString :: split_char c r
      else
        match split_char c r with
        | piece :: pieces => String a piece :: pieces
        | [] => [String a EmptyString]
        end
  end.

Section PageSpec.

(** [strings.TrimSpace] and [strconv.Atoi] ([None] is its error). *)
Variable trimSpace : string → string.
Variable atoi : string → option Z.

(** Lines 121-131 of the converter: the loop over the parts of a list. *)
Fixpoint page_list (parts : list string) (totalPages : Z) (pages : list Z)
    : list Z + specError :=
  match parts with
  | [] => inl pages
  | part :: parts' =>
      let part := trimSpace part in
      match atoi part with
      | None => inr (ErrInvalidPageNumber part)
      | Some pageNum =>
          if (pageNum <? 0) || (pageNum >=? totalPages)
          then inr (ErrPageOutOfRange pageNum totalPages)
          else page_list parts' totalPages (pages ++ [pageNum])
      end
  end.

(** [for i := from; i <= to; i++ { pages = append(pages, i) }]. *)
Definition page_range (from to : Z) : list Z :=
  map (fun k => from + Z.of_nat k) (seq 0 (Z.to_nat (to - from + 1))).

(** [ParsePageSpec] (converter package, line 105). *)
Definition ParsePageSpec (spec : string) (totalPages : Z)
    : list Z + specError :=
  let spec := trimSpace spec in
  if String.eqb spec "*" then inl (page_range 0 (totalPages - 1))
  else if contains_char "," spec then
    page_list (split_char "," spec) totalPages []
  else if contains_char "-" spec then
    match split_char "-" spec with
    | [p0; p1] =>
        match atoi (trimSpace p0) with
        | None => inr (ErrInvalidStartPage p0)
        | Some start =>
            match atoi (trimSpace p1) with
            | None => inr (ErrInvalidEndPage p1)
            | Some stop =>
                if (start <? 0) || (start >=? totalPages)
                then inr (ErrStartOutOfRange start totalPages)
                else if (stop <? 0) || (stop >=? totalPages)
                then inr (ErrEndOutOfRange stop totalPages)
                else if start >? stop
                then inr (ErrStartAfterEnd start stop)
                else inl (page_range start stop)
            end
        end
    | _ => inr (ErrInvalidRangeFormat spec)
    end
  else
    match atoi spec with
    | None => inr (ErrInvalidPageNumber spec)
    | Some pageNum =>
        if (pageNum <? 0) || (pageNum >=? totalPages)
        then inr (ErrPageOutOfRange pageNum totalPages)
        else inl [pageNum]
    end.

End PageSpec.

(** [strconv.Atoi] as the library documents it, to instantiate [atoi] in
    examples: an optional sign and decimal digits, an error for any other
    string and for a number that does not fit 64 bits. *)
Definition atoi10 (s : string) : option Z :=
  let '(neg, body) :=
    match s with
    | String a r =>
        if Ascii.eqb a "+" then (false, r)
        else if Ascii.eqb a "-" then (true, r)
        else (false, s)
    | EmptyString => (false, s)
    end in
  match body with
  | EmptyString => None
  | _ =>
      n ← decimal_digits body 0;
      let n := if neg then - n else n in
      if (- 2 ^ 63 <=? n) && (n <=? max_int) then Some n else None
  end.

(** [shouldLog] (logging package, line 51); [currentLogLevel] is the
    package variable. *)
Definition logLevels : list (Z * string) :=
  [(0, "debug"); (1, "info"); (2, "warn"); (3, "error")]%string.

Definition shouldLog (currentLogLevel level : string) : bool :=
  let '(currentIndex, levelIndex) :=
    fold_left
      (fun '(currentIndex, levelIndex) '(i, l) =>
         (if String.eqb l currentLogLevel then i else currentIndex,
          if String.eqb l level then i else levelIndex))
      logLevels (-1, -1) in
  levelIndex >=? currentIndex.

(** ** The command-line program *)

Section CliPageSpec.

Variable trimSpace : string → string.
Variable atoi : string → option Z.

(** Lines 222-227 of the program: the loop over a range, from [i] on.  It
    runs at most [stop - i + 1] times; [fuel] bounds it. *)
Fixpoint cli_range_loop (fuel : nat) (i stop totalPages : Z)
    (pages : list Z) : list Z + specError :=
  match fuel with
  | O => inl pages
  | S fuel' =>
      if i <=? stop then
        if (i <? 0) || (i >=? totalPages)
        then inr (ErrPageOutOfRange i totalPages)
        else cli_range_loop fuel' (i + 1) stop totalPages (pages ++ [i])
      else inl pages
  end.

(** Lines 198-241: the loop over the parts.  The errors are those of the
    converter package with the same meaning. *)
Fixpoint cli_parts (parts : list string) (totalPages : Z) (pages : list Z)
    : list Z + specError :=
  match parts with
  | [] => inl pages
  | part :: parts' =>
      let part := trimSpace part in
      if contains_char "-" part then
        match split_char "-" part with
        | [p0; p1] =>
            match atoi (trimSpace p0) with
            | None => inr (ErrInvalidStartPage p0)
            | Some start =>
                match atoi (trimSpace p1) with
                | None => inr (ErrInvalidEndPage p1)
                | Some stop =>
                    if start >? stop then inr (ErrStartAfterEnd start stop)
                    else
                      match cli_range_loop (Z.to_nat (stop - start + 1))
                              start stop totalPages pages with
                      | inl pages' => cli_parts parts' totalPages pages'
                      | inr e => inr e
                      end
                end
            end
        | _ => inr (ErrInvalidRangeFormat part)
        end
      else
        match atoi part with
        | None => inr (ErrInvalidPageNumber part)
        | Some pageNum =>
            if (pageNum <? 0) || (pageNum >=? totalPages)
            then inr (ErrPageOutOfRange pageNum totalPages)
            else cli_parts parts' totalPages (pages ++ [pageNum])
        end
  end.

(** [parsePageSpec] of the program (line 183); [None] is the panic of
    [make] on a negative page count. *)
Definition parsePageSpec (spec : string) (totalPages : Z)
    : option (list Z + specError) :=
  let spec := trimSpace spec in
  if String.eqb spec EmptyString || String.eqb spec "*" || String.eqb spec "all"
  then
    if totalPages <? 0 then None
    else Some (inl (page_range 0 (totalPages - 1)))
  else Some (cli_parts (split_char "," spec) totalPages []).

End CliPageSpec.

(* ================================================================== *)
(** * Part II: properties *)
(* ================================================================== *)


Lemma lenZ_app (a b : list byte) : lenZ (a ++ b) = lenZ a + lenZ b.
Proof. unfold lenZ. rewrite length_app. lia. Qed.

Lemma lenZ_replicate (n : nat) (g : byte) : lenZ (replicate n g) = Z.of_nat n.
Proof. unfold lenZ. now rewrite length_replicate. Qed.

Lemma lenZ_nonneg (a : list byte) : 0 <= lenZ a.
Proof. unfold lenZ. lia. Qed.

Lemma replicate_Z_add (a b : Z) (g : byte) :
  0 <= a -> 0 <= b ->
  replicate (Z.to_nat a) g ++ replicate (Z.to_nat b) g
  = replicate (Z.to_nat (a + b)) g.
Proof. intros Ha Hb. rewrite Z2Nat.inj_add by lia. now rewrite replicate_add. Qed.


Lemma writeRun_loop_spec (fuel : nat) (expected w : Z) (g : byte) :
  0 < w ->
  forall (o : list byte) (length : Z),
    (Z.to_nat length <= fuel)%nat ->
    writeRun_loop fuel expected w g o length
    = Some (o ++ replicate (emitted length (expected - lenZ o)) g).
Proof.
  intros Hw. unfold emitted.
  induction fuel as [|fuel IH]; intros o length Hfuel; simpl.
  - destruct (0 <? length) eqn:Hl; [apply Z.ltb_lt in Hl; lia|].
    apply Z.ltb_ge in Hl. simpl.
    replace (Z.to_nat _) with 0%nat by lia. now rewrite app_nil_r.
  - destruct (0 <? length) eqn:Hl; simpl.
    2:{ apply Z.ltb_ge in Hl. replace (Z.to_nat _) with 0%nat by lia.
        now rewrite app_nil_r. }
    apply Z.ltb_lt in Hl.
    destruct (lenZ o <? expected) eqn:Hr.
    2:{ apply Z.ltb_ge in Hr. replace (Z.to_nat _) with 0%nat by lia.
        now rewrite app_nil_r. }
    apply Z.ltb_lt in Hr.
    destruct (expected - lenZ o <=? 0) eqn:Hrem; [apply Z.leb_le in Hrem; lia|].
    destruct (w =? 0) eqn:Hw0; [apply Z.eqb_eq in Hw0; lia|].
    pose proof (lenZ_nonneg o) as Hlen.
    pose proof (Z.rem_bound_pos (lenZ o) w Hlen Hw) as Hrb.
    set (space := w - Z.rem (lenZ o) w) in *.
    set (c1 := if length >? space then space else length).
    set (chunk := if c1 >? expected - lenZ o then expected - lenZ o else c1).
    assert (Hc1 : c1 = Z.min length space).
    { unfold c1. destruct (length >? space) eqn:E;
        [apply Z.gtb_lt in E | rewrite Z.gtb_ltb in E; apply Z.ltb_ge in E]; lia. }
    assert (Hchunk : chunk = Z.min c1 (expected - lenZ o)).
    { unfold chunk. destruct (c1 >? expected - lenZ o) eqn:E;
        [apply Z.gtb_lt in E | rewrite Z.gtb_ltb in E; apply Z.ltb_ge in E]; lia. }
    assert (Hpos : 1 <= chunk) by (unfold space in *; lia).
    destruct (chunk <? 0) eqn:Hneg; [apply Z.ltb_lt in Hneg; lia|].
    rewrite IH by lia.
    rewrite <- app_assoc, lenZ_app, lenZ_replicate.
    f_equal. f_equal.
    rewrite replicate_Z_add by lia.
    f_equal. lia.
Qed.

Lemma clamp_min (n remain : Z) : clamp n remain = Z.min n remain.
Proof.
  unfold clamp. destruct (n >? remain) eqn:E.
  - apply Z.gtb_lt in E. lia.
  - rewrite Z.gtb_ltb in E. apply Z.ltb_ge in E. lia.
Qed.

Lemma emitted_clamp (n remain : Z) :
  emitted (clamp n remain) remain = emitted n remain.
Proof. unfold emitted. rewrite clamp_min. f_equal. lia. Qed.

Lemma emitted_le (n remain : Z) :
  0 <= remain -> Z.of_nat (emitted n remain) <= remain.
Proof. unfold emitted. lia. Qed.

Lemma emitted_fits (n remain : Z) :
  0 <= n <= remain -> Z.of_nat (emitted n remain) = n.
Proof. unfold emitted. lia. Qed.

(** [writeRun] appends the run, painted with the palette value of its colour
    code and cut to the room left in the buffer; it cannot panic when the row
    width is positive. *)
Lemma writeRun_spec (o : list byte) (expected w : Z) (code : byte) (length : Z) :
  0 < w ->
  writeRun o expected w code length
  = Some (o ++ replicate (emitted length (expected - lenZ o)) (gray_of code)).
Proof.
  intros Hw. unfold writeRun.
  destruct (length <=? 0) eqn:Hl.
  - apply Z.leb_le in Hl. unfold emitted.
    replace (Z.to_nat _) with 0%nat by lia. now rewrite app_nil_r.
  - now apply writeRun_loop_spec.
Qed.

(** The run handed to [writeRun] is clamped by the caller first; the clamp
    changes nothing, [writeRun] cuts the run to the same room. *)
Lemma writeRun_clamped (o : list byte) (expected w : Z) (code : byte) (n : Z) :
  0 < w ->
  writeRun o expected w code (clamp n (expected - lenZ o))
  = Some (o ++ replicate (emitted n (expected - lenZ o)) (gray_of code)).
Proof. intros Hw. rewrite writeRun_spec by assumption. now rewrite emitted_clamp. Qed.

Lemma byteZ_range (b : byte) : 0 <= byteZ b <= 255.
Proof.
  unfold byteZ. pose proof (Byte.to_N_bounded b) as H. lia.
Qed.

Lemma byte_eqb_eq (a b : byte) : Byte.eqb a b = true <-> a = b.
Proof. split; [apply Byte.byte_dec_bl | apply Byte.byte_dec_lb]. Qed.

Lemma byte_eqb_neq (a b : byte) : Byte.eqb a b = false <-> a <> b.
Proof.
  split.
  - intros H ->. rewrite (Byte.byte_dec_lb eq_refl) in H. discriminate.
  - intros H. destruct (Byte.eqb a b) eqn:E; [|reflexivity].
    apply Byte.byte_dec_bl in E. contradiction.
Qed.

Lemma holder_unit_range (l1 : byte) : 1 <= holder_unit l1 <= 128.
Proof.
  unfold holder_unit. pose proof (byteZ_range l1) as H.
  assert (E : Z.land (byteZ l1) 127 = byteZ l1 mod 128).
  { change 127 with (Z.ones 7). now rewrite Z.land_ones by lia. }
  rewrite E. pose proof (Z.mod_pos_bound (byteZ l1) 128). lia.
Qed.

(** The holder test [(length & 0x80) != 0] reads the high bit. *)
Lemma high_bit_spec (b : byte) :
  (Z.land (byteZ b) 0x80 =? 0) = (byteZ b <? 128).
Proof. destruct b; reflexivity. Qed.

Lemma lenMark_spec (b : byte) : Byte.eqb b lenMark = (byteZ b =? 255).
Proof. destruct b; reflexivity. Qed.

(** Induction over a payload two bytes at a time. *)
Lemma list_pair_ind {A : Type} (P : list A -> Prop) :
  P [] ->
  (forall x, P [x]) ->
  (forall x y l, P l -> P (x :: y :: l)) ->
  forall l, P l.
Proof.
  intros H0 H1 H2 l.
  assert (H : P l /\ forall x, P (x :: l)).
  { induction l as [|a l [IHl IHl']]; split; auto. }
  apply H.
Qed.

Section CodecFacts.

Variable getenv : string → string.
Variables expected w : Z.
Variable allBlank : bool.
Hypothesis w_pos : 0 < w.

(** A sentinel pair processed from scratch. *)
Lemma rle_fresh_sentinel (color length : byte) (st : rleState) :
  length = lenMark ->
  rle_fresh getenv expected w allBlank color length st
  = Some (RleState
            (out st ++ replicate
               (emitted (specialLen getenv w allBlank color)
                  (expected - lenZ (out st)))
               (gray_of color))
            (haveHolder st) (holdColor st) (holdLen st)).
Proof.
  intros ->. unfold rle_fresh. simpl Byte.eqb. cbv iota.
  now rewrite writeRun_clamped by assumption.
Qed.

(** A holder pair processed from scratch is buffered, nothing is emitted. *)
Lemma rle_fresh_holder (color length : byte) (st : rleState) :
  length <> lenMark -> 128 <= byteZ length ->
  rle_fresh getenv expected w allBlank color length st
  = Some (RleState (out st) true color length).
Proof.
  intros Hm Hh. unfold rle_fresh.
  apply byte_eqb_neq in Hm. rewrite Hm, high_bit_spec.
  destruct (byteZ length <? 128) eqn:E; [apply Z.ltb_lt in E; lia|].
  reflexivity.
Qed.

(** A normal pair processed from scratch emits [length + 1] pixels. *)
Lemma rle_fresh_normal (color length : byte) (st : rleState) :
  byteZ length < 128 ->
  rle_fresh getenv expected w allBlank color length st
  = Some (RleState
            (out st ++ replicate
               (emitted (byteZ length + 1) (expected - lenZ (out st)))
               (gray_of color))
            (haveHolder st) (holdColor st) (holdLen st)).
Proof.
  intros Hh. unfold rle_fresh.
  rewrite lenMark_spec, high_bit_spec.
  destruct (byteZ length =? 255) eqn:E; [apply Z.eqb_eq in E; lia|].
  destruct (byteZ length <? 128) eqn:E'; [|apply Z.ltb_ge in E'; lia].
  simpl negb. cbv iota.
  now rewrite writeRun_clamped by assumption.
Qed.

(** The three cases are exhaustive. *)
Lemma pair_kind (length : byte) :
  length = lenMark \/ (length <> lenMark /\ 128 <= byteZ length)
  \/ byteZ length < 128.
Proof.
  destruct (decide (length = lenMark)) as [?|?]; [now left|right].
  destruct (Z_lt_ge_dec (byteZ length) 128); [right|left]; intuition lia.
Qed.

Lemma emit_bounded (o : list byte) (n : Z) (g : byte) :
  lenZ o <= expected ->
  lenZ o <= lenZ (o ++ replicate (emitted n (expected - lenZ o)) g) <= expected.
Proof.
  intros H. rewrite lenZ_app, lenZ_replicate.
  pose proof (emitted_le n (expected - lenZ o)). lia.
Qed.

(** Processing a pair from scratch never panics and never writes past the
    expected size. *)
Lemma rle_fresh_bounded (color length : byte) (st : rleState) :
  lenZ (out st) <= expected ->
  exists st', rle_fresh getenv expected w allBlank color length st = Some st'
    /\ lenZ (out st) <= lenZ (out st') <= expected.
Proof.
  intros Hb.
  destruct (pair_kind length) as [Hk|[[Hk1 Hk2]|Hk]].
  - rewrite rle_fresh_sentinel by assumption. eexists; split; [reflexivity|].
    simpl. now apply emit_bounded.
  - rewrite rle_fresh_holder by assumption. eexists; split; [reflexivity|].
    simpl. lia.
  - rewrite rle_fresh_normal by assumption. eexists; split; [reflexivity|].
    simpl. now apply emit_bounded.
Qed.

(** A pair that arrives while a holder of the same colour is pending. *)
Lemma rle_pair_merge (c1 l1 l2 : byte) (o : list byte) :
  rle_pair getenv expected w allBlank c1 l2 (RleState o true c1 l1)
  = Some (RleState
            (o ++ replicate
               (emitted (1 + byteZ l2 + Z.shiftl (holder_unit l1) 7)
                  (expected - lenZ o))
               (gray_of c1))
            false c1 l1).
Proof.
  unfold rle_pair. simpl.
  rewrite (Byte.byte_dec_lb (eq_refl c1)).
  now rewrite writeRun_clamped by assumption.
Qed.

(** A pair that arrives while a holder of another colour is pending. *)
Lemma rle_pair_flush (c1 l1 c2 l2 : byte) (o : list byte) :
  c2 <> c1 ->
  rle_pair getenv expected w allBlank c2 l2 (RleState o true c1 l1)
  = rle_pair getenv expected w allBlank c2 l2
      (RleState
         (o ++ replicate
            (emitted (1 + Z.shiftl (holder_unit l1) 7) (expected - lenZ o))
            (gray_of c1))
         false c1 l1).
Proof.
  intros Hne. unfold rle_pair at 1. simpl.
  apply byte_eqb_neq in Hne. rewrite Hne.
  now rewrite writeRun_clamped by assumption.
Qed.

Lemma rle_pair_bounded (color length : byte) (st : rleState) :
  lenZ (out st) <= expected ->
  exists st', rle_pair getenv expected w allBlank color length st = Some st'
    /\ lenZ (out st) <= lenZ (out st') <= expected.
Proof.
  intros Hb. destruct st as [o hh hc hl]. simpl in Hb.
  destruct hh.
  - destruct (decide (color = hc)) as [->|Hne].
    + rewrite rle_pair_merge. eexists; split; [reflexivity|].
      simpl. now apply emit_bounded.
    + rewrite rle_pair_flush by assumption.
      unfold rle_pair. simpl haveHolder. cbv iota.
      pose proof (emit_bounded o (1 + Z.shiftl (holder_unit hl) 7) (gray_of hc) Hb) as He.
      set (o' := o ++ _) in *.
      destruct (rle_fresh_bounded color length (RleState o' false hc hl))
        as (st' & Hst' & Hlen); [simpl; lia|].
      exists st'. split; [assumption|]. simpl in *. lia.
  - unfold rle_pair. simpl haveHolder. cbv iota.
    now apply rle_fresh_bounded.
Qed.

Lemma rle_loop_bounded (data : list byte) :
  forall st, lenZ (out st) <= expected ->
  exists st', rle_loop getenv expected w allBlank data st = Some st'
    /\ lenZ (out st') <= expected.
Proof.
  induction data as [|x|color length rest IH] using list_pair_ind;
    intros st Hb; simpl.
  - eauto.
  - eauto.
  - destruct (lenZ (out st) <? expected); [|eauto].
    destruct (rle_pair_bounded color length st Hb) as (st1 & -> & H1).
    simpl. apply IH. lia.
Qed.

End CodecFacts.

(** ** The tail adjustment *)

Lemma tail_search_bounds (pl : byte) (gap : Z) (bits : list Z) :
  0 <= gap -> 0 <= tail_search pl gap bits <= gap.
Proof.
  intros Hg. induction bits as [|bit bits IH]; simpl; [lia|].
  destruct (Z.leb_spec (Z.shiftl (Z.land (byteZ pl) 127 + 1) bit) gap) as [Hle|Hgt];
    [|exact IH].
  split; [|exact Hle].
  apply Z.shiftl_nonneg. pose proof (holder_unit_range pl) as Hr.
  unfold holder_unit in Hr. lia.
Qed.

(** The search returns the run of the largest shift that fits. *)
Lemma tail_search_largest (pl : byte) (gap k : Z) :
  0 <= k <= 7 ->
  Z.shiftl (holder_unit pl) k <= gap ->
  (forall k', k < k' <= 7 -> gap < Z.shiftl (holder_unit pl) k') ->
  tail_search pl gap tail_bits = Z.shiftl (holder_unit pl) k.
Proof.
  intros Hk Hfit Hbig. unfold holder_unit in *.
  assert (Hcases : k = 0 \/ k = 1 \/ k = 2 \/ k = 3 \/ k = 4 \/ k = 5 \/ k = 6 \/ k = 7)
    by lia.
  unfold tail_bits. cbn [tail_search].
  pose proof (fun H => Hbig 7 H) as H7. pose proof (fun H => Hbig 6 H) as H6.
  pose proof (fun H => Hbig 5 H) as H5. pose proof (fun H => Hbig 4 H) as H4.
  pose proof (fun H => Hbig 3 H) as H3. pose proof (fun H => Hbig 2 H) as H2.
  pose proof (fun H => Hbig 1 H) as H1.
  repeat match goal with
         | |- context [Z.leb ?a ?b] => destruct (Z.leb_spec a b)
         end;
    repeat destruct Hcases as [->|Hcases]; subst; try reflexivity; lia.
Qed.

(** With no shift that fits, the search returns 0. *)
Lemma tail_search_none (pl : byte) (gap : Z) :
  (forall k, 0 <= k <= 7 -> gap < Z.shiftl (holder_unit pl) k) ->
  tail_search pl gap tail_bits = 0.
Proof.
  intros Hbig. unfold holder_unit in *.
  unfold tail_bits. cbn [tail_search].
  pose proof (Hbig 7 ltac:(lia)). pose proof (Hbig 6 ltac:(lia)).
  pose proof (Hbig 5 ltac:(lia)). pose proof (Hbig 4 ltac:(lia)).
  pose proof (Hbig 3 ltac:(lia)). pose proof (Hbig 2 ltac:(lia)).
  pose proof (Hbig 1 ltac:(lia)). pose proof (Hbig 0 ltac:(lia)).
  repeat match goal with
         | |- context [Z.leb ?a ?b] => destruct (Z.leb_spec a b)
         end; try reflexivity; lia.
Qed.

(** What the tail adjustment appends for a pending holder. *)
Lemma rle_tail_holder (expected w : Z) (o : list byte) (c1 l1 : byte) :
  0 < w -> lenZ o < expected ->
  rle_tail expected w (RleState o true c1 l1)
  = Some (o ++ replicate
            (Z.to_nat (tail_search l1 (expected - lenZ o) tail_bits))
            (gray_of c1)).
Proof.
  intros Hw Hlt. unfold rle_tail. cbn [haveHolder out holdLen holdColor andb].
  destruct (Z.ltb_spec (lenZ o) expected) as [_|?]; [|lia].
  pose proof (tail_search_bounds l1 (expected - lenZ o) tail_bits ltac:(lia)) as Hb.
  set (adjusted := tail_search l1 (expected - lenZ o) tail_bits) in *.
  destruct (Z.ltb_spec 0 adjusted) as [Hpos|Hz].
  - rewrite writeRun_spec by assumption. unfold emitted.
    now rewrite Z.min_l by lia.
  - replace (Z.to_nat adjusted) with 0%nat by lia. now rewrite app_nil_r.
Qed.

Lemma rle_tail_bounded (expected w : Z) (st : rleState) :
  0 < w -> lenZ (out st) <= expected ->
  exists o, rle_tail expected w st = Some o /\ lenZ o <= expected.
Proof.
  intros Hw Hb. destruct st as [o hh hc hl]. simpl in Hb.
  destruct hh; [|unfold rle_tail; cbn [haveHolder out andb]; eauto].
  destruct (Z_lt_ge_dec (lenZ o) expected) as [Hlt|Hge].
  - rewrite rle_tail_holder by assumption. eexists; split; [reflexivity|].
    rewrite lenZ_app, lenZ_replicate.
    pose proof (tail_search_bounds hl (expected - lenZ o) tail_bits ltac:(lia)).
    lia.
  - unfold rle_tail. cbn [haveHolder out andb].
    destruct (Z.ltb_spec (lenZ o) expected); [lia|]. eauto.
Qed.

(** ** The decoder as a whole *)

Lemma int_wrap_small (z : Z) : 0 <= z <= max_int -> int_wrap z = z.
Proof.
  unfold int_wrap, max_int. intros H.
  change (2 ^ 64) with 18446744073709551616.
  change (2 ^ 63) with 9223372036854775808 in *.
  rewrite Z.mod_small by lia. lia.
Qed.

(** With an empty raster expected, the loop and the tail adjustment do
    nothing. *)
Lemma rle_loop_full (getenv : string → string) (expected w : Z)
    (allBlank : bool) (data : list byte) (st : rleState) :
  expected <= lenZ (out st) ->
  rle_loop getenv expected w allBlank data st = Some st.
Proof.
  intros H. destruct data as [|c [|l rest]]; simpl; try reflexivity.
  destruct (Z.ltb_spec (lenZ (out st)) expected); [lia|reflexivity].
Qed.

(** The decoder on in-range dimensions: it does not panic, and its result is
    decided by the number of pixels produced, which never exceeds the
    expected size. *)
Lemma decodeRattaRLERef_run (getenv : string → string) (data : list byte)
    (w h : Z) (allBlank horiz : bool) :
  0 <= w -> 0 <= h -> w * h <= max_int ->
  exists o,
    lenZ o <= w * h /\
    decodeRattaRLERef getenv data w h allBlank horiz
    = Some (if lenZ o =? w * h
            then RleOk o (if horiz then h else w) (if horiz then w else h)
            else RleMismatch (lenZ o) (w * h)).
Proof.
  intros Hw Hh Hmax. unfold decodeRattaRLERef.
  set (w' := if horiz then h else w). set (h' := if horiz then w else h).
  assert (Hdims : (if horiz then (h, w) else (w, h)) = (w', h'))
    by (unfold w', h'; now destruct horiz).
  rewrite Hdims.
  assert (Hprod : w' * h' = w * h) by (unfold w', h'; destruct horiz; lia).
  assert (Hw' : 0 <= w') by (unfold w'; now destruct horiz).
  assert (Hh' : 0 <= h') by (unfold h'; now destruct horiz).
  rewrite Hprod, int_wrap_small by nia.
  destruct (Z.ltb_spec (w * h) 0) as [?|_]; [nia|].
  destruct (Z.eq_dec (w * h) 0) as [Hz|Hnz].
  - exists []. rewrite Hz. split; [reflexivity|].
    rewrite rle_loop_full by reflexivity. reflexivity.
  - assert (Hpos : 0 < w') by nia.
    destruct (rle_loop_bounded getenv (w * h) w' allBlank Hpos data
                (RleState [] false x00 x00)) as (st & -> & Hst);
      [simpl; unfold lenZ; simpl; nia|].
    cbn -[rle_tail].
    destruct (rle_tail_bounded (w * h) w' st Hpos Hst) as (o & -> & Ho).
    exists o. split; [assumption|]. cbn.
    now destruct (lenZ o =? w * h).
Qed.

(** C4 (RLE completion).  For every payload and all dimensions in range, the
    decoder returns either a pixel buffer of exactly W*H bytes (with the
    dimensions it decoded at) or the size-mismatch error carrying the
    produced and the expected count and no pixels; the produced count of the
    error is below W*H, so no emission ever went past the expected size and
    no partial raster is returned. *)
Theorem C4_rle_completion (getenv : string → string) (data : list byte)
    (w h : Z) (allBlank horiz : bool) :
  0 <= w -> 0 <= h -> w * h <= max_int ->
  (exists pix,
      decodeRattaRLERef getenv data w h allBlank horiz
      = Some (RleOk pix (if horiz then h else w) (if horiz then w else h))
      /\ lenZ pix = w * h)
  \/ (exists produced,
      decodeRattaRLERef getenv data w h allBlank horiz
      = Some (RleMismatch produced (w * h))
      /\ 0 <= produced < w * h).
Proof.
  intros Hw Hh Hmax.
  destruct (decodeRattaRLERef_run getenv data w h allBlank horiz Hw Hh Hmax)
    as (o & Hle & ->).
  destruct (Z.eqb_spec (lenZ o) (w * h)) as [Heq|Hne].
  - left. now exists o.
  - right. exists (lenZ o). split; [reflexivity|].
    pose proof (lenZ_nonneg o). lia.
Qed.

(** C4 at a payload that fills a 2x5 raster decoded horizontally. *)
Lemma C4_rle_completion_witness :
  (exists pix,
      decodeRattaRLERef (fun _ => EmptyString) [x63; x09] 5 2 false true
      = Some (RleOk pix 2 5)
      /\ lenZ pix = 10)
  \/ (exists produced,
      decodeRattaRLERef (fun _ => EmptyString) [x63; x09] 5 2 false true
      = Some (RleMismatch produced 10)
      /\ 0 <= produced < 10).
Proof.
  apply (C4_rle_completion (fun _ => EmptyString) [x63; x09] 5 2 false true);
    [lia | lia | vm_compute; discriminate].
Defined.

(** The two outcomes on concrete payloads: a run of ten pixels fills the
    raster, a run of nine falls short and only the counts are returned. *)
Example decode_fills_raster :
  decodeRattaRLERef (fun _ => EmptyString) [x63; x09] 5 2 false true
  = Some (RleOk (replicate 10 x9d) 2 5).
Proof. vm_compute. reflexivity. Qed.

Example decode_falls_short :
  decodeRattaRLERef (fun _ => EmptyString) [x63; x08] 5 2 false false
  = Some (RleMismatch 9 10).
Proof. vm_compute. reflexivity. Qed.

(** ** Holder resolution *)

(** With no holder pending, a pair is processed from scratch. *)
Lemma rle_pair_no_holder (getenv : string → string) (expected w : Z)
    (allBlank : bool) (color length : byte) (o : list byte) (hc hl : byte) :
  rle_pair getenv expected w allBlank color length (RleState o false hc hl)
  = rle_fresh getenv expected w allBlank color length (RleState o false hc hl).
Proof. reflexivity. Qed.

(** C1 (holder resolution).  When a pair (c2, l2) arrives while a holder
    (c1, l1) is pending: if c2 = c1 the decoder emits the single run of colour
    c1 of length 1 + l2 + (((l1 & 0x7F) + 1) << 7) and the pair is consumed;
    if c2 <> c1 it emits the run of colour c1 of length
    1 + (((l1 & 0x7F) + 1) << 7) and then processes (c2, l2) from scratch, as
    a sentinel, a holder or a normal pair.  Every emission is cut to the room
    left in the raster ([emitted]).  The payload [0x61, 0x80, 0x61, 0x00]
    emits one run of 129 pixels of colour 0x61 (gray 0x00). *)
Theorem C1_holder_resolution (getenv : string → string) (expected w : Z)
    (allBlank : bool) (c1 l1 c2 l2 : byte) (o : list byte) :
  0 < w ->
  let st := RleState o true c1 l1 in
  let merged := 1 + byteZ l2 + Z.shiftl (holder_unit l1) 7 in
  let flushed := 1 + Z.shiftl (holder_unit l1) 7 in
  let o' := o ++ replicate (emitted flushed (expected - lenZ o)) (gray_of c1) in
  (c2 = c1 ->
     rle_pair getenv expected w allBlank c2 l2 st
     = Some (RleState
               (o ++ replicate (emitted merged (expected - lenZ o)) (gray_of c1))
               false c1 l1))
  /\ (c2 <> c1 ->
       (l2 = lenMark ->
          rle_pair getenv expected w allBlank c2 l2 st
          = Some (RleState
                    (o' ++ replicate
                       (emitted (specialLen getenv w allBlank c2)
                          (expected - lenZ o'))
                       (gray_of c2))
                    false c1 l1))
       /\ (l2 <> lenMark -> 128 <= byteZ l2 ->
           rle_pair getenv expected w allBlank c2 l2 st
           = Some (RleState o' true c2 l2))
       /\ (byteZ l2 < 128 ->
           rle_pair getenv expected w allBlank c2 l2 st
           = Some (RleState
                     (o' ++ replicate
                        (emitted (byteZ l2 + 1) (expected - lenZ o'))
                        (gray_of c2))
                     false c1 l1)))
  /\ (129 <= expected ->
       rle_loop getenv expected w allBlank [x61; x80; x61; x00]
         (RleState [] false x00 x00)
       = Some (RleState (replicate 129 x00) false x61 x80)).
Proof.
  intros Hw st merged flushed o'. subst st merged flushed o'.
  split; [|split].
  - intros ->. now apply rle_pair_merge.
  - intros Hne. rewrite rle_pair_flush by assumption.
    unfold rle_pair. cbn [haveHolder].
    split; [|split].
    + intros Hk. now rewrite rle_fresh_sentinel by assumption.
    + intros Hk1 Hk2. now rewrite rle_fresh_holder by assumption.
    + intros Hk. now rewrite rle_fresh_normal by assumption.
  - intros Hexp. cbn [rle_loop].
    change (lenZ (out (RleState [] false x00 x00))) with 0.
    destruct (Z.ltb_spec 0 expected) as [_|?]; [|lia].
    rewrite rle_pair_no_holder.
    rewrite rle_fresh_holder by (try assumption; try discriminate; vm_compute; discriminate).
    cbn [mbind option_bind out].
    change (lenZ []) with 0.
    destruct (Z.ltb_spec 0 expected) as [_|?]; [|lia].
    rewrite rle_pair_merge by assumption.
    cbn [mbind option_bind]. do 2 f_equal.
    change (lenZ []) with 0.
    change (1 + byteZ x00 + Z.shiftl (holder_unit x80) 7) with 129.
    unfold emitted. rewrite Z.min_l by lia. reflexivity.
Qed.

(** C1 at a 4x100 raster with 10 pixels produced and the holder (0x63, 0x81)
    pending, when the pair (0x61, 0x05) arrives. *)
Lemma C1_holder_resolution_witness :
  rle_pair (fun _ => EmptyString) 400 4 false x61 x05
    (RleState (replicate 10 xfe) true x63 x81)
  = Some (RleState
            (replicate 10 xfe ++ replicate 257 x9d ++ replicate 6 x00)
            false x63 x81).
Proof.
  destruct (C1_holder_resolution (fun _ => EmptyString) 400 4 false
              x63 x81 x61 x05 (replicate 10 xfe) ltac:(lia))
    as (_ & Hflush & _).
  destruct (Hflush ltac:(discriminate)) as (_ & _ & Hnormal).
  rewrite (Hnormal ltac:(vm_compute; reflexivity)).
  vm_compute. reflexivity.
Defined.

(** ** Tail adjustment *)

(** C2 (tail adjustment).  When the loop is left with a holder (c1, l1)
    pending and fewer than W*H pixels produced, the decoder appends
    (((l1 & 0x7F) + 1) << k) pixels of colour c1 for the largest k in
    {7, ..., 0} whose run fits the gap W*H - produced, and appends nothing
    when no k fits. *)
Theorem C2_tail_adjustment (expected w : Z) (o : list byte) (c1 l1 : byte) :
  0 < w -> lenZ o < expected ->
  let gap := expected - lenZ o in
  (forall k,
      0 <= k <= 7 ->
      Z.shiftl (holder_unit l1) k <= gap ->
      (forall k', k < k' <= 7 -> gap < Z.shiftl (holder_unit l1) k') ->
      rle_tail expected w (RleState o true c1 l1)
      = Some (o ++ replicate (Z.to_nat (Z.shiftl (holder_unit l1) k))
                     (gray_of c1)))
  /\ ((forall k, 0 <= k <= 7 -> gap < Z.shiftl (holder_unit l1) k) ->
      rle_tail expected w (RleState o true c1 l1) = Some o).
Proof.
  intros Hw Hlt gap. subst gap. split.
  - intros k Hk Hfit Hbig. rewrite rle_tail_holder by assumption.
    now rewrite (tail_search_largest l1 _ k).
  - intros Hbig. rewrite rle_tail_holder by assumption.
    rewrite tail_search_none by assumption. simpl. now rewrite app_nil_r.
Qed.

(** C2 at the trailing holder (0x61, 0x83) with a gap of 64: the unit is 4,
    the largest shift that fits is 4, and 64 pixels are appended. *)
Lemma C2_tail_adjustment_witness :
  rle_tail 64 8 (RleState [] true x61 x83) = Some (replicate 64 x00).
Proof.
  destruct (C2_tail_adjustment 64 8 [] x61 x83 ltac:(lia) ltac:(reflexivity))
    as [Hfit _].
  rewrite (Hfit 4).
  - reflexivity.
  - lia.
  - vm_compute. discriminate.
  - intros k' Hk'.
    assert (Hc : k' = 5 \/ k' = 6 \/ k' = 7) by lia.
    destruct Hc as [-> | [-> | ->]]; reflexivity.
Defined.

(** The same holder through the whole decoder: an 8x8 raster is filled by the
    tail adjustment alone. *)
Example decode_tail_adjustment :
  decodeRattaRLERef (fun _ => EmptyString) [x61; x83] 8 8 false false
  = Some (RleOk (replicate 64 x00) 8 8).
Proof. vm_compute. reflexivity. Qed.

(** A gap no shift fits: the holder (0x61, 0x83) has unit 4, a gap of 3
    pixels stays open and the decode fails with the counts. *)
Example decode_tail_nothing_fits :
  decodeRattaRLERef (fun _ => EmptyString) [x61; x83] 3 1 false false
  = Some (RleMismatch 0 3).
Proof. vm_compute. reflexivity. Qed.

(** ** The palette default *)

(** The gray value of every code: the eight palette codes and the four
    variant codes have their table entry, every other code is mid gray. *)
Lemma gray_of_cases (code : byte) :
  0x61 <= byteZ code <= 0x68 \/ code = x9d \/ code = x9e
  \/ gray_of code = xc9.
Proof.
  destruct code;
    first [ right; right; right; reflexivity
          | right; left; reflexivity
          | right; right; left; reflexivity
          | left; cbv; split; discriminate ].
Qed.

(** C8, as amended (palette defaulting).  A run of a colour code outside the
    eight palette codes 0x61..0x68 is painted mid gray 0xC9, unless the code
    is one of the variant codes 0x9D and 0x9E, whose runs are painted 0x9D. *)
Theorem C8_palette_default (code : byte) (o : list byte) (expected w length : Z) :
  0 < w ->
  ~ (0x61 <= byteZ code <= 0x68) ->
  (code <> x9d -> code <> x9e ->
     gray_of code = xc9
     /\ writeRun o expected w code length
        = Some (o ++ replicate (emitted length (expected - lenZ o)) xc9))
  /\ (code = x9d \/ code = x9e ->
      gray_of code = x9d
      /\ writeRun o expected w code length
         = Some (o ++ replicate (emitted length (expected - lenZ o)) x9d)).
Proof.
  intros Hw Hout. split.
  - intros H1 H2.
    destruct (gray_of_cases code) as [?|[?|[?|Hg]]]; try contradiction.
    rewrite writeRun_spec by assumption. now rewrite Hg.
  - intros Hv. rewrite writeRun_spec by assumption.
    destruct Hv as [-> | ->]; split; reflexivity.
Qed.

(** C8 at the unknown code 0x20 and at the variant code 0x9E. *)
Lemma C8_palette_default_witness :
  writeRun [] 6 3 x20 2 = Some [xc9; xc9]
  /\ writeRun [] 6 3 x9e 2 = Some [x9d; x9d].
Proof.
  split.
  - apply (C8_palette_default x20 [] 6 3 2);
      [lia | vm_compute; intros [H _]; apply H; reflexivity
       | discriminate | discriminate].
  - apply (C8_palette_default x9e [] 6 3 2);
      [lia | vm_compute; intros [_ H]; apply H; reflexivity | now right].
Defined.

(** C8 as stated fails: the code 0x9D lies outside 0x61..0x68 and its run is
    painted 0x9D, not 0xC9. *)
Lemma C8_counterexample :
  ~ (forall code : byte,
        ~ (0x61 <= byteZ code <= 0x68) ->
        forall (o : list byte) (expected w length : Z),
          0 < w ->
          writeRun o expected w code length
          = Some (o ++ replicate (emitted length (expected - lenZ o)) xc9)).
Proof.
  intros H.
  specialize (H x9d ltac:(vm_compute; intros [_ H']; apply H'; reflexivity)
                [] 2 2 2 ltac:(lia)).
  vm_compute in H. discriminate H.
Qed.

(** The same through the decoder: the payload (0x9D, 0x02) decodes to three
    pixels of gray 0x9D. *)
Example decode_variant_code :
  decodeRattaRLERef (fun _ => EmptyString) [x9d; x02] 3 1 false false
  = Some (RleOk [x9d; x9d; x9d] 3 1).
Proof. vm_compute. reflexivity. Qed.

(** ** The compositor *)

Lemma composite_loop_spec (fuel : nat) (bp : list byte) :
  forall (i : nat) (m a : list byte),
    (length m - i <= fuel)%nat ->
    exists m' a',
      composite_loop fuel i m a bp = Some (m', a')
      /\ length m' = length m /\ length a' = length a
      /\ (forall j, m' !! j
                    = if decide (replaced_from i m a bp j) then bp !! j else m !! j)
      /\ (forall j, a' !! j
                    = if decide (replaced_from i m a bp j) then Some xff else a !! j).
Proof.
  induction fuel as [|fuel IH]; intros i m a Hfuel.
  - exists m, a. simpl.
    split; [reflexivity|]. split; [reflexivity|]. split; [reflexivity|].
    split; intros j; case_decide as Hr; try reflexivity;
      destruct Hr as [Hr _]; unfold common_len in Hr; lia.
  - simpl.
    destruct ((i <? length m)%nat && (i <? length bp)%nat && (i <? length a)%nat)
      eqn:Hguard.
    2:{ exists m, a.
        assert (Hout : forall j, ~ replaced_from i m a bp j).
        { intros j [Hr _]. unfold common_len in Hr.
          rewrite !andb_false_iff, !Nat.ltb_ge in Hguard. lia. }
        split; [reflexivity|]. split; [reflexivity|]. split; [reflexivity|].
        split; intros j; case_decide as Hr; try reflexivity;
          now apply Hout in Hr. }
    rewrite !andb_true_iff, !Nat.ltb_lt in Hguard.
    destruct Hguard as [[Him Hib] Hia].
    destruct (lookup_lt_is_Some_2 a i Hia) as [ai Hai].
    destruct (lookup_lt_is_Some_2 bp i Hib) as [bi Hbi].
    rewrite Hai. cbn [mbind option_bind].
    destruct (Byte.eqb ai x00) eqn:Hz.
    + apply byte_eqb_eq in Hz. subst ai.
      rewrite Hbi. cbn [mbind option_bind].
      destruct (IH (S i) (<[i:=bi]> m) (<[i:=xff]> a))
        as (m' & a' & -> & Hlm & Hla & Hm & Ha).
      { rewrite length_insert. lia. }
      rewrite !length_insert in Hlm, Hla.
      assert (Hstep : forall j,
                 replaced_from i m a bp j
                 <-> j = i \/ replaced_from (S i) (<[i:=bi]> m) (<[i:=xff]> a) bp j).
      { intros j. unfold replaced_from, common_len. rewrite !length_insert.
        destruct (decide (j = i)) as [->|Hji].
        - rewrite list_lookup_insert_eq by assumption.
          split; [now left|]. intros _. split; [lia|assumption].
        - rewrite list_lookup_insert_ne by congruence.
          split; [intros [? ?]; right; split; [lia|assumption]|].
          intros [?|[? ?]]; [contradiction|]. split; [lia|assumption]. }
      assert (Hnot : ~ replaced_from (S i) (<[i:=bi]> m) (<[i:=xff]> a) bp i).
      { intros [? _]. lia. }
      exists m', a'.
      split; [reflexivity|]. split; [assumption|]. split; [assumption|].
      split; intros j.
      * rewrite Hm.
        destruct (decide (j = i)) as [->|Hji].
        -- rewrite list_lookup_insert_eq by assumption.
           rewrite (decide_False _ _ Hnot).
           rewrite decide_True by (apply Hstep; now left). now rewrite Hbi.
        -- rewrite list_lookup_insert_ne by congruence.
           destruct (decide (replaced_from (S i) (<[i:=bi]> m) (<[i:=xff]> a) bp j))
             as [Hr|Hr].
           ++ rewrite decide_True by (apply Hstep; now right). reflexivity.
           ++ rewrite decide_False; [reflexivity|].
              intros Hr'. apply Hstep in Hr' as [?|?]; contradiction.
      * rewrite Ha.
        destruct (decide (j = i)) as [->|Hji].
        -- rewrite list_lookup_insert_eq by assumption.
           rewrite (decide_False _ _ Hnot).
           rewrite decide_True by (apply Hstep; now left). reflexivity.
        -- rewrite list_lookup_insert_ne by congruence.
           destruct (decide (replaced_from (S i) (<[i:=bi]> m) (<[i:=xff]> a) bp j))
             as [Hr|Hr].
           ++ rewrite decide_True by (apply Hstep; now right). reflexivity.
           ++ rewrite decide_False; [reflexivity|].
              intros Hr'. apply Hstep in Hr' as [?|?]; contradiction.
    + apply byte_eqb_neq in Hz.
      destruct (IH (S i) m a) as (m' & a' & -> & Hlm & Hla & Hm & Ha); [lia|].
      assert (Hstep : forall j,
                 replaced_from i m a bp j <-> replaced_from (S i) m a bp j).
      { intros j. unfold replaced_from. split; intros [Hr Hj]; (split; [|assumption]).
        - destruct (decide (j = i)) as [->|Hji]; [congruence|lia].
        - lia. }
      exists m', a'.
      split; [reflexivity|]. split; [assumption|]. split; [assumption|].
      split; intros j.
      * rewrite Hm. now rewrite (decide_ext _ _ _ _ (Hstep j)).
      * rewrite Ha. now rewrite (decide_ext _ _ _ _ (Hstep j)).
Qed.

(** The compositor on a main raster with an alpha plane: it does not panic,
    the background is left as it is, and each index of the two planes of the
    main raster is decided by [replaced_from 0]. *)
Lemma Composite_spec (p a : list byte) (w h : Z) (B : GrayImage) :
  exists p' a',
    Composite (Some (mkGrayImage p (Some a) w h)) (Some B)
    = Some (Some (mkGrayImage p' (Some a') w h), Some B)
    /\ length p' = length p /\ length a' = length a
    /\ (forall j, p' !! j
                  = if decide (replaced_from 0 p a (pix B) j)
                    then pix B !! j else p !! j)
    /\ (forall j, a' !! j
                  = if decide (replaced_from 0 p a (pix B) j)
                    then Some xff else a !! j).
Proof.
  destruct (composite_loop_spec (length p) (pix B) 0 p a ltac:(lia))
    as (p' & a' & Hrun & Hrest).
  exists p', a'. split; [|exact Hrest].
  unfold Composite. cbn [alpha pix imgW imgH]. rewrite Hrun. reflexivity.
Qed.

Lemma replaced_from_0 (m a bp : list byte) (j : nat) :
  replaced_from 0 m a bp j <-> (j < common_len m a bp)%nat /\ a !! j = Some x00.
Proof. unfold replaced_from. intuition lia. Qed.

(** C6 (compositor transformation).  For a main raster M with an alpha plane
    and a background B, compositing sets M.pix[i] to B.pix[i] and M.alpha[i]
    to 255 at exactly the indices i inside the common length of M.pix,
    M.alpha and B.pix where M.alpha[i] = 0; every other index of M and the
    whole of B are unchanged; and compositing the result with B once more
    changes nothing. *)
Theorem C6_compositor (p a : list byte) (w h : Z) (B : GrayImage) :
  exists p' a',
    Composite (Some (mkGrayImage p (Some a) w h)) (Some B)
    = Some (Some (mkGrayImage p' (Some a') w h), Some B)
    /\ length p' = length p /\ length a' = length a
    /\ (forall i, (i < common_len p a (pix B))%nat -> a !! i = Some x00 ->
                  p' !! i = pix B !! i /\ a' !! i = Some xff)
    /\ (forall i, ~ ((i < common_len p a (pix B))%nat /\ a !! i = Some x00) ->
                  p' !! i = p !! i /\ a' !! i = a !! i)
    /\ Composite (Some (mkGrayImage p' (Some a') w h)) (Some B)
       = Some (Some (mkGrayImage p' (Some a') w h), Some B).
Proof.
  destruct (Composite_spec p a w h B) as (p' & a' & Hrun & Hlp & Hla & Hp & Ha).
  exists p', a'.
  split; [exact Hrun|]. split; [exact Hlp|]. split; [exact Hla|].
  split; [|split].
  - intros i Hi Hz. rewrite Hp, Ha.
    rewrite !decide_True by (apply replaced_from_0; now split). now split.
  - intros i Hno. rewrite Hp, Ha.
    rewrite !decide_False by (rewrite replaced_from_0; exact Hno). now split.
  - destruct (Composite_spec p' a' w h B)
      as (p'' & a'' & -> & Hlp' & Hla' & Hp' & Ha').
    assert (Hnone : forall j, ~ replaced_from 0 p' a' (pix B) j).
    { intros j Hr. apply replaced_from_0 in Hr as [Hj Hz].
      unfold common_len in Hj. rewrite Hlp, Hla in Hj.
      rewrite Ha in Hz. case_decide as Hr; [discriminate Hz|].
      apply Hr. apply replaced_from_0. now split. }
    assert (p'' = p') as ->.
    { apply list_eq. intros j. rewrite Hp'. now rewrite decide_False by apply Hnone. }
    assert (a'' = a') as ->.
    { apply list_eq. intros j. rewrite Ha'. now rewrite decide_False by apply Hnone. }
    reflexivity.
Qed.

(** The scenario of the specification on a small raster: the transparent
    pixels at indices 1 and 3 take the background, the others stay. *)
Example composite_scenario :
  Composite (Some (mkGrayImage [x00; xff; x9d; xff] (Some [xff; x00; xff; x00]) 2 2))
            (Some (mkGrayImage [x80; x81; x82; x83] None 2 2))
  = Some (Some (mkGrayImage [x00; x81; x9d; x83] (Some [xff; xff; xff; xff]) 2 2),
          Some (mkGrayImage [x80; x81; x82; x83] None 2 2)).
Proof. reflexivity. Qed.

(** C7, as amended.  When every alpha byte of the main raster M is 0 or 255
    and neither M.pix nor B.pix is shorter than M.alpha, every alpha byte of
    M equals 255 after the compositor has run. *)
Theorem C7_alpha_opaque (p a : list byte) (w h : Z) (B : GrayImage) :
  (length a <= length p)%nat ->
  (length a <= length (pix B))%nat ->
  (forall i x, a !! i = Some x -> x = x00 \/ x = xff) ->
  exists p',
    Composite (Some (mkGrayImage p (Some a) w h)) (Some B)
    = Some (Some (mkGrayImage p' (Some (replicate (length a) xff)) w h), Some B)
    /\ all_opaque (mkGrayImage p' (Some (replicate (length a) xff)) w h).
Proof.
  intros Hp Hb Hbin.
  destruct (Composite_spec p a w h B) as (p' & a' & Hrun & Hlp & Hla & _ & Ha).
  assert (a' = replicate (length a) xff) as ->.
  { apply list_eq. intros j. rewrite Ha.
    destruct (decide (j < length a)%nat) as [Hj|Hj].
    - rewrite lookup_replicate_2 by assumption.
      destruct (lookup_lt_is_Some_2 a j Hj) as [x Hx].
      case_decide as Hr; [reflexivity|].
      rewrite Hx. destruct (Hbin j x Hx) as [->| ->]; [|reflexivity].
      exfalso. apply Hr. apply replaced_from_0. split; [|assumption].
      unfold common_len. lia.
    - rewrite decide_False
        by (rewrite replaced_from_0; unfold common_len; lia).
      rewrite lookup_ge_None_2 by lia.
      symmetry. apply lookup_replicate_None. lia. }
  exists p'. split; [exact Hrun|].
  intros a0 Ha0 i x Hx. cbn [alpha] in Ha0. injection Ha0 as <-.
  apply lookup_replicate_1 in Hx. tauto.
Qed.

(** C7 as amended, on a raster with two transparent pixels. *)
Lemma C7_alpha_opaque_witness :
  exists p',
    Composite (Some (mkGrayImage [xff; x00; xff] (Some [x00; xff; x00]) 3 1))
              (Some (mkGrayImage [xfe; xfe; xc9] None 3 1))
    = Some (Some (mkGrayImage p' (Some [xff; xff; xff]) 3 1),
            Some (mkGrayImage [xfe; xfe; xc9] None 3 1))
    /\ all_opaque (mkGrayImage p' (Some [xff; xff; xff]) 3 1).
Proof.
  apply (C7_alpha_opaque [xff; x00; xff] [x00; xff; x00] 3 1
           (mkGrayImage [xfe; xfe; xc9] None 3 1)).
  - simpl. lia.
  - simpl. lia.
  - intros [|[|[|i]]] x Hx; simpl in Hx; inversion Hx; auto.
Defined.

(** C7 as stated fails, in two ways.  A main raster decoded from a PNG keeps
    the alpha of its source, and a half-transparent byte 0x80 is not touched;
    and where the background is shorter than the main raster, the transparent
    pixels past its end stay transparent. *)
Lemma C7_counterexample :
  (Composite (Some (mkGrayImage [x10] (Some [x80]) 1 1))
             (Some (mkGrayImage [x20] (Some [xff]) 1 1))
   = Some (Some (mkGrayImage [x10] (Some [x80]) 1 1),
           Some (mkGrayImage [x20] (Some [xff]) 1 1))
   /\ ~ all_opaque (mkGrayImage [x10] (Some [x80]) 1 1))
  /\ (Composite (Some (mkGrayImage [xff; xff] (Some [x00; x00]) 2 1))
                (Some (mkGrayImage [xfe] (Some [xff]) 1 1))
      = Some (Some (mkGrayImage [xfe; xff] (Some [xff; x00]) 2 1),
              Some (mkGrayImage [xfe] (Some [xff]) 1 1))
      /\ ~ all_opaque (mkGrayImage [xfe; xff] (Some [xff; x00]) 2 1)).
Proof.
  split; (split; [reflexivity|]); intros Hall.
  - specialize (Hall [x80] eq_refl 0%nat x80 eq_refl). discriminate Hall.
  - specialize (Hall [xff; x00] eq_refl 1%nat x00 eq_refl). discriminate Hall.
Qed.

(** C10 (nil arguments).  With a nil main raster, a nil background, or a main
    raster without an alpha plane, the compositor returns at once: it does
    not panic and the two rasters are what they were. *)
Theorem C10_composite_nil :
  (forall bg : option GrayImage, Composite None bg = Some (None, bg))
  /\ (forall main : option GrayImage, Composite main None = Some (main, None))
  /\ (forall (p : list byte) (w h : Z) (bg : option GrayImage),
        Composite (Some (mkGrayImage p None w h)) bg
        = Some (Some (mkGrayImage p None w h), bg)).
Proof.
  split; [|split].
  - intros bg. reflexivity.
  - intros [mi|]; reflexivity.
  - intros p w h [bi|]; reflexivity.
Qed.

(** ** Counted loops *)

Lemma for_upto_S {St : Type} (n : Z) (body : Z → St → St) (s : St) :
  0 <= n ->
  for_upto (n + 1) body s = body n (for_upto n body s).
Proof.
  intros Hn. unfold for_upto.
  replace (Z.to_nat (n + 1)) with (Z.to_nat n + 1)%nat by lia.
  rewrite seq_app, fold_left_app. simpl.
  now rewrite Z2Nat.id by lia.
Qed.

Lemma for_upto_0 {St : Type} (body : Z → St → St) (s : St) :
  for_upto 0 body s = s.
Proof. reflexivity. Qed.

(** Loop invariants: [P k s] holds of the state before iteration [k]. *)
Lemma for_upto_ind {St : Type} (P : Z → St → Prop) (n : Z)
    (body : Z → St → St) (s : St) :
  0 <= n ->
  P 0 s ->
  (forall k s, 0 <= k < n -> P k s -> P (k + 1) (body k s)) ->
  P n (for_upto n body s).
Proof.
  intros Hn H0 Hstep.
  assert (H : forall m : nat, (m <= Z.to_nat n)%nat ->
                P (Z.of_nat m) (for_upto (Z.of_nat m) body s)).
  { induction m as [|m IH]; intros Hm; [exact H0|].
    replace (Z.of_nat (S m)) with (Z.of_nat m + 1) by lia.
    rewrite for_upto_S by lia. apply Hstep; [lia|]. apply IH. lia. }
  specialize (H (Z.to_nat n) (le_n _)). now rewrite Z2Nat.id in H by lia.
Qed.

(** A loop over a pair of buffers that updates each on its own is a pair of
    loops. *)
Lemma for_upto_pair {A B : Type} (n : Z) (F : Z → A → A) (G : Z → B → B)
    (a : A) (b : B) :
  for_upto n (fun k '(a, b) => (F k a, G k b)) (a, b)
  = (for_upto n F a, for_upto n G b).
Proof.
  unfold for_upto. generalize (seq 0 (Z.to_nat n)) as ks.
  intros ks. revert a b. induction ks as [|k ks IH]; intros a b; simpl;
    [reflexivity|apply IH].
Qed.

Lemma for_upto_ext {St : Type} (n : Z) (body body' : Z → St → St) (s : St) :
  (forall k s, body k s = body' k s) ->
  for_upto n body s = for_upto n body' s.
Proof.
  intros Hext. unfold for_upto. generalize (seq 0 (Z.to_nat n)) as ks.
  intros ks. revert s. induction ks as [|k ks IH]; intros s; simpl;
    [reflexivity|]. rewrite Hext. apply IH.
Qed.

(** ** Scattering a grid into a buffer *)

Section Scatter.

(** [scatter] for an index function [f] that is injective on the grid and
    stays inside the buffer: every cell of the grid is found at its
    index. *)
Variables w2 h2 : Z.
Variable f : Z → Z → Z.
Variable v : Z → Z → byte.
Variable n : nat.

Hypothesis f_range :
  forall x y, 0 <= x < w2 -> 0 <= y < h2 -> 0 <= f x y < Z.of_nat n.
Hypothesis f_inj :
  forall x y x' y',
    0 <= x < w2 -> 0 <= y < h2 -> 0 <= x' < w2 -> 0 <= y' < h2 ->
    f x y = f x' y' -> x = x' /\ y = y'.

Lemma scatter_spec (l : list byte) :
  0 <= w2 -> 0 <= h2 -> length l = n ->
  length (scatter w2 h2 f v l) = n
  /\ forall x y, 0 <= x < w2 -> 0 <= y < h2 ->
       scatter w2 h2 f v l !! Z.to_nat (f x y) = Some (v x y).
Proof.
  intros Hw Hh Hl. unfold scatter.
  apply (for_upto_ind
           (fun y l => length l = n
              /\ forall x' y', 0 <= x' < w2 -> 0 <= y' < y ->
                   l !! Z.to_nat (f x' y') = Some (v x' y')));
    [assumption | split; [assumption | intros; lia] |].
  intros y l1 Hy [Hlen Hdone].
  set (inner := for_upto w2 _ l1).
  cut (length inner = n
       /\ forall x' y', 0 <= x' < w2 ->
            (0 <= y' < y \/ (y' = y /\ x' < w2)) ->
            inner !! Z.to_nat (f x' y') = Some (v x' y')).
  { intros [Hlen3 Hdone3]. split; [assumption|].
    intros x' y' Hx' Hy'. apply Hdone3; [assumption|].
    destruct (Z.eq_dec y' y) as [->|?];
      [right; split; [reflexivity|lia]|left; lia]. }
  subst inner.
  apply (for_upto_ind
           (fun x l => length l = n
              /\ forall x' y', 0 <= x' < w2 ->
                   (0 <= y' < y \/ (y' = y /\ x' < x)) ->
                   l !! Z.to_nat (f x' y') = Some (v x' y')));
    [assumption | |].
  - split; [assumption|]. intros x' y' Hx' [Hy'|[_ ?]]; [|lia].
    now apply Hdone.
  - intros x l2 Hx [Hlen2 Hdone2]. unfold set_index.
    split; [now rewrite length_insert|].
    intros x' y' Hx' Hcase.
    assert (Hy' : 0 <= y' < h2) by lia.
    pose proof (f_range x y Hx Hy). pose proof (f_range x' y' Hx' Hy').
    destruct (Z.eq_dec (f x' y') (f x y)) as [Heq|Hne].
    + destruct (f_inj x' y' x y Hx' Hy' Hx Hy Heq) as [-> ->].
      apply list_lookup_insert_eq. lia.
    + rewrite list_lookup_insert_ne by lia.
      apply Hdone2; [assumption|].
      destruct Hcase as [?|[-> Hlt]]; [now left|right].
      split; [reflexivity|].
      destruct (Z.eq_dec x' x) as [->|?]; [contradiction|lia].
Qed.

End Scatter.

Lemma for_upto_split {A B : Type} (n : Z) (body : Z → A * B → A * B)
    (F : Z → A → A) (G : Z → B → B) (a : A) (b : B) :
  (forall k a b, body k (a, b) = (F k a, G k b)) ->
  for_upto n body (a, b) = (for_upto n F a, for_upto n G b).
Proof.
  intros Hbody. unfold for_upto. generalize (seq 0 (Z.to_nat n)) as ks.
  intros ks. revert a b. induction ks as [|k ks IH]; intros a b; simpl;
    [reflexivity|]. rewrite Hbody. apply IH.
Qed.

(** ** The PNG branch *)

(** The grid indices of the three index maps of the branch. *)
Lemma row_major_inj (w2 h2 x y x' y' : Z) :
  0 <= x < w2 -> 0 <= y < h2 -> 0 <= x' < w2 -> 0 <= y' < h2 ->
  y * w2 + x = y' * w2 + x' -> x = x' /\ y = y'.
Proof.
  intros Hx Hy Hx' Hy' Heq.
  assert (y = y') by nia. subst y'. lia.
Qed.

Lemma row_major_range (w2 h2 x y : Z) :
  0 <= x < w2 -> 0 <= y < h2 -> 0 <= y * w2 + x < w2 * h2.
Proof. intros Hx Hy. nia. Qed.

(** The planes of a decoded PNG hold, at the row-major index of every pixel,
    its luminance and its alpha. *)
Lemma png_planes_spec (img : pngImage) :
  0 <= Dx img -> 0 <= Dy img ->
  let '(pix, alp) := png_planes img in
  length pix = Z.to_nat (Dx img * Dy img)
  /\ length alp = Z.to_nat (Dx img * Dy img)
  /\ forall x y, 0 <= x < Dx img -> 0 <= y < Dy img ->
       pix !! Z.to_nat (y * Dx img + x) = Some (luma (RGBA img x y)).1
       /\ alp !! Z.to_nat (y * Dx img + x) = Some (luma (RGBA img x y)).2.
Proof.
  intros Hw Hh. unfold png_planes.
  set (w2 := Dx img) in *. set (h2 := Dy img) in *.
  set (l0 := replicate (Z.to_nat (w2 * h2)) x00).
  set (idx := fun x y : Z => y * w2 + x).
  rewrite (for_upto_split h2 _
             (fun y => for_upto w2 (fun x l => set_index l (idx x y) (luma (RGBA img x y)).1))
             (fun y => for_upto w2 (fun x l => set_index l (idx x y) (luma (RGBA img x y)).2))).
  2:{ intros y a b. apply for_upto_split. intros x a' b'.
      now destruct (luma (RGBA img x y)). }
  assert (Hrange : forall x y, 0 <= x < w2 -> 0 <= y < h2 ->
                     0 <= idx x y < Z.of_nat (Z.to_nat (w2 * h2))).
  { intros x y Hx Hy. pose proof (row_major_range w2 h2 x y Hx Hy).
    unfold idx. lia. }
  assert (Hinj : forall x y x' y', 0 <= x < w2 -> 0 <= y < h2 ->
                   0 <= x' < w2 -> 0 <= y' < h2 ->
                   idx x y = idx x' y' -> x = x' /\ y = y').
  { intros x y x' y'. apply row_major_inj. }
  destruct (scatter_spec w2 h2 idx (fun x y => (luma (RGBA img x y)).1)
              (Z.to_nat (w2 * h2)) Hrange Hinj l0 Hw Hh)
    as [Hl1 Hp1]; [apply length_replicate|].
  destruct (scatter_spec w2 h2 idx (fun x y => (luma (RGBA img x y)).2)
              (Z.to_nat (w2 * h2)) Hrange Hinj l0 Hw Hh)
    as [Hl2 Hp2]; [apply length_replicate|].
  unfold scatter in *.
  split; [exact Hl1|]. split; [exact Hl2|].
  intros x y Hx Hy. split; [now apply Hp1 | now apply Hp2].
Qed.

(** The quarter turns.  [quarter_turn cw w2 h2 x y] is the index, in the
    turned raster of width [h2], of the pixel [(x, y)] of the source:
    clockwise it goes to column [h2 - 1 - y] of row [x], counter-clockwise to
    column [y] of row [w2 - 1 - x]. *)
Lemma quarter_turn_range (cw : bool) (w2 h2 x y : Z) :
  0 <= x < w2 -> 0 <= y < h2 -> 0 <= quarter_turn cw w2 h2 x y < h2 * w2.
Proof. intros Hx Hy. unfold quarter_turn. destruct cw; nia. Qed.

Lemma quarter_turn_inj (cw : bool) (w2 h2 x y x' y' : Z) :
  0 <= x < w2 -> 0 <= y < h2 -> 0 <= x' < w2 -> 0 <= y' < h2 ->
  quarter_turn cw w2 h2 x y = quarter_turn cw w2 h2 x' y' -> x = x' /\ y = y'.
Proof.
  intros Hx Hy Hx' Hy'. unfold quarter_turn. destruct cw; intros Heq.
  - assert (x = x') by nia. subst x'. lia.
  - assert (x = x') by nia. subst x'. lia.
Qed.

(** [png_rotate] with [rot] one of ["cw"] and ["ccw"]: the raster is turned,
    its dimensions are swapped, and every pixel of the source is found at its
    turned index in both planes. *)
Lemma png_rotate_turn (rot : string) (cw : bool) (w2 h2 : Z) (pix alp : list byte) :
  0 <= w2 -> 0 <= h2 ->
  rot = (if cw then "cw" else "ccw")%string ->
  exists rpix ralp,
    png_rotate rot w2 h2 pix alp = (rpix, ralp, h2, w2)
    /\ length rpix = Z.to_nat (h2 * w2)
    /\ length ralp = Z.to_nat (h2 * w2)
    /\ forall x y, 0 <= x < w2 -> 0 <= y < h2 ->
         rpix !! Z.to_nat (quarter_turn cw w2 h2 x y)
         = Some (at_index pix (y * w2 + x))
         /\ ralp !! Z.to_nat (quarter_turn cw w2 h2 x y)
            = Some (at_index alp (y * w2 + x)).
Proof.
  intros Hw Hh Hrot. unfold png_rotate.
  assert (Htest : String.eqb rot "cw" || String.eqb rot "ccw" = true)
    by (subst rot; now destruct cw).
  assert (Hcw : String.eqb rot "cw" = cw) by (subst rot; now destruct cw).
  rewrite Htest, Hcw.
  set (l0 := replicate (Z.to_nat (h2 * w2)) x00).
  rewrite (for_upto_split h2 _
             (fun y => for_upto w2 (fun x l =>
                set_index l (quarter_turn cw w2 h2 x y) (at_index pix (y * w2 + x))))
             (fun y => for_upto w2 (fun x l =>
                set_index l (quarter_turn cw w2 h2 x y) (at_index alp (y * w2 + x))))).
  2:{ intros y a b. apply for_upto_split. intros x a' b'.
      unfold quarter_turn. now destruct cw. }
  assert (Hrange : forall x y, 0 <= x < w2 -> 0 <= y < h2 ->
                     0 <= quarter_turn cw w2 h2 x y < Z.of_nat (Z.to_nat (h2 * w2))).
  { intros x y Hx Hy. pose proof (quarter_turn_range cw w2 h2 x y Hx Hy). lia. }
  destruct (scatter_spec w2 h2 (quarter_turn cw w2 h2)
              (fun x y => at_index pix (y * w2 + x))
              (Z.to_nat (h2 * w2)) Hrange (quarter_turn_inj cw w2 h2) l0 Hw Hh)
    as [Hl1 Hp1]; [apply length_replicate|].
  destruct (scatter_spec w2 h2 (quarter_turn cw w2 h2)
              (fun x y => at_index alp (y * w2 + x))
              (Z.to_nat (h2 * w2)) Hrange (quarter_turn_inj cw w2 h2) l0 Hw Hh)
    as [Hl2 Hp2]; [apply length_replicate|].
  unfold scatter in *.
  eexists _, _. split; [reflexivity|].
  split; [exact Hl1|]. split; [exact Hl2|].
  intros x y Hx Hy. split; [now apply Hp1 | now apply Hp2].
Qed.

Lemma png_rotate_none (rot : string) (w2 h2 : Z) (pix alp : list byte) :
  rot <> "cw"%string -> rot <> "ccw"%string ->
  png_rotate rot w2 h2 pix alp = (pix, alp, w2, h2).
Proof.
  intros H1 H2. unfold png_rotate.
  apply String.eqb_neq in H1, H2. now rewrite H1, H2.
Qed.

(** ** The layer loader *)

(** A raster the decoder returns has the size of its dimensions. *)
Lemma decode_ok_len (getenv : string → string) (data : list byte) (w h : Z)
    (allBlank horiz : bool) (pix : list byte) (w2 h2 : Z) :
  decodeRattaRLERef getenv data w h allBlank horiz = Some (RleOk pix w2 h2) ->
  lenZ pix = int_wrap (w2 * h2).
Proof.
  unfold decodeRattaRLERef.
  destruct (if horiz then (h, w) else (w, h)) as [w' h'].
  destruct (int_wrap (w' * h') <? 0); [discriminate|].
  destruct (rle_loop _ _ _ _ _ _) as [st|]; [|discriminate].
  cbn -[rle_tail]. destruct (rle_tail _ _ _) as [o|]; [|discriminate].
  cbn. destruct (Z.eqb_spec (lenZ o) (int_wrap (w' * h'))) as [Heq|Hne];
    cbn; intros Hr; inversion Hr; subst. exact Heq.
Qed.

Section LoaderFacts.

Variable getenv : string → string.
Variable pngDecode : list byte → option pngImage.
Variable src : byteSource.
Variable nb : Notebook.

(** The size check behind a successful decode always passes. *)
Lemma sizecheck_ok (data : list byte) (w h : Z) (allBlank horiz hz : bool)
    (pix : list byte) (w2 h2 : Z) :
  decodeRattaRLERef getenv data w h allBlank horiz = Some (RleOk pix w2 h2) ->
  sizecheck getenv nb data hz pix w2 h2
  = ok (mkGrayImage pix (Some (alpha_of pix)) w2 h2).
Proof.
  intros Hdec. apply decode_ok_len in Hdec. unfold sizecheck.
  rewrite Hdec, Z.eqb_refl. reflexivity.
Qed.

(** The RLE branch of the loader is the specified one with the all-blank
    hint unset. *)
Lemma rleBranch_spec (data : list byte) (horiz : bool) :
  rleBranch getenv nb "RATTA_RLE" data horiz
  = loader_rle_spec getenv false nb data horiz.
Proof.
  unfold rleBranch, loader_rle_spec. cbn [String.eqb Ascii.eqb Bool.eqb].
  change (String.eqb "RATTA_RLE" "RATTA_RLE") with true. cbv iota.
  destruct (decodeRattaRLERef getenv data (nbW nb) (nbH nb) false horiz)
    as [[pix w2 h2|p e]|] eqn:Hdec; cbn [mbind option_bind]; [| |reflexivity].
  - now apply (sizecheck_ok data (nbW nb) (nbH nb) false horiz).
  - destruct (nbW nb =? pageWidth); destruct (nbH nb =? pageHeight);
      cbn [negb orb andb]; try reflexivity;
      (destruct (decodeRattaRLERef getenv data pageWidth pageHeight false horiz)
         as [[fpix fw fh|p' e']|] eqn:Hdec'; cbn [mbind option_bind];
       [now apply (sizecheck_ok data pageWidth pageHeight false horiz)
       | reflexivity | reflexivity]).
Qed.

Lemma rleBranch_unsupported (proto : string) (data : list byte) (horiz : bool) :
  proto <> "RATTA_RLE"%string ->
  rleBranch getenv nb proto data horiz = fail (ErrUnsupportedProtocol proto).
Proof.
  intros Hp. unfold rleBranch. apply String.eqb_neq in Hp. now rewrite Hp.
Qed.

Variable pm : gmap string string.
Variables key proto bmpStr : string.
Variable blockLen : Z.
Hypothesis header : layer_header src pm key proto bmpStr blockLen.

(** A background block shorter than 16 bytes is replaced by the neutral
    background; its payload is not read. *)
Lemma decodeLayerFromPage_small_bg :
  blockLen < 16 -> key = "BGLAYER"%string ->
  decodeLayerFromPage getenv pngDecode src nb pm key = ok neutralBackground.
Proof.
  intros Hlen Hkey.
  destruct header as (addr & meta & Hpm & Hmeta & Hbmp & _ & Hblock).
  unfold decodeLayerFromPage. rewrite Hpm, Hmeta, Hbmp, Hblock.
  destruct (Z.ltb_spec blockLen 16); [|lia].
  subst key. reflexivity.
Qed.

(** Any other block is read and handed to one of the two branches. *)
Lemma decodeLayerFromPage_dispatch (data : list byte) :
  ~ (blockLen < 16 /\ key = "BGLAYER"%string) ->
  src_block src bmpStr blockLen = Some data ->
  decodeLayerFromPage getenv pngDecode src nb pm key
  = if (lenZ data >=? 8) && bool_decide (take 8 data = pngSig)
    then pngBranch getenv pngDecode data
           (String.eqb (param pm "ORIENTATION") "1090")
    else rleBranch getenv nb proto data
           (String.eqb (param pm "ORIENTATION") "1090").
Proof.
  intros Hnot Hdata.
  destruct header as (addr & meta & Hpm & Hmeta & Hbmp & Hproto & Hblock).
  unfold decodeLayerFromPage. rewrite Hpm, Hmeta, Hbmp, Hblock, Hdata, Hproto.
  destruct ((blockLen <? 16) && String.eqb key "BGLAYER") eqn:Hsmall;
    [|reflexivity].
  apply andb_true_iff in Hsmall as [Hl Hk].
  apply Z.ltb_lt in Hl. apply String.eqb_eq in Hk. tauto.
Qed.

Lemma decodeLayerFromPage_png (data : list byte) :
  ~ (blockLen < 16 /\ key = "BGLAYER"%string) ->
  src_block src bmpStr blockLen = Some data ->
  8 <= lenZ data -> take 8 data = pngSig ->
  decodeLayerFromPage getenv pngDecode src nb pm key
  = pngBranch getenv pngDecode data
      (String.eqb (param pm "ORIENTATION") "1090").
Proof.
  intros Hnot Hdata Hlen Hsig.
  rewrite (decodeLayerFromPage_dispatch data Hnot Hdata).
  destruct (Z.geb_spec (lenZ data) 8); [|lia].
  now rewrite bool_decide_eq_true_2 by assumption.
Qed.

Lemma decodeLayerFromPage_rle (data : list byte) :
  ~ (blockLen < 16 /\ key = "BGLAYER"%string) ->
  src_block src bmpStr blockLen = Some data ->
  ~ (8 <= lenZ data /\ take 8 data = pngSig) ->
  decodeLayerFromPage getenv pngDecode src nb pm key
  = rleBranch getenv nb proto data
      (String.eqb (param pm "ORIENTATION") "1090").
Proof.
  intros Hnot Hdata Hnopng.
  rewrite (decodeLayerFromPage_dispatch data Hnot Hdata).
  destruct (Z.geb_spec (lenZ data) 8) as [Hge|Hlt]; [|reflexivity].
  rewrite bool_decide_eq_false_2; [reflexivity|]. intros Hsig. apply Hnopng.
  split; [lia|assumption].
Qed.

End LoaderFacts.

(** The background decoder is the specified one, with the all-blank hint
    set exactly for a white-styled page and a block of 0x140E bytes. *)
Lemma DecodeBackground_spec (getenv : string → string) (src : byteSource)
    (nb : Notebook) (pm : gmap string string) (bmpStr : string)
    (blockLen : Z) (data : list byte) :
  layer_header src pm "BGLAYER" "RATTA_RLE" bmpStr blockLen ->
  src_block src bmpStr blockLen = Some data ->
  DecodeBackground getenv src nb pm
  = background_rle_spec getenv
      (bool_decide (pm !! "PAGESTYLE"%string = Some "style_white"%string
                    /\ blockLen = 0x140e))
      nb data (String.eqb (param pm "ORIENTATION") "1090").
Proof.
  intros (addr & meta & Hpm & Hmeta & Hbmp & Hproto & Hblock) Hdata.
  unfold DecodeBackground, background_rle_spec.
  rewrite Hpm, Hmeta, Hproto.
  assert (Hb : param meta "LAYERBITMAP" = bmpStr)
    by (unfold param; now rewrite Hbmp).
  rewrite Hb, Hblock, Hdata.
  change (String.eqb "RATTA_RLE" "RATTA_RLE") with true. cbn [negb]. cbv iota.
  set (hint := match pm !! "PAGESTYLE"%string with
               | Some style => String.eqb style "style_white"
                               && (blockLen =? specialWhiteStyleBlockSize)
               | None => false
               end).
  assert (Hhint : hint = bool_decide (pm !! "PAGESTYLE"%string
                                      = Some "style_white"%string
                                      /\ blockLen = 0x140e)).
  { unfold hint, specialWhiteStyleBlockSize.
    destruct (pm !! "PAGESTYLE"%string) as [style|].
    - destruct (String.eqb_spec style "style_white") as [Hs|Hs];
        destruct (Z.eqb_spec blockLen 5134) as [Hl|Hl]; cbn [andb];
        symmetry.
      + apply bool_decide_eq_true_2. split; [now rewrite Hs|exact Hl].
      + apply bool_decide_eq_false_2. intros [_ H2]. contradiction.
      + apply bool_decide_eq_false_2. intros [H1 _]. congruence.
      + apply bool_decide_eq_false_2. intros [H1 _]. congruence.
    - symmetry. apply bool_decide_eq_false_2. intros [H1 _]. discriminate. }
  rewrite Hhint.
  destruct (decodeRattaRLERef getenv data (nbW nb) (nbH nb) _ _)
    as [[pix w2 h2|p e]|] eqn:Hdec;
    cbn [mbind option_bind]; [|reflexivity|reflexivity].
  apply decode_ok_len in Hdec. now rewrite Hdec, Z.eqb_refl.
Qed.

(** The length of a sentinel run with the hint set, and without it. *)
Lemma specialLen_hint (getenv : string → string) (w : Z) (color : byte) :
  specialLen getenv w true color = 0x400.
Proof. unfold specialLen. reflexivity. Qed.

Lemma specialLen_no_hint (getenv : string → string) (w : Z) (color : byte) :
  getenv "RLE_FIX_BG"%string <> "1"%string \/ color <> colBG ->
  specialLen getenv w false color = 0x4000.
Proof.
  intros H. unfold specialLen, longLen.
  destruct H as [H|H].
  - apply String.eqb_neq in H. now rewrite H.
  - apply byte_eqb_neq in H. rewrite H. now rewrite andb_false_r.
Qed.

(** C3, as amended (all-blank hint).  The layer loader always runs the RLE
    codec with the all-blank hint unset, whatever the page style and the
    block length.  The hint is set by the background decoder
    [DecodeBackground] alone, for exactly the pages whose PAGESTYLE is
    "style_white" and whose background block has length 0x140E; with it every
    sentinel pair (c, 0xFF) stands for a run of 0x400, without it for a run
    of 0x4000 (the experiment RLE_FIX_BG aside). *)
Theorem C3_all_blank_hint (getenv : string → string)
    (pngDecode : list byte → option pngImage) (src : byteSource)
    (nb : Notebook) (pm : gmap string string) (key bmpStr : string)
    (blockLen : Z) (data : list byte) :
  layer_header src pm key "RATTA_RLE" bmpStr blockLen ->
  src_block src bmpStr blockLen = Some data ->
  let horiz := String.eqb (param pm "ORIENTATION") "1090" in
  let hint := bool_decide (pm !! "PAGESTYLE"%string = Some "style_white"%string
                           /\ blockLen = 0x140e) in
  (~ (blockLen < 16 /\ key = "BGLAYER"%string) ->
   ~ (8 <= lenZ data /\ take 8 data = pngSig) ->
   decodeLayerFromPage getenv pngDecode src nb pm key
   = loader_rle_spec getenv false nb data horiz)
  /\ (key = "BGLAYER"%string ->
      DecodeBackground getenv src nb pm
      = background_rle_spec getenv hint nb data horiz)
  /\ (forall w c, specialLen getenv w true c = 0x400)
  /\ (forall w c,
        getenv "RLE_FIX_BG"%string <> "1"%string \/ c <> colBG ->
        specialLen getenv w false c = 0x4000).
Proof.
  intros Hhead Hdata horiz hint. subst horiz hint.
  split; [|split; [|split]].
  - intros Hnot Hnopng.
    rewrite (decodeLayerFromPage_rle getenv pngDecode src nb pm key
               "RATTA_RLE" bmpStr blockLen Hhead data Hnot Hdata Hnopng).
    apply rleBranch_spec.
  - intros ->. now apply (DecodeBackground_spec getenv src nb pm bmpStr blockLen data).
  - intros w c. apply specialLen_hint.
  - intros w c. apply specialLen_no_hint.
Qed.

Lemma one_layer_header (blockLen : Z) (data : list byte)
    (pm : gmap string string) (key : string) :
  pm !! key = Some "100"%string ->
  layer_header (one_layer_source blockLen data) pm key "RATTA_RLE" "200" blockLen.
Proof.
  intros Hpm. unfold layer_header, one_layer_source. cbn.
  eexists _, _. repeat split; try eassumption; reflexivity.
Qed.

Lemma one_layer_block (blockLen : Z) (data : list byte) :
  src_block (one_layer_source blockLen data) "200" blockLen = Some data.
Proof. unfold one_layer_source. cbn. now rewrite Z.eqb_refl. Qed.

(** C3 as amended, on the white page with the payload of 0x140E bytes: the
    loader decodes its background with the hint unset, the background decoder
    with the hint set. *)
Lemma C3_all_blank_hint_witness :
  decodeLayerFromPage no_env png_decode_examples
    (one_layer_source 0x140e white_payload) (default_notebook [white_page])
    white_page "BGLAYER"
  = loader_rle_spec no_env false (default_notebook [white_page])
      white_payload false
  /\ DecodeBackground no_env (one_layer_source 0x140e white_payload)
       (default_notebook [white_page]) white_page
     = background_rle_spec no_env true (default_notebook [white_page])
         white_payload false.
Proof.
  destruct (C3_all_blank_hint no_env png_decode_examples
              (one_layer_source 0x140e white_payload)
              (default_notebook [white_page]) white_page "BGLAYER" "200"
              0x140e white_payload
              (one_layer_header 0x140e white_payload white_page "BGLAYER" eq_refl)
              (one_layer_block 0x140e white_payload))
    as (Hloader & Hbg & _).
  split.
  - apply Hloader.
    + intros [Hlt _]. lia.
    + intros [_ Hsig]. vm_compute in Hsig. discriminate Hsig.
  - apply Hbg. reflexivity.
Defined.

(** A payload that starts with [n] one-pixel runs of the colour [c]: when the
    raster has room for them, the loop appends [n] pixels of its gray value
    and goes on with the rest of the payload. *)
Lemma rle_loop_unit_runs (getenv : string → string) (expected w : Z)
    (allBlank : bool) (c : byte) (rest : list byte) (hc hl : byte) (n : nat) :
  0 < w ->
  forall o : list byte,
    lenZ o + Z.of_nat n <= expected ->
    rle_loop getenv expected w allBlank
      (concat (replicate n [c; x00]) ++ rest) (RleState o false hc hl)
    = rle_loop getenv expected w allBlank rest
        (RleState (o ++ replicate n (gray_of c)) false hc hl).
Proof.
  intros Hw. induction n as [|n IH]; intros o Hroom.
  - cbn [replicate concat app]. now rewrite app_nil_r.
  - cbn [replicate concat app rle_loop out].
    destruct (Z.ltb_spec (lenZ o) expected) as [_|?]; [|lia].
    rewrite rle_pair_no_holder.
    rewrite rle_fresh_normal by (try assumption; vm_compute; reflexivity).
    cbn [mbind option_bind out haveHolder holdColor holdLen].
    change (byteZ x00 + 1) with 1.
    replace (emitted 1 (expected - lenZ o)) with 1%nat by (unfold emitted; lia).
    rewrite IH by (rewrite lenZ_app, lenZ_replicate; lia).
    now rewrite <- app_assoc.
Qed.

(** The payload [white_payload] at the default dimensions: its 2566 unit runs
    and its sentinel run fall short of the raster, by a count that tells the
    length of the sentinel run. *)
Lemma decode_white_payload (hint : bool) :
  decodeRattaRLERef no_env white_payload pageWidth pageHeight hint false
  = Some (RleMismatch (2566 + (if hint then 0x400 else 0x4000)) 2628288).
Proof.
  unfold decodeRattaRLERef, white_payload.
  change (int_wrap (pageWidth * pageHeight)) with 2628288.
  change (2628288 <? 0) with false. cbv iota.
  rewrite (rle_loop_unit_runs no_env 2628288 pageWidth hint x61 [x62; xff]
             x00 x00 2566 ltac:(reflexivity) [])
    by (vm_compute; discriminate).
  cbn [rle_loop out app].
  rewrite lenZ_replicate.
  change (Z.of_nat 2566 <? 2628288) with true. cbv iota.
  rewrite rle_pair_no_holder.
  rewrite rle_fresh_sentinel by reflexivity.
  cbn [mbind option_bind out haveHolder holdColor holdLen].
  unfold rle_tail. cbn [haveHolder out andb mbind option_bind].
  rewrite !lenZ_app, !lenZ_replicate.
  assert (Hlen : Z.of_nat (emitted (specialLen no_env pageWidth hint x62)
                             (2628288 - Z.of_nat 2566))
                 = if hint then 0x400 else 0x4000).
  { rewrite emitted_fits; destruct hint; vm_compute; try reflexivity;
      split; discriminate. }
  rewrite Hlen. change (Z.of_nat 2566) with 2566.
  now destruct hint.
Qed.

(** C3 as stated fails.  On the white page, whose background block has length
    0x140E, the loader decodes the sentinel pair of the payload as a run of
    0x4000 pixels (2566 + 0x4000 = 18950 pixels produced), where the codec
    run with the hint set decodes it as a run of 0x400 (2566 + 0x400 = 3590
    pixels produced). *)
Lemma C3_counterexample :
  white_page !! "PAGESTYLE"%string = Some "style_white"%string
  /\ src_blockLen (one_layer_source 0x140e white_payload) "200" = Some 0x140e
  /\ lenZ white_payload = 0x140e
  /\ decodeLayerFromPage no_env png_decode_examples
       (one_layer_source 0x140e white_payload) (default_notebook [white_page])
       white_page "BGLAYER"
     = fail (ErrRattaRef 18950 2628288)
  /\ loader_rle_spec no_env true (default_notebook [white_page])
       white_payload false
     = fail (ErrRattaRef 3590 2628288).
Proof.
  split; [reflexivity|]. split; [reflexivity|].
  split; [vm_compute; reflexivity|]. split.
  - rewrite (decodeLayerFromPage_rle no_env png_decode_examples
               (one_layer_source 0x140e white_payload)
               (default_notebook [white_page]) white_page "BGLAYER"
               "RATTA_RLE" "200" 0x140e
               (one_layer_header 0x140e white_payload white_page "BGLAYER" eq_refl)
               white_payload).
    + rewrite rleBranch_spec. unfold loader_rle_spec.
      change (param white_page "ORIENTATION" =? "1090")%string with false.
      cbn [nbW nbH default_notebook].
      rewrite decode_white_payload. reflexivity.
    + intros [Hlt _]. lia.
    + apply one_layer_block.
    + intros [_ Hsig]. vm_compute in Hsig. discriminate Hsig.
  - unfold loader_rle_spec. cbn [nbW nbH default_notebook].
    rewrite decode_white_payload. reflexivity.
Qed.

(** ** Decoder selection *)

Lemma neutralBackground_planes :
  lenZ (pix neutralBackground) = pageWidth * pageHeight
  /\ (forall i x, pix neutralBackground !! i = Some x -> x = xfe)
  /\ (exists a, alpha neutralBackground = Some a
        /\ lenZ a = pageWidth * pageHeight
        /\ forall i x, a !! i = Some x -> x = xff)
  /\ imgW neutralBackground = pageWidth
  /\ imgH neutralBackground = pageHeight.
Proof.
  unfold neutralBackground. cbn [pix alpha imgW imgH].
  split; [rewrite lenZ_replicate; apply Z2Nat.id; discriminate|].
  split; [intros i x Hx; apply lookup_replicate_1 in Hx; tauto|].
  split; [|split; reflexivity].
  eexists. split; [reflexivity|].
  split; [rewrite lenZ_replicate; apply Z2Nat.id; discriminate|].
  intros i x Hx. apply lookup_replicate_1 in Hx. tauto.
Qed.

(** C9, as amended (decoder selection order).  The first test of the loader
    is on the block length and the layer key: every background block shorter
    than 16 bytes is replaced by the neutral background (1404 x 1872 pixels
    of gray 0xFE with alpha 255) before its payload is read, whether the
    payload starts with the PNG magic or not.  Every other block of at least
    8 bytes that starts with the PNG magic takes the PNG branch, whatever
    protocol is declared. *)
Theorem C9_decoder_selection (getenv : string → string)
    (pngDecode : list byte → option pngImage) (src : byteSource)
    (nb : Notebook) (pm : gmap string string) (key proto bmpStr : string)
    (blockLen : Z) :
  layer_header src pm key proto bmpStr blockLen ->
  (blockLen < 16 -> key = "BGLAYER"%string ->
   decodeLayerFromPage getenv pngDecode src nb pm key = ok neutralBackground)
  /\ (forall data,
        ~ (blockLen < 16 /\ key = "BGLAYER"%string) ->
        src_block src bmpStr blockLen = Some data ->
        8 <= lenZ data -> take 8 data = pngSig ->
        decodeLayerFromPage getenv pngDecode src nb pm key
        = pngBranch getenv pngDecode data
            (String.eqb (param pm "ORIENTATION") "1090"))
  /\ (lenZ (pix neutralBackground) = 1404 * 1872
      /\ (forall i x, pix neutralBackground !! i = Some x -> x = xfe)
      /\ (exists a, alpha neutralBackground = Some a
            /\ lenZ a = 1404 * 1872
            /\ forall i x, a !! i = Some x -> x = xff)).
Proof.
  intros Hhead. split; [|split].
  - now apply (decodeLayerFromPage_small_bg getenv pngDecode src nb pm key
                 proto bmpStr blockLen).
  - intros data. now apply (decodeLayerFromPage_png getenv pngDecode src nb pm
                              key proto bmpStr blockLen).
  - destruct neutralBackground_planes as (H1 & H2 & H3 & _). auto.
Qed.

(** C9 as amended, on a background layer of 12 bytes and on a main layer that
    holds the PNG file [tiny_png] under the declared protocol RATTA_RLE. *)
Lemma C9_decoder_selection_witness :
  decodeLayerFromPage no_env png_decode_examples
    (one_layer_source 12 (replicate 12 x00)) (default_notebook [white_page])
    white_page "BGLAYER"
  = ok neutralBackground
  /\ decodeLayerFromPage no_env png_decode_examples
       (one_layer_source 68 tiny_png) (default_notebook [horizontal_page])
       horizontal_page "MAINLAYER"
     = pngBranch no_env png_decode_examples tiny_png true.
Proof.
  split.
  - destruct (C9_decoder_selection no_env png_decode_examples
                (one_layer_source 12 (replicate 12 x00))
                (default_notebook [white_page]) white_page "BGLAYER"
                "RATTA_RLE" "200" 12
                (one_layer_header 12 (replicate 12 x00) white_page "BGLAYER" eq_refl))
      as (Hsmall & _).
    apply Hsmall; [lia|reflexivity].
  - destruct (C9_decoder_selection no_env png_decode_examples
                (one_layer_source 68 tiny_png)
                (default_notebook [horizontal_page]) horizontal_page "MAINLAYER"
                "RATTA_RLE" "200" 68
                (one_layer_header 68 tiny_png horizontal_page "MAINLAYER" eq_refl))
      as (_ & Hpng & _).
    apply (Hpng tiny_png).
    + intros [Hlt _]. lia.
    + apply one_layer_block.
    + vm_compute. discriminate.
    + reflexivity.
Defined.

(** C9 as stated fails.  A background block of 8 bytes that holds the PNG
    magic has L >= 8 and starts with the magic, and the loader returns the
    neutral background for it; the PNG branch, not taken, would have failed
    on the 8 bytes, which are no PNG file. *)
Lemma C9_counterexample :
  8 <= lenZ pngSig
  /\ take 8 pngSig = pngSig
  /\ decodeLayerFromPage no_env png_decode_examples
       (one_layer_source 8 pngSig) (default_notebook [white_page])
       white_page "BGLAYER"
     = ok neutralBackground
  /\ pngBranch no_env png_decode_examples pngSig false = fail ErrPngDecode
  /\ ok neutralBackground <> fail ErrPngDecode.
Proof.
  split; [vm_compute; discriminate|]. split; [reflexivity|].
  split; [|split; [reflexivity|discriminate]].
  apply (decodeLayerFromPage_small_bg no_env png_decode_examples
           (one_layer_source 8 pngSig) (default_notebook [white_page])
           white_page "BGLAYER" "RATTA_RLE" "200" 8
           (one_layer_header 8 pngSig white_page "BGLAYER" eq_refl));
    [lia|reflexivity].
Qed.

(** ** PNG layers *)

(** The PNG branch on a payload that decodes: the planes are turned clockwise
    when SUPERNOTE_PNG_ROTATE is "cw", or is "auto" on a horizontally stored
    page; counter-clockwise when it is "ccw"; and left as decoded otherwise. *)
Lemma pngBranch_spec (getenv : string → string)
    (pngDecode : list byte → option pngImage) (data : list byte)
    (horiz : bool) (img : pngImage) (pix alp : list byte) :
  pngDecode data = Some img ->
  0 <= Dx img -> 0 <= Dy img ->
  png_planes img = (pix, alp) ->
  let rot := getenv "SUPERNOTE_PNG_ROTATE"%string in
  (rot = "cw"%string \/ (rot = "auto"%string /\ horiz = true) ->
   exists g, pngBranch getenv pngDecode data horiz = ok g
             /\ is_quarter_turn true (Dx img) (Dy img) pix alp g)
  /\ (rot = "ccw"%string ->
      exists g, pngBranch getenv pngDecode data horiz = ok g
                /\ is_quarter_turn false (Dx img) (Dy img) pix alp g)
  /\ (rot <> "cw"%string -> rot <> "ccw"%string ->
      ~ (rot = "auto"%string /\ horiz = true) ->
      pngBranch getenv pngDecode data horiz
      = ok (mkGrayImage pix (Some alp) (Dx img) (Dy img))).
Proof.
  intros Hdec Hw Hh Hplanes rot.
  assert (Hturn : forall (cw : bool) (rot' : string),
             rot' = (if cw then "cw"%string else "ccw"%string) ->
             (if String.eqb rot "auto" && horiz then "cw"%string else rot) = rot' ->
             exists g, pngBranch getenv pngDecode data horiz = ok g
                       /\ is_quarter_turn cw (Dx img) (Dy img) pix alp g).
  { intros cw rot' Hrot' Heff.
    destruct (png_rotate_turn rot' cw (Dx img) (Dy img) pix alp Hw Hh Hrot')
      as (rpix & ralp & Hrun & Hturned).
    exists (mkGrayImage rpix (Some ralp) (Dy img) (Dx img)). split.
    - unfold pngBranch. rewrite Hdec, Hplanes. fold rot. rewrite Heff, Hrun.
      reflexivity.
    - exists rpix, ralp. split; [reflexivity|exact Hturned]. }
  split; [|split].
  - intros [Hcw|[Hauto Hhoriz]]; apply (Hturn true "cw"%string eq_refl).
    + now rewrite Hcw.
    + now rewrite Hauto, Hhoriz.
  - intros Hccw. apply (Hturn false "ccw"%string eq_refl). now rewrite Hccw.
  - intros Hncw Hnccw Hnauto.
    unfold pngBranch. rewrite Hdec, Hplanes. fold rot.
    assert (Heff : (if String.eqb rot "auto" && horiz then "cw"%string else rot)
                   = rot).
    { destruct (String.eqb_spec rot "auto") as [Ha|Ha]; [|reflexivity].
      destruct horiz; [|reflexivity]. exfalso. now apply Hnauto. }
    rewrite Heff, png_rotate_none by assumption. reflexivity.
Qed.

(** C5, as amended (PNG rotation).  For a layer whose payload starts with the
    PNG magic and decodes, the loader turns both planes a quarter turn
    clockwise if and only if the environment variable SUPERNOTE_PNG_ROTATE is
    "cw", or is "auto" and the page's ORIENTATION equals "1090"; it turns
    them counter-clockwise when the variable is "ccw"; in every other case,
    the unset variable included, the raster is returned as decoded, whatever
    the ORIENTATION. *)
Theorem C5_png_rotation (getenv : string → string)
    (pngDecode : list byte → option pngImage) (src : byteSource)
    (nb : Notebook) (pm : gmap string string) (key proto bmpStr : string)
    (blockLen : Z) (data : list byte) (img : pngImage) (pix alp : list byte) :
  layer_header src pm key proto bmpStr blockLen ->
  ~ (blockLen < 16 /\ key = "BGLAYER"%string) ->
  src_block src bmpStr blockLen = Some data ->
  8 <= lenZ data -> take 8 data = pngSig ->
  pngDecode data = Some img ->
  0 <= Dx img -> 0 <= Dy img ->
  png_planes img = (pix, alp) ->
  let rot := getenv "SUPERNOTE_PNG_ROTATE"%string in
  let layer := decodeLayerFromPage getenv pngDecode src nb pm key in
  (rot = "cw"%string
   \/ (rot = "auto"%string /\ param pm "ORIENTATION" = "1090"%string) ->
   exists g, layer = ok g /\ is_quarter_turn true (Dx img) (Dy img) pix alp g)
  /\ (rot = "ccw"%string ->
      exists g, layer = ok g /\ is_quarter_turn false (Dx img) (Dy img) pix alp g)
  /\ (rot <> "cw"%string -> rot <> "ccw"%string ->
      ~ (rot = "auto"%string /\ param pm "ORIENTATION" = "1090"%string) ->
      layer = ok (mkGrayImage pix (Some alp) (Dx img) (Dy img))).
Proof.
  intros Hhead Hnot Hdata Hlen Hsig Hdec Hw Hh Hplanes rot layer.
  subst layer.
  rewrite (decodeLayerFromPage_png getenv pngDecode src nb pm key proto bmpStr
             blockLen Hhead data Hnot Hdata Hlen Hsig).
  destruct (pngBranch_spec getenv pngDecode data
              (String.eqb (param pm "ORIENTATION") "1090") img pix alp
              Hdec Hw Hh Hplanes) as (Hcw & Hccw & Hnone).
  fold rot in Hcw, Hccw, Hnone.
  split; [|split].
  - intros [H|[H1 H2]]; apply Hcw; [now left|right].
    split; [assumption|]. now apply String.eqb_eq.
  - exact Hccw.
  - intros H1 H2 H3. apply Hnone; try assumption.
    intros [Ha Hb]. apply H3. split; [assumption|]. now apply String.eqb_eq.
Qed.

(** The planes of [tiny_png_image]. *)
Lemma tiny_png_planes :
  png_planes tiny_png_image = ([x00; xff], [xff; xff]).
Proof. vm_compute. reflexivity. Qed.

(** An environment that sets SUPERNOTE_PNG_ROTATE to "auto". *)
Lemma C5_png_rotation_witness :
  exists g,
    decodeLayerFromPage
      (fun v => if String.eqb v "SUPERNOTE_PNG_ROTATE" then "auto" else EmptyString)
      png_decode_examples (one_layer_source 68 tiny_png)
      (default_notebook [horizontal_page]) horizontal_page "MAINLAYER"
    = ok g
    /\ is_quarter_turn true 2 1 [x00; xff] [xff; xff] g.
Proof.
  destruct (C5_png_rotation
              (fun v => if String.eqb v "SUPERNOTE_PNG_ROTATE" then "auto" else EmptyString)
              png_decode_examples (one_layer_source 68 tiny_png)
              (default_notebook [horizontal_page]) horizontal_page "MAINLAYER"
              "RATTA_RLE" "200" 68 tiny_png tiny_png_image [x00; xff] [xff; xff]
              (one_layer_header 68 tiny_png horizontal_page "MAINLAYER" eq_refl))
    as (Hcw & _).
  - intros [Hlt _]. lia.
  - apply one_layer_block.
  - vm_compute. discriminate.
  - reflexivity.
  - reflexivity.
  - simpl. lia.
  - simpl. lia.
  - apply tiny_png_planes.
  - apply Hcw. right. split; reflexivity.
Defined.

(** C5 as stated fails.  With SUPERNOTE_PNG_ROTATE unset, the PNG main layer
    of a page whose ORIENTATION is "1090" comes back as decoded, 2 wide and
    1 high, and not turned. *)
Lemma C5_counterexample :
  param horizontal_page "ORIENTATION" = "1090"%string
  /\ take 8 tiny_png = pngSig
  /\ decodeLayerFromPage no_env png_decode_examples
       (one_layer_source 68 tiny_png) (default_notebook [horizontal_page])
       horizontal_page "MAINLAYER"
     = ok (mkGrayImage [x00; xff] (Some [xff; xff]) 2 1)
  /\ ~ is_quarter_turn true 2 1 [x00; xff] [xff; xff]
         (mkGrayImage [x00; xff] (Some [xff; xff]) 2 1).
Proof.
  split; [reflexivity|]. split; [reflexivity|]. split.
  - vm_compute. reflexivity.
  - intros (rpix & ralp & Heq & _). discriminate Heq.
Qed.

(** The same layer with the variable set to "auto": the turned raster is 1
    wide and 2 high. *)
Example png_auto_turns :
  decodeLayerFromPage
    (fun v => if String.eqb v "SUPERNOTE_PNG_ROTATE" then "auto" else EmptyString)
    png_decode_examples (one_layer_source 68 tiny_png)
    (default_notebook [horizontal_page]) horizontal_page "MAINLAYER"
  = ok (mkGrayImage [x00; xff] (Some [xff; xff]) 1 2).
Proof. vm_compute. reflexivity. Qed.

(* ================================================================== *)
(** * Part III: further properties of the code *)
(* ================================================================== *)

(** ** writeRun and the codec *)

(** X1 (writeRun).  With a positive row width, [writeRun] appends the run
    painted with the palette value of its colour code and cut to the room left
    in the buffer: the row-by-row chunks of its loop add up to
    min(length, expected - len(out)) bytes, nothing for a run that is not
    positive or a buffer that is full.  A call that does nothing needs no
    row width; with a row width of 0 a call that has something to write
    panics on the division [len % w]. *)
Theorem X1_writeRun_appends (o : list byte) (expected w : Z) (code : byte)
    (length : Z) :
  (0 < w ->
   writeRun o expected w code length
   = Some (o ++ replicate (Z.to_nat (Z.min length (expected - lenZ o)))
                  (gray_of code)))
  /\ (length <= 0 \/ expected <= lenZ o ->
      writeRun o expected w code length = Some o)
  /\ (w = 0 -> 0 < length -> lenZ o < expected ->
      writeRun o expected w code length = None).
Proof.
  split; [|split].
  - intros Hw. now apply writeRun_spec.
  - intros Hnone. unfold writeRun.
    destruct (Z.leb_spec length 0) as [_|Hpos]; [reflexivity|].
    destruct Hnone as [?|Hfull]; [lia|].
    destruct (Z.to_nat length); simpl;
      destruct (0 <? length); simpl; try reflexivity;
      destruct (Z.ltb_spec (lenZ o) expected); try reflexivity; lia.
  - intros -> Hlen Hroom. unfold writeRun.
    destruct (Z.leb_spec length 0) as [?|_]; [lia|].
    destruct (Z.to_nat length) as [|fuel] eqn:Hfuel; [lia|]. simpl.
    destruct (Z.ltb_spec 0 length); [|lia].
    destruct (Z.ltb_spec (lenZ o) expected); [|lia]. simpl.
    destruct (Z.leb_spec (expected - lenZ o) 0); [lia|reflexivity].
Qed.

(** X1 on a run of 7 pixels that crosses two row ends of a raster 3 wide. *)
Lemma X1_writeRun_appends_witness :
  writeRun [xfe] 12 3 x63 7 = Some ([xfe] ++ replicate 7 x9d).
Proof.
  destruct (X1_writeRun_appends [xfe] 12 3 x63 7) as (Hrun & _).
  rewrite Hrun by lia. reflexivity.
Defined.

(** Every value [writeRun] paints is a gray of the palette. *)
Lemma gray_of_palette (code : byte) : gray_of code ∈ palette_grays.
Proof.
  apply list_elem_of_In. destruct code; vm_compute; auto 10.
Qed.

(** Whatever [writeRun] returns extends the buffer by copies of one palette
    gray; no hypothesis on the row width is needed. *)
Lemma writeRun_loop_palette (fuel : nat) (expected w : Z) (g : byte) :
  g ∈ palette_grays ->
  forall (o : list byte) (length : Z) (o' : list byte),
    writeRun_loop fuel expected w g o length = Some o' ->
    Forall (fun x => x ∈ palette_grays) o ->
    Forall (fun x => x ∈ palette_grays) o'.
Proof.
  intros Hg. induction fuel as [|fuel IH]; intros o length o' Hrun Ho; simpl in Hrun.
  - destruct ((0 <? length) && (lenZ o <? expected)); [discriminate|].
    now inversion Hrun; subst.
  - destruct ((0 <? length) && (lenZ o <? expected));
      [|now inversion Hrun; subst].
    destruct (expected - lenZ o <=? 0); [now inversion Hrun; subst|].
    destruct (w =? 0); [discriminate|].
    match type of Hrun with
    | (if ?c <? 0 then _ else _) = _ => destruct (c <? 0); [discriminate|]
    end.
    apply IH in Hrun; [assumption|].
    apply Forall_app. split; [assumption|]. now apply Forall_replicate.
Qed.

Lemma writeRun_palette (o : list byte) (expected w : Z) (code : byte)
    (length : Z) (o' : list byte) :
  writeRun o expected w code length = Some o' ->
  Forall (fun x => x ∈ palette_grays) o ->
  Forall (fun x => x ∈ palette_grays) o'.
Proof.
  unfold writeRun. destruct (length <=? 0).
  - intros Hrun. now inversion Hrun; subst.
  - apply writeRun_loop_palette, gray_of_palette.
Qed.

Section PaletteClosure.

Variable getenv : string → string.
Variables expected w : Z.
Variable allBlank : bool.

Let pal (o : list byte) : Prop := Forall (fun x => x ∈ palette_grays) o.

Lemma rle_fresh_palette (color length : byte) (st st' : rleState) :
  rle_fresh getenv expected w allBlank color length st = Some st' ->
  pal (out st) -> pal (out st').
Proof.
  unfold rle_fresh. intros Hrun Hpal.
  destruct (Byte.eqb length lenMark).
  - destruct (writeRun _ _ _ _ _) as [o|] eqn:Hw; [|discriminate].
    cbn in Hrun. inversion Hrun; subst. cbn. eapply writeRun_palette; eassumption.
  - destruct (negb _).
    + inversion Hrun; subst. exact Hpal.
    + destruct (writeRun _ _ _ _ _) as [o|] eqn:Hw; [|discriminate].
      cbn in Hrun. inversion Hrun; subst. cbn.
      eapply writeRun_palette; eassumption.
Qed.

Lemma rle_pair_palette (color length : byte) (st st' : rleState) :
  rle_pair getenv expected w allBlank color length st = Some st' ->
  pal (out st) -> pal (out st').
Proof.
  unfold rle_pair. intros Hrun Hpal.
  destruct (haveHolder st); [|eapply rle_fresh_palette; eassumption].
  destruct (Byte.eqb color (holdColor st)).
  - destruct (writeRun _ _ _ _ _) as [o|] eqn:Hw; [|discriminate].
    cbn in Hrun. inversion Hrun; subst. cbn. eapply writeRun_palette; eassumption.
  - destruct (writeRun _ _ _ _ _) as [o|] eqn:Hw; [|discriminate].
    cbn in Hrun. apply rle_fresh_palette in Hrun; [assumption|].
    cbn. eapply writeRun_palette; eassumption.
Qed.

Lemma rle_loop_palette (data : list byte) :
  forall st st',
    rle_loop getenv expected w allBlank data st = Some st' ->
    pal (out st) -> pal (out st').
Proof.
  induction data as [|x|color length rest IH] using list_pair_ind;
    intros st st' Hrun Hpal; simpl in Hrun.
  - now inversion Hrun; subst.
  - now inversion Hrun; subst.
  - destruct (lenZ (out st) <? expected); [|now inversion Hrun; subst].
    destruct (rle_pair _ _ _ _ _ _ _) as [st1|] eqn:Hpair; [|discriminate].
    cbn in Hrun. eapply IH; [eassumption|].
    eapply rle_pair_palette; eassumption.
Qed.

Lemma rle_tail_palette (st : rleState) (o : list byte) :
  rle_tail expected w st = Some o -> pal (out st) -> pal o.
Proof.
  unfold rle_tail. intros Hrun Hpal.
  destruct (haveHolder st && (lenZ (out st) <? expected));
    [|now inversion Hrun; subst].
  destruct (0 <? tail_search _ _ _); [|now inversion Hrun; subst].
  eapply writeRun_palette; eassumption.
Qed.

End PaletteClosure.

(** X2 (palette closure).  Every pixel of a raster the decoder returns is one
    of the five gray values 0x00, 0x9D, 0xC9, 0xFE and 0xFF, whatever the
    bytes of the payload. *)
Theorem X2_decoded_pixels_in_palette (getenv : string → string)
    (data : list byte) (w h : Z) (allBlank horiz : bool)
    (pix : list byte) (w2 h2 : Z) :
  decodeRattaRLERef getenv data w h allBlank horiz = Some (RleOk pix w2 h2) ->
  Forall (fun x => x = x00 \/ x = x9d \/ x = xc9 \/ x = xfe \/ x = xff) pix.
Proof.
  unfold decodeRattaRLERef.
  destruct (if horiz then (h, w) else (w, h)) as [w' h'].
  destruct (int_wrap (w' * h') <? 0); [discriminate|].
  destruct (rle_loop _ _ _ _ _ _) as [st|] eqn:Hloop; [|discriminate].
  cbn -[rle_tail]. destruct (rle_tail _ _ _) as [o|] eqn:Htail; [|discriminate].
  cbn. destruct (negb _); intros Hr; inversion Hr; subst.
  apply rle_loop_palette in Hloop; [|constructor].
  apply rle_tail_palette in Htail; [|assumption].
  eapply Forall_impl; [exact Htail|].
  intros x Hx. apply list_elem_of_In in Hx. simpl in Hx.
  destruct Hx as [<-|[<-|[<-|[<-|[<-|[]]]]]]; auto 10.
Qed.

(** X2 on a payload of unknown, variant and palette codes. *)
Lemma X2_decoded_pixels_in_palette_witness :
  Forall (fun x => x = x00 \/ x = x9d \/ x = xc9 \/ x = xfe \/ x = xff)
    [xc9; x9d; xff; x00; x00; xfe].
Proof.
  apply (X2_decoded_pixels_in_palette (fun _ => EmptyString)
           [x07; x00; x9e; x00; x62; x00; x61; x01; x65; x00] 3 2 false false
           [xc9; x9d; xff; x00; x00; xfe] 3 2).
  vm_compute. reflexivity.
Defined.

(** A payload that starts with [n] sentinel pairs of the colour [c]: the loop
    appends their runs, cut to the room left, and goes on with the rest. *)
Lemma rle_loop_sentinels (getenv : string → string) (expected w : Z)
    (allBlank : bool) (c : byte) (rest : list byte) (hc hl : byte) (n : nat) :
  0 < w -> 0 < specialLen getenv w allBlank c ->
  forall o : list byte,
    lenZ o <= expected ->
    rle_loop getenv expected w allBlank
      (concat (replicate n [c; xff]) ++ rest) (RleState o false hc hl)
    = rle_loop getenv expected w allBlank rest
        (RleState
           (o ++ replicate
              (Z.to_nat (Z.min (Z.of_nat n * specialLen getenv w allBlank c)
                           (expected - lenZ o)))
              (gray_of c))
           false hc hl).
Proof.
  intros Hw Hsp. set (special := specialLen getenv w allBlank c) in *.
  induction n as [|n IH]; intros o Hroom.
  - cbn [replicate concat app]. rewrite Z.mul_0_l.
    replace (Z.to_nat _) with 0%nat by lia.
    cbn [replicate]. now rewrite app_nil_r.
  - cbn [replicate concat app rle_loop out].
    destruct (Z.ltb_spec (lenZ o) expected) as [Hlt|Hfull].
    + rewrite rle_pair_no_holder.
      rewrite rle_fresh_sentinel by (assumption || reflexivity).
      cbn [mbind option_bind out haveHolder holdColor holdLen].
      fold special. unfold emitted.
      rewrite IH by (rewrite lenZ_app, lenZ_replicate; lia).
      rewrite lenZ_app, lenZ_replicate, <- app_assoc, <- replicate_add.
      do 4 f_equal.
      assert (Hp : 0 <= Z.of_nat n * special) by nia.
      replace (Z.of_nat (S n) * special) with (Z.of_nat n * special + special)
        by lia.
      set (p := Z.of_nat n * special) in *. lia.
    + replace (Z.to_nat _) with 0%nat by lia.
      cbn [replicate]. rewrite app_nil_r.
      symmetry. apply rle_loop_full. cbn. lia.
Qed.

(** A payload of sentinel pairs of one colour whose runs cover the raster. *)
Lemma rle_sentinel_only (getenv : string → string) (c : byte)
    (n : nat) (w h : Z) (allBlank horiz : bool) :
  0 <= w -> 0 <= h -> w * h <= max_int ->
  w * h <= Z.of_nat n
           * specialLen getenv (if horiz then h else w) allBlank c ->
  decodeRattaRLERef getenv (concat (replicate n [c; xff])) w h allBlank horiz
  = Some (RleOk (replicate (Z.to_nat (w * h)) (gray_of c))
                (if horiz then h else w) (if horiz then w else h)).
Proof.
  intros Hw Hh Hmax Hcover. unfold decodeRattaRLERef.
  set (w' := if horiz then h else w) in *. set (h' := if horiz then w else h).
  assert (Hdims : (if horiz then (h, w) else (w, h)) = (w', h'))
    by (unfold w', h'; now destruct horiz).
  rewrite Hdims.
  assert (Hprod : w' * h' = w * h) by (unfold w', h'; destruct horiz; lia).
  assert (Hw' : 0 <= w') by (unfold w'; now destruct horiz).
  rewrite Hprod, int_wrap_small by nia.
  destruct (Z.ltb_spec (w * h) 0) as [?|_]; [nia|].
  destruct (Z.eq_dec (w * h) 0) as [Hz|Hnz].
  - rewrite Hz. rewrite rle_loop_full by reflexivity. reflexivity.
  - assert (Hpos : 0 < w').
    { destruct (Z.eq_dec w' 0) as [E|?]; [rewrite E in Hprod; lia|lia]. }
    assert (Hsp : 0 < specialLen getenv w' allBlank c).
    { destruct (Z_lt_le_dec 0 (specialLen getenv w' allBlank c)) as [?|Hle];
        [assumption|]. exfalso.
      assert (Z.of_nat n * specialLen getenv w' allBlank c <= 0)
        by (apply Z.mul_nonneg_nonpos; lia).
      lia. }
    rewrite <- (app_nil_r (concat _)).
    rewrite rle_loop_sentinels by (try assumption; change (lenZ []) with 0; lia).
    cbn [rle_loop app]. cbn -[rle_tail].
    unfold rle_tail. cbn [haveHolder andb out mbind option_bind].
    change (lenZ []) with 0. rewrite Z.sub_0_r, Z.min_r by lia.
    rewrite lenZ_replicate, Z2Nat.id, Z.eqb_refl by lia. reflexivity.
Qed.

(** X3 (sentinel-only payload).  A payload of [n] sentinel pairs (c, 0xFF)
    whose runs cover the raster decodes to the uniform raster of the palette
    value of [c], at the dimensions of the orientation, whatever the length
    of a sentinel run is (0x4000, 0x400 with the all-blank hint, or a row
    under RLE_FIX_BG). *)
Theorem X3_sentinel_only_raster (getenv : string → string) (c : byte)
    (n : nat) (w h : Z) (allBlank horiz : bool) :
  0 <= w -> 0 <= h -> w * h <= max_int ->
  w * h <= Z.of_nat n
           * specialLen getenv (if horiz then h else w) allBlank c ->
  decodeRattaRLERef getenv (concat (replicate n [c; xff])) w h allBlank horiz
  = Some (RleOk (replicate (Z.to_nat (w * h)) (gray_of c))
                (if horiz then h else w) (if horiz then w else h)).
Proof. apply rle_sentinel_only. Qed.

(** X3 on the default raster: 161 sentinel pairs of near-white cover
    1404 x 1872 pixels. *)
Lemma X3_sentinel_only_raster_witness :
  decodeRattaRLERef (fun _ => EmptyString) (concat (replicate 161 [x65; xff]))
    1404 1872 false false
  = Some (RleOk (replicate (Z.to_nat (1404 * 1872)) xfe) 1404 1872).
Proof.
  apply (X3_sentinel_only_raster (fun _ => EmptyString) x65 161 1404 1872
           false false); vm_compute; discriminate.
Defined.

(** ** The payload as a stream *)

(** The loop over a payload split after an even number of bytes is the loop
    over the first part followed by the loop over the second. *)
Lemma rle_loop_app (getenv : string → string) (expected w : Z)
    (allBlank : bool) (d1 d2 : list byte) :
  Nat.Even (length d1) ->
  forall st,
    rle_loop getenv expected w allBlank (d1 ++ d2) st
    = rle_loop getenv expected w allBlank d1 st
      ≫= rle_loop getenv expected w allBlank d2.
Proof.
  induction d1 as [|x|c l rest IH] using list_pair_ind;
    intros Heven st.
  - reflexivity.
  - destruct Heven as [k Hk]. simpl in Hk. lia.
  - assert (Heven' : Nat.Even (length rest)).
    { destruct Heven as [k Hk]. exists (k - 1)%nat. simpl in Hk. lia. }
    cbn [app rle_loop].
    destruct (Z.ltb_spec (lenZ (out st)) expected) as [Hlt|Hfull].
    + destruct (rle_pair _ _ _ _ _ _ _) as [st1|]; [|reflexivity].
      cbn [mbind option_bind]. now apply IH.
    + cbn [mbind option_bind]. symmetry. now apply rle_loop_full.
Qed.

(** X4 (odd trailing byte).  A byte left over after the last whole pair is
    never read: a payload of even length and the same payload with one more
    byte decode alike; in particular a payload of a single byte decodes like
    the empty one. *)
Theorem X4_trailing_byte_ignored (getenv : string → string)
    (data : list byte) (b : byte) (w h : Z) (allBlank horiz : bool) :
  Nat.Even (length data) ->
  decodeRattaRLERef getenv (data ++ [b]) w h allBlank horiz
  = decodeRattaRLERef getenv data w h allBlank horiz.
Proof.
  intros Heven. unfold decodeRattaRLERef.
  destruct (if horiz then (h, w) else (w, h)) as [w' h'].
  destruct (int_wrap (w' * h') <? 0); [reflexivity|].
  rewrite rle_loop_app by assumption.
  destruct (rle_loop _ _ _ _ data _) as [st|]; reflexivity.
Qed.

Lemma X4_trailing_byte_ignored_witness :
  decodeRattaRLERef (fun _ => EmptyString) ([x63; x09] ++ [x61]) 5 2 false false
  = decodeRattaRLERef (fun _ => EmptyString) [x63; x09] 5 2 false false.
Proof.
  apply (X4_trailing_byte_ignored (fun _ => EmptyString) [x63; x09] x61 5 2
           false false).
  exists 1%nat. reflexivity.
Defined.

(** The tail adjustment never appends more than the holder's full run. *)
Lemma tail_search_le_unit (pl : byte) (gap : Z) :
  tail_search pl gap tail_bits <= Z.shiftl (holder_unit pl) 7.
Proof.
  pose proof (holder_unit_range pl) as Hu. unfold holder_unit in *.
  unfold tail_bits. cbn [tail_search].
  set (u := Z.land (byteZ pl) 127 + 1) in *.
  rewrite !Z.shiftl_mul_pow2 by lia.
  change (2 ^ 7) with 128. change (2 ^ 6) with 64. change (2 ^ 5) with 32.
  change (2 ^ 4) with 16. change (2 ^ 3) with 8. change (2 ^ 2) with 4.
  change (2 ^ 1) with 2. change (2 ^ 0) with 1.
  repeat match goal with
         | |- context [Z.leb ?a ?b] => destruct (Z.leb_spec a b)
         end; lia.
Qed.

(** A pair processed from scratch on a full buffer writes nothing. *)
Lemma rle_fresh_full (getenv : string → string) (expected w : Z)
    (allBlank : bool) (color length : byte) (st : rleState) :
  0 < w -> lenZ (out st) = expected ->
  exists st', rle_fresh getenv expected w allBlank color length st = Some st'
              /\ out st' = out st.
Proof.
  intros Hw Hfull.
  assert (Hnone : forall n g,
             out st ++ replicate (emitted n (expected - lenZ (out st))) g = out st).
  { intros n g. unfold emitted. replace (Z.to_nat _) with 0%nat by lia.
    apply app_nil_r. }
  destruct (pair_kind length) as [Hk|[[Hk1 Hk2]|Hk]].
  - rewrite rle_fresh_sentinel by assumption. eexists. split; [reflexivity|].
    cbn [out]. apply Hnone.
  - rewrite rle_fresh_holder by assumption. eexists. split; reflexivity.
  - rewrite rle_fresh_normal by assumption. eexists. split; [reflexivity|].
    cbn [out]. apply Hnone.
Qed.

(** X5 (bytes after a complete raster).  When a payload of even length
    decodes to a raster, every payload that continues it decodes to the same
    raster: once W*H pixels are produced the rest of the stream is not read,
    and a holder that the tail adjustment resolved is resolved to the same
    pixels by the pair that follows it. *)
Theorem X5_complete_raster_ignores_rest (getenv : string → string)
    (d1 d2 : list byte) (w h : Z) (allBlank horiz : bool)
    (pix : list byte) (w2 h2 : Z) :
  0 <= w -> 0 <= h -> w * h <= max_int ->
  Nat.Even (length d1) ->
  decodeRattaRLERef getenv d1 w h allBlank horiz = Some (RleOk pix w2 h2) ->
  decodeRattaRLERef getenv (d1 ++ d2) w h allBlank horiz
  = Some (RleOk pix w2 h2).
Proof.
  intros Hw Hh Hmax Heven. unfold decodeRattaRLERef.
  set (w' := if horiz then h else w). set (h' := if horiz then w else h).
  assert (Hdims : (if horiz then (h, w) else (w, h)) = (w', h'))
    by (unfold w', h'; now destruct horiz).
  rewrite Hdims.
  assert (Hprod : w' * h' = w * h) by (unfold w', h'; destruct horiz; lia).
  assert (Hw' : 0 <= w') by (unfold w'; now destruct horiz).
  rewrite Hprod, int_wrap_small by nia.
  set (expected := w * h) in *.
  destruct (Z.ltb_spec expected 0) as [?|_]; [discriminate|].
  rewrite rle_loop_app by assumption.
  destruct (rle_loop getenv expected w' allBlank d1 _) as [st1|] eqn:Hloop;
    [|discriminate].
  cbn -[rle_tail rle_loop].
  destruct (rle_tail expected w' st1) as [o|] eqn:Htail; [|discriminate].
  cbn -[rle_tail rle_loop].
  destruct (Z.eqb_spec (lenZ o) expected) as [Hfull|?]; [|discriminate].
  cbn -[rle_tail rle_loop]. intros Hres. inversion Hres; subst pix w2 h2. clear Hres.
  assert (Hgoal : exists st2,
             rle_loop getenv expected w' allBlank d2 st1 = Some st2
             /\ rle_tail expected w' st2 = Some o).
  { destruct (Z_lt_ge_dec (lenZ (out st1)) expected) as [Hshort|Hdone].
    2:{ exists st1. split; [apply rle_loop_full; lia|assumption]. }
    assert (Hpos : 0 < w').
    { destruct (Z.eq_dec w' 0) as [E|?]; [|lia].
      rewrite E in Hprod. pose proof (lenZ_nonneg (out st1)). lia. }
    destruct st1 as [o1 hh c1 l1]. cbn [out] in Hshort.
    destruct hh.
    2:{ unfold rle_tail in Htail. cbn in Htail. inversion Htail; subst o. lia. }
    rewrite rle_tail_holder in Htail by assumption.
    assert (Ho : o1 ++ replicate
                        (Z.to_nat (tail_search l1 (expected - lenZ o1) tail_bits))
                        (gray_of c1) = o) by congruence.
    clear Htail.
    pose proof (tail_search_bounds l1 (expected - lenZ o1) tail_bits ltac:(lia)) as Hb.
    pose proof (tail_search_le_unit l1 (expected - lenZ o1)) as Hu.
    set (adj := tail_search l1 (expected - lenZ o1) tail_bits) in *.
    assert (Hadj : adj = expected - lenZ o1).
    { rewrite <- Ho, lenZ_app, lenZ_replicate in Hfull. lia. }
    assert (Hsame : forall n, Z.shiftl (holder_unit l1) 7 <= n ->
               o1 ++ replicate (emitted n (expected - lenZ o1)) (gray_of c1) = o).
    { intros n Hn. rewrite <- Ho. unfold emitted. do 3 f_equal. lia. }
    assert (Hofull : lenZ o = expected) by exact Hfull.
    destruct d2 as [|c2 [|l2 rest]].
    - exists (RleState o1 true c1 l1). split; [reflexivity|].
      rewrite rle_tail_holder by assumption. fold adj. now rewrite Ho.
    - exists (RleState o1 true c1 l1). split; [reflexivity|].
      rewrite rle_tail_holder by assumption. fold adj. now rewrite Ho.
    - cbn [rle_loop out].
      destruct (Z.ltb_spec (lenZ o1) expected) as [_|?]; [|lia].
      pose proof (byteZ_range l2) as Hl2.
      destruct (decide (c2 = c1)) as [->|Hne].
      + rewrite rle_pair_merge by assumption. rewrite Hsame by lia.
        cbn [mbind option_bind].
        rewrite rle_loop_full by (cbn; lia).
        eexists. split; [reflexivity|]. reflexivity.
      + rewrite rle_pair_flush by assumption. rewrite Hsame by lia.
        rewrite rle_pair_no_holder.
        destruct (rle_fresh_full getenv expected w' allBlank c2 l2
                    (RleState o false c1 l1) Hpos Hofull) as (st2 & -> & Hout).
        cbn [mbind option_bind].
        rewrite rle_loop_full by (rewrite Hout; cbn; lia).
        eexists. split; [reflexivity|].
        unfold rle_tail. rewrite Hout. cbn [out].
        destruct (Z.ltb_spec (lenZ o) expected); [lia|].
        now rewrite andb_false_r. }
  destruct Hgoal as (st2 & Hl2 & Ht2).
  rewrite Hl2. cbn -[rle_tail]. rewrite Ht2.
  cbn. now rewrite Hfull, Z.eqb_refl.
Qed.

(** X5 on a holder left to the tail adjustment, then followed by more
    pairs. *)
Lemma X5_complete_raster_ignores_rest_witness :
  decodeRattaRLERef (fun _ => EmptyString) ([x61; x83] ++ [x62; x05; x63; xff])
    8 8 false false
  = Some (RleOk (replicate 64 x00) 8 8).
Proof.
  apply (X5_complete_raster_ignores_rest (fun _ => EmptyString) [x61; x83]
           [x62; x05; x63; xff] 8 8 false false (replicate 64 x00) 8 8).
  - lia.
  - lia.
  - vm_compute. discriminate.
  - exists 1%nat. reflexivity.
  - vm_compute. reflexivity.
Defined.

(** ** Rasters of the layer loader *)

Lemma decode_ok_dims (getenv : string → string) (data : list byte) (w h : Z)
    (allBlank horiz : bool) (pix : list byte) (w2 h2 : Z) :
  decodeRattaRLERef getenv data w h allBlank horiz = Some (RleOk pix w2 h2) ->
  w2 = (if horiz then h else w) /\ h2 = (if horiz then w else h).
Proof.
  unfold decodeRattaRLERef.
  destruct horiz;
    (destruct (int_wrap _ <? 0); [discriminate|];
     destruct (rle_loop _ _ _ _ _ _) as [st|]; [|discriminate];
     cbn -[rle_tail]; destruct (rle_tail _ _ _) as [o|]; [|discriminate];
     cbn; destruct (negb _); intros Hr; inversion Hr; subst; now split).
Qed.

Lemma alpha_of_lookup (pix : list byte) (i : nat) :
  alpha_of pix !! i
  = (fun v => if Byte.eqb v xff then x00 else xff) <$> pix !! i.
Proof. unfold alpha_of. apply list_lookup_fmap. Qed.

(** The alpha plane derived from an RLE raster: as long as the pixels,
    transparent exactly at the sentinel gray 0xFF, opaque elsewhere. *)
Lemma alpha_of_spec (pix : list byte) :
  length (alpha_of pix) = length pix
  /\ (forall i, alpha_of pix !! i = Some x00 <-> pix !! i = Some xff)
  /\ (forall i x, alpha_of pix !! i = Some x -> x = x00 \/ x = xff).
Proof.
  split; [apply length_map|]. split.
  - intros i. rewrite alpha_of_lookup.
    destruct (pix !! i) as [v|]; cbn; [|split; discriminate].
    destruct (Byte.eqb v xff) eqn:E.
    + apply byte_eqb_eq in E. subst v. split; reflexivity.
    + apply byte_eqb_neq in E. split; [discriminate|congruence].
  - intros i x. rewrite alpha_of_lookup.
    destruct (pix !! i) as [v|]; cbn; [|discriminate].
    destruct (Byte.eqb v xff); intros Hx; inversion Hx; auto.
Qed.

(** The shape of a raster of the RLE branch. *)
Lemma rleBranch_ok_shape (getenv : string → string) (nb : Notebook)
    (proto : string) (data : list byte) (horiz : bool) (g : GrayImage) :
  rleBranch getenv nb proto data horiz = ok g ->
  proto = "RATTA_RLE"%string
  /\ lenZ (pix g) = int_wrap (imgW g * imgH g)
  /\ (exists a, alpha g = Some a
        /\ length a = length (pix g)
        /\ (forall i, a !! i = Some x00 <-> pix g !! i = Some xff)
        /\ (forall i x, a !! i = Some x -> x = x00 \/ x = xff))
  /\ ((imgW g, imgH g)
      = (if horiz then (nbH nb, nbW nb) else (nbW nb, nbH nb))
      \/ (imgW g, imgH g)
         = (if horiz then (pageHeight, pageWidth) else (pageWidth, pageHeight))).
Proof.
  intros Hrun.
  destruct (String.eqb_spec proto "RATTA_RLE") as [->|Hp].
  2:{ rewrite rleBranch_unsupported in Hrun by assumption. discriminate. }
  rewrite rleBranch_spec in Hrun. unfold loader_rle_spec in Hrun.
  assert (Hshape : forall w h p w2 h2,
             decodeRattaRLERef getenv data w h false horiz
             = Some (RleOk p w2 h2) ->
             g = mkGrayImage p (Some (alpha_of p)) w2 h2 ->
             lenZ p = int_wrap (w2 * h2)
             /\ (exists a, alpha g = Some a
                   /\ length a = length (pix g)
                   /\ (forall i, a !! i = Some x00 <-> pix g !! i = Some xff)
                   /\ (forall i x, a !! i = Some x -> x = x00 \/ x = xff))
             /\ (imgW g, imgH g) = (if horiz then (h, w) else (w, h))).
  { intros w h p w2 h2 Hdec ->. cbn [pix alpha imgW imgH].
    split; [eapply decode_ok_len; eassumption|]. split.
    - exists (alpha_of p). split; [reflexivity|]. apply alpha_of_spec.
    - apply decode_ok_dims in Hdec as [-> ->]. now destruct horiz. }
  split; [reflexivity|].
  destruct (decodeRattaRLERef getenv data (nbW nb) (nbH nb) false horiz)
    as [[p w2 h2|pr ex]|] eqn:Hdec; cbn [mbind option_bind] in Hrun;
    [| |discriminate].
  - injection Hrun as <-.
    destruct (Hshape _ _ _ _ _ Hdec eq_refl) as (H1 & H2 & H3).
    cbn [pix imgW imgH] in *. split; [exact H1|]. split; [exact H2|].
    left. exact H3.
  - destruct ((nbW nb =? pageWidth) && (nbH nb =? pageHeight)); [discriminate|].
    destruct (decodeRattaRLERef getenv data pageWidth pageHeight false horiz)
      as [[p w2 h2|pr' ex']|] eqn:Hdec'; cbn [mbind option_bind] in Hrun;
      [|discriminate|discriminate].
    injection Hrun as <-.
    destruct (Hshape _ _ _ _ _ Hdec' eq_refl) as (H1 & H2 & H3).
    cbn [pix imgW imgH] in *. split; [exact H1|]. split; [exact H2|].
    right. exact H3.
Qed.

(** X6 (rasters of the RLE branch).  Every raster the RLE branch of the
    layer loader returns, first try or fallback, is well formed: it has an
    alpha plane as long as its pixel plane, the pixel count is the product of
    its dimensions, a pixel is transparent (alpha 0) exactly where its gray
    is the sentinel 0xFF and opaque (alpha 255) everywhere else, and the
    dimensions are those of the notebook or the default ones, swapped on a
    horizontally stored page. *)
Theorem X6_rle_layer_well_formed (getenv : string → string) (nb : Notebook)
    (proto : string) (data : list byte) (horiz : bool) (g : GrayImage) :
  rleBranch getenv nb proto data horiz = ok g ->
  proto = "RATTA_RLE"%string
  /\ lenZ (pix g) = int_wrap (imgW g * imgH g)
  /\ (exists a, alpha g = Some a
        /\ length a = length (pix g)
        /\ (forall i, a !! i = Some x00 <-> pix g !! i = Some xff)
        /\ (forall i x, a !! i = Some x -> x = x00 \/ x = xff))
  /\ ((imgW g, imgH g)
      = (if horiz then (nbH nb, nbW nb) else (nbW nb, nbH nb))
      \/ (imgW g, imgH g)
         = (if horiz then (pageHeight, pageWidth) else (pageWidth, pageHeight))).
Proof. apply rleBranch_ok_shape. Qed.

(** X6 on a notebook 5 wide and 2 high, one run of ten dark pixels, stored
    horizontally. *)
Lemma X6_rle_layer_well_formed_witness :
  "RATTA_RLE"%string = "RATTA_RLE"%string
  /\ lenZ (replicate 10 x9d) = int_wrap (2 * 5)
  /\ (exists a, Some (alpha_of (replicate 10 x9d)) = Some a
        /\ length a = length (replicate 10 x9d)
        /\ (forall i, a !! i = Some x00 <-> replicate 10 x9d !! i = Some xff)
        /\ (forall i x, a !! i = Some x -> x = x00 \/ x = xff))
  /\ ((2, 5) = (2, 5) \/ (2, 5) = (pageHeight, pageWidth)).
Proof.
  apply (X6_rle_layer_well_formed (fun _ => EmptyString) (mkNotebook 5 2 [])
           "RATTA_RLE" [x63; x09] true
           (mkGrayImage (replicate 10 x9d) (Some (alpha_of (replicate 10 x9d))) 2 5)).
  vm_compute. reflexivity.
Defined.

(** X7 (orientation consistency).  On a notebook of the default dimensions an
    RLE layer comes back 1404 wide and 1872 high, or 1872 wide and 1404 high
    when the page's orientation flag is set, and always with 1404 * 1872
    pixels. *)
Theorem X7_default_dimensions (getenv : string → string)
    (pages : list (gmap string string)) (proto : string) (data : list byte)
    (horiz : bool) (g : GrayImage) :
  rleBranch getenv (default_notebook pages) proto data horiz = ok g ->
  (imgW g, imgH g) = (if horiz then (1872, 1404) else (1404, 1872))
  /\ lenZ (pix g) = 2628288.
Proof.
  intros Hrun. apply rleBranch_ok_shape in Hrun as (_ & Hlen & _ & Hdims).
  cbn [default_notebook nbW nbH] in Hdims.
  assert (Hd : (imgW g, imgH g)
               = (if horiz then (1872, 1404) else (1404, 1872)))
    by (destruct Hdims as [Hd|Hd]; exact Hd).
  split; [exact Hd|].
  rewrite Hlen. destruct horiz; injection Hd as -> ->; reflexivity.
Qed.

(** X7 on the page of 161 near-white sentinel runs. *)
Lemma X7_default_dimensions_witness :
  (1872, 1404) = (1872, 1404)
  /\ lenZ (replicate (Z.to_nat (1404 * 1872)) xfe) = 2628288.
Proof.
  apply (X7_default_dimensions (fun _ => EmptyString) [] "RATTA_RLE"
           (concat (replicate 161 [x65; xff])) true
           (mkGrayImage (replicate (Z.to_nat (1404 * 1872)) xfe)
              (Some (alpha_of (replicate (Z.to_nat (1404 * 1872)) xfe)))
              1872 1404)).
  rewrite rleBranch_spec. unfold loader_rle_spec.
  cbn [default_notebook nbW nbH].
  rewrite (rle_sentinel_only (fun _ => EmptyString) x65 161 pageWidth pageHeight
             false true) by (vm_compute; discriminate).
  reflexivity.
Defined.

(** ** Errors of the layer loader and the page renderer *)

(** X8 (unsupported protocol).  A block that is not replaced by the neutral
    background and does not start with the PNG magic is decoded only under
    the protocol tag "RATTA_RLE": with any other tag, a missing one included,
    the loader fails with the unsupported-protocol error that names the tag,
    whatever the payload holds. *)
Theorem X8_unsupported_protocol (getenv : string → string)
    (pngDecode : list byte → option pngImage) (src : byteSource)
    (nb : Notebook) (pm : gmap string string) (key proto bmpStr : string)
    (blockLen : Z) (data : list byte) :
  layer_header src pm key proto bmpStr blockLen ->
  src_block src bmpStr blockLen = Some data ->
  ~ (blockLen < 16 /\ key = "BGLAYER"%string) ->
  ~ (8 <= lenZ data /\ take 8 data = pngSig) ->
  proto <> "RATTA_RLE"%string ->
  decodeLayerFromPage getenv pngDecode src nb pm key
  = fail (ErrUnsupportedProtocol proto).
Proof.
  intros Hhead Hdata Hnot Hnopng Hproto.
  rewrite (decodeLayerFromPage_rle getenv pngDecode src nb pm key proto bmpStr
             blockLen Hhead data Hnot Hdata Hnopng).
  now apply rleBranch_unsupported.
Qed.

(** A source whose one layer declares no protocol. *)
Lemma X8_unsupported_protocol_witness :
  decodeLayerFromPage no_env png_decode_examples
    (mkByteSource
       (fun _ => Some (<["LAYERBITMAP"%string := "200"%string]> ∅))
       (fun _ => Some 16) (fun _ _ => Some (replicate 16 x61)))
    (default_notebook [horizontal_page]) horizontal_page "MAINLAYER"
  = fail (ErrUnsupportedProtocol EmptyString).
Proof.
  apply (X8_unsupported_protocol no_env png_decode_examples _
           (default_notebook [horizontal_page]) horizontal_page "MAINLAYER"
           EmptyString "200" 16 (replicate 16 x61)).
  - exists "100"%string, (<["LAYERBITMAP"%string := "200"%string]> ∅).
    repeat split; reflexivity.
  - reflexivity.
  - intros [Hlt _]. lia.
  - intros [_ Hsig]. vm_compute in Hsig. discriminate Hsig.
  - discriminate.
Defined.

(** The loader on a page that lacks the layer key, on a layer whose metadata
    cannot be read, and on metadata that lacks the bitmap address. *)
Lemma decodeLayerFromPage_early_errors (getenv : string → string)
    (pngDecode : list byte → option pngImage) (src : byteSource)
    (nb : Notebook) (pm : gmap string string) (key : string) :
  (pm !! key = None ->
   decodeLayerFromPage getenv pngDecode src nb pm key
   = fail (ErrLayerKeyMissing key))
  /\ (forall addr, pm !! key = Some addr -> src_readMeta src addr = None ->
      decodeLayerFromPage getenv pngDecode src nb pm key = fail ErrRead)
  /\ (forall addr meta,
        pm !! key = Some addr -> src_readMeta src addr = Some meta ->
        meta !! "LAYERBITMAP"%string = None ->
        decodeLayerFromPage getenv pngDecode src nb pm key
        = fail (ErrBitmapMissing key)).
Proof.
  unfold decodeLayerFromPage. split; [|split].
  - intros ->. reflexivity.
  - intros addr -> ->. reflexivity.
  - intros addr meta -> -> ->. reflexivity.
Qed.

Section PageFacts.

Variable getenv : string → string.
Variable pngDecode : list byte → option pngImage.
Variable src : byteSource.
Variable nb : Notebook.
Variable idx : Z.
Variable pm : gmap string string.

Hypothesis idx_range : 0 <= idx < Z.of_nat (length (Pages nb)).
Hypothesis idx_page : Pages nb !! Z.to_nat idx = Some pm.

Lemma page_index_ok :
  (idx <? 0) || (idx >=? Z.of_nat (length (Pages nb))) = false.
Proof.
  destruct (Z.ltb_spec idx 0); [lia|].
  destruct (Z.geb_spec idx (Z.of_nat (length (Pages nb)))); [lia|reflexivity].
Qed.

(** [DecodeLayers] in terms of the loader's two results. *)
Lemma DecodeLayers_spec :
  DecodeLayers getenv pngDecode src nb idx
  = (m ← decodeLayerFromPage getenv pngDecode src nb pm "MAINLAYER";
     match m with
     | inr e => Some (inr e)
     | inl mainImg =>
         match pm !! "BGLAYER"%string with
         | None => Some (inl (mainImg, None))
         | Some _ =>
             b ← decodeLayerFromPage getenv pngDecode src nb pm "BGLAYER";
             match b with
             | inl bgImg => Some (inl (mainImg, Some bgImg))
             | inr _ => Some (inl (mainImg, None))
             end
         end
     end).
Proof. unfold DecodeLayers. now rewrite page_index_ok, idx_page. Qed.

(** A main layer that fails: the page fails with the same error. *)
Lemma DecodePage_main_error (e : error) :
  decodeLayerFromPage getenv pngDecode src nb pm "MAINLAYER" = fail e ->
  DecodePage getenv pngDecode src nb idx = fail e.
Proof.
  intros Hmain. unfold DecodePage. rewrite page_index_ok, DecodeLayers_spec, Hmain.
  reflexivity.
Qed.

(** A page without a background, or whose background fails to decode: the
    main raster as decoded. *)
Lemma DecodePage_no_background (m : GrayImage) :
  decodeLayerFromPage getenv pngDecode src nb pm "MAINLAYER" = ok m ->
  (pm !! "BGLAYER"%string = None
   \/ exists e, decodeLayerFromPage getenv pngDecode src nb pm "BGLAYER" = fail e) ->
  DecodePage getenv pngDecode src nb idx = ok m.
Proof.
  intros Hmain Hbg. unfold DecodePage.
  rewrite page_index_ok, DecodeLayers_spec, Hmain. cbn [mbind option_bind ok].
  destruct Hbg as [->|[e Hbg]]; [reflexivity|].
  destruct (pm !! "BGLAYER"%string); [|reflexivity].
  rewrite Hbg. reflexivity.
Qed.

(** A page with both layers: the main raster composited over the
    background. *)
Lemma DecodePage_both (m b : GrayImage) :
  decodeLayerFromPage getenv pngDecode src nb pm "MAINLAYER" = ok m ->
  is_Some (pm !! "BGLAYER"%string) ->
  decodeLayerFromPage getenv pngDecode src nb pm "BGLAYER" = ok b ->
  DecodePage getenv pngDecode src nb idx
  = (r ← Composite (Some m) (Some b);
     match r.1 with Some m' => ok m' | None => None end).
Proof.
  intros Hmain [a Ha] Hbg. unfold DecodePage.
  rewrite page_index_ok, DecodeLayers_spec, Hmain. cbn [mbind option_bind ok].
  rewrite Ha, Hbg. reflexivity.
Qed.

End PageFacts.

(** A page index outside the notebook. *)
Lemma DecodePage_out_of_range (getenv : string → string)
    (pngDecode : list byte → option pngImage) (src : byteSource)
    (nb : Notebook) (idx : Z) :
  idx < 0 \/ Z.of_nat (length (Pages nb)) <= idx ->
  DecodePage getenv pngDecode src nb idx = fail ErrPageIndex
  /\ DecodeLayers getenv pngDecode src nb idx = Some (inr ErrPageIndex).
Proof.
  intros Hout. unfold DecodePage, DecodeLayers.
  assert (Hb : (idx <? 0) || (idx >=? Z.of_nat (length (Pages nb))) = true).
  { destruct (Z.ltb_spec idx 0); [reflexivity|].
    destruct (Z.geb_spec idx (Z.of_nat (length (Pages nb)))); [reflexivity|lia]. }
  now rewrite Hb.
Qed.

(** X9 (page renderer, failures).  For a page index inside the notebook: a
    main layer that fails makes the page fail with the same error, while a
    background that is absent or fails to decode is not fatal, the page is
    the main raster as decoded.  A page index outside the notebook fails with
    the index error before anything is read. *)
Theorem X9_page_failures (getenv : string → string)
    (pngDecode : list byte → option pngImage) (src : byteSource)
    (nb : Notebook) (idx : Z) :
  (forall pm,
      0 <= idx < Z.of_nat (length (Pages nb)) ->
      Pages nb !! Z.to_nat idx = Some pm ->
      (forall e,
          decodeLayerFromPage getenv pngDecode src nb pm "MAINLAYER" = fail e ->
          DecodePage getenv pngDecode src nb idx = fail e)
      /\ (forall m,
            decodeLayerFromPage getenv pngDecode src nb pm "MAINLAYER" = ok m ->
            pm !! "BGLAYER"%string = None
            \/ (exists e, decodeLayerFromPage getenv pngDecode src nb pm "BGLAYER"
                          = fail e) ->
            DecodePage getenv pngDecode src nb idx = ok m))
  /\ (idx < 0 \/ Z.of_nat (length (Pages nb)) <= idx ->
      DecodePage getenv pngDecode src nb idx = fail ErrPageIndex).
Proof.
  split.
  - intros pm Hrange Hpage. split.
    + intros e. now apply DecodePage_main_error.
    + intros m. now apply DecodePage_no_background.
  - intros Hout. now apply DecodePage_out_of_range.
Qed.

(** X10 (composited page).  When the main layer of a page is an RLE raster
    (its alpha plane is derived from the sentinel gray) and the background
    decodes to a raster with at least as many pixels, the page is the main
    raster with every sentinel pixel replaced by the background pixel at the
    same index, every other pixel kept, and every alpha byte 255. *)
Theorem X10_page_composited (getenv : string → string)
    (pngDecode : list byte → option pngImage) (src : byteSource)
    (nb : Notebook) (idx : Z) (pm : gmap string string) (m b : GrayImage) :
  0 <= idx < Z.of_nat (length (Pages nb)) ->
  Pages nb !! Z.to_nat idx = Some pm ->
  decodeLayerFromPage getenv pngDecode src nb pm "MAINLAYER" = ok m ->
  alpha m = Some (alpha_of (pix m)) ->
  is_Some (pm !! "BGLAYER"%string) ->
  decodeLayerFromPage getenv pngDecode src nb pm "BGLAYER" = ok b ->
  (length (pix m) <= length (pix b))%nat ->
  exists p',
    DecodePage getenv pngDecode src nb idx
    = ok (mkGrayImage p' (Some (replicate (length (pix m)) xff))
            (imgW m) (imgH m))
    /\ length p' = length (pix m)
    /\ forall i, p' !! i
                 = if decide (pix m !! i = Some xff)
                   then pix b !! i else pix m !! i.
Proof.
  intros Hrange Hpage Hmain Halpha Hkey Hbg Hlen.
  rewrite (DecodePage_both getenv pngDecode src nb idx pm Hrange Hpage m b
             Hmain Hkey Hbg).
  destruct m as [p a w h]. cbn [pix alpha imgW imgH] in *. subst a.
  destruct (Composite_spec p (alpha_of p) w h b)
    as (p' & a' & -> & Hlp & Hla & Hp & Ha).
  destruct (alpha_of_spec p) as (Hal & Hzero & Hbin).
  assert (Hrep : forall j, replaced_from 0 p (alpha_of p) (pix b) j
                           <-> p !! j = Some xff).
  { intros j. rewrite replaced_from_0, Hzero. split; [tauto|].
    intros Hj. split; [|assumption].
    apply lookup_lt_Some in Hj. unfold common_len. lia. }
  assert (a' = replicate (length p) xff) as ->.
  { apply list_eq. intros j. rewrite Ha.
    destruct (decide (j < length p)%nat) as [Hj|Hj].
    - rewrite lookup_replicate_2 by assumption.
      case_decide as Hr; [reflexivity|].
      destruct (lookup_lt_is_Some_2 (alpha_of p) j ltac:(lia)) as [x Hx].
      rewrite Hx. destruct (Hbin j x Hx) as [->| ->]; [|reflexivity].
      exfalso. apply Hr. apply Hrep. now apply Hzero.
    - rewrite decide_False.
      + rewrite lookup_ge_None_2 by lia. symmetry.
        apply lookup_replicate_None. lia.
      + rewrite Hrep. intros Hx. apply lookup_lt_Some in Hx. lia. }
  exists p'. cbn [mbind option_bind fst]. split; [reflexivity|].
  split; [exact Hlp|].
  intros i. rewrite Hp. apply decide_ext, Hrep.
Qed.

(** X10 on a notebook 2 wide and 2 high: the main layer has two transparent
    and two black pixels, the background is near-white. *)
Lemma X10_page_composited_witness :
  exists p',
    DecodePage no_env png_decode_examples
      (two_layer_source [x62; x01; x61; x01]
         ([x65; x03] ++ replicate 14 x00))
      (mkNotebook 2 2 [two_layer_page]) 0
    = ok (mkGrayImage p' (Some (replicate 4 xff)) 2 2)
    /\ length p' = 4%nat
    /\ forall i, p' !! i
                 = if decide ([xff; xff; x00; x00] !! i = Some xff)
                   then [xfe; xfe; xfe; xfe] !! i
                   else [xff; xff; x00; x00] !! i.
Proof.
  apply (X10_page_composited no_env png_decode_examples
           (two_layer_source [x62; x01; x61; x01] ([x65; x03] ++ replicate 14 x00))
           (mkNotebook 2 2 [two_layer_page]) 0 two_layer_page
           (mkGrayImage [xff; xff; x00; x00] (Some [x00; x00; xff; xff]) 2 2)
           (mkGrayImage [xfe; xfe; xfe; xfe] (Some [xff; xff; xff; xff]) 2 2)).
  - simpl. lia.
  - reflexivity.
  - vm_compute. reflexivity.
  - reflexivity.
  - eexists. reflexivity.
  - vm_compute. reflexivity.
  - simpl. lia.
Defined.

(** X11 (the two background decoders).  For a background layer of the
    protocol RATTA_RLE whose block has at least 16 bytes and does not start
    with the PNG magic, on a notebook of the default dimensions and a page
    that does not trigger the all-blank hint, [DecodeBackground] and the
    layer loader return the same outcome. *)
Theorem X11_background_decoders_agree (getenv : string → string)
    (pngDecode : list byte → option pngImage) (src : byteSource)
    (nb : Notebook) (pm : gmap string string) (bmpStr : string)
    (blockLen : Z) (data : list byte) :
  layer_header src pm "BGLAYER" "RATTA_RLE" bmpStr blockLen ->
  src_block src bmpStr blockLen = Some data ->
  16 <= blockLen ->
  ~ (8 <= lenZ data /\ take 8 data = pngSig) ->
  ~ (pm !! "PAGESTYLE"%string = Some "style_white"%string
     /\ blockLen = 0x140e) ->
  nbW nb = pageWidth -> nbH nb = pageHeight ->
  DecodeBackground getenv src nb pm
  = decodeLayerFromPage getenv pngDecode src nb pm "BGLAYER".
Proof.
  intros Hhead Hdata Hlen Hnopng Hnohint HW HH.
  rewrite (DecodeBackground_spec getenv src nb pm bmpStr blockLen data Hhead Hdata).
  rewrite bool_decide_eq_false_2 by assumption.
  rewrite (decodeLayerFromPage_rle getenv pngDecode src nb pm "BGLAYER"
             "RATTA_RLE" bmpStr blockLen Hhead data) by (try assumption; lia).
  rewrite rleBranch_spec. unfold background_rle_spec, loader_rle_spec.
  rewrite HW, HH, !Z.eqb_refl. reflexivity.
Qed.

(** X11 on a background block of 16 bytes that falls short of the raster:
    both decoders return the size-mismatch error. *)
Lemma X11_background_decoders_agree_witness :
  DecodeBackground no_env (one_layer_source 16 (replicate 16 x61))
    (default_notebook [<["BGLAYER"%string := "100"%string]> ∅])
    (<["BGLAYER"%string := "100"%string]> ∅)
  = decodeLayerFromPage no_env png_decode_examples
      (one_layer_source 16 (replicate 16 x61))
      (default_notebook [<["BGLAYER"%string := "100"%string]> ∅])
      (<["BGLAYER"%string := "100"%string]> ∅) "BGLAYER".
Proof.
  apply (X11_background_decoders_agree no_env png_decode_examples
           (one_layer_source 16 (replicate 16 x61))
           (default_notebook [<["BGLAYER"%string := "100"%string]> ∅])
           (<["BGLAYER"%string := "100"%string]> ∅) "200" 16
           (replicate 16 x61)).
  - apply one_layer_header. reflexivity.
  - apply one_layer_block.
  - lia.
  - intros [_ Hsig]. vm_compute in Hsig. discriminate Hsig.
  - intros [Hstyle _]. vm_compute in Hstyle. discriminate Hstyle.
  - reflexivity.
  - reflexivity.
Defined.

(** ** The legacy decoder *)

Section Legacy.

Variable getenv : string → string.
Variables expected w : Z.
Hypothesis w_pos : 0 < w.
Hypothesis fix_bg_off : getenv "RLE_FIX_BG"%string <> "1"%string.

(** With RLE_FIX_BG off and no all-blank hint, the legacy decoder and the
    reference decoder process every pair alike: the clamp the reference
    decoder applies before [writeRun] is the one [writeRun] applies itself. *)
Lemma legacy_pair_ref (c l : byte) (st : rleState) :
  legacy_pair expected w c l st = rle_pair getenv expected w false c l st.
Proof.
  assert (Hfresh : forall st1,
             (if Byte.eqb l lenMark then
                o ← writeRun (out st1) expected w c longLen;
                Some (RleState o (haveHolder st1) (holdColor st1) (holdLen st1))
              else if negb (Z.land (byteZ l) 0x80 =? 0) then
                Some (RleState (out st1) true c l)
              else
                o ← writeRun (out st1) expected w c (byteZ l + 1);
                Some (RleState o (haveHolder st1) (holdColor st1) (holdLen st1)))
             = rle_fresh getenv expected w false c l st1).
  { intros st1. unfold rle_fresh.
    rewrite (specialLen_no_hint getenv w c (or_introl fix_bg_off)).
    rewrite !writeRun_clamped, !writeRun_spec by assumption. reflexivity. }
  unfold legacy_pair, rle_pair.
  destruct (haveHolder st).
  - destruct (Byte.eqb c (holdColor st)).
    + rewrite writeRun_clamped, writeRun_spec by assumption. reflexivity.
    + rewrite writeRun_clamped, writeRun_spec by assumption.
      cbn [mbind option_bind]. apply Hfresh.
  - cbn [mbind option_bind]. apply Hfresh.
Qed.

Lemma legacy_loop_ref (data : list byte) :
  forall st,
    legacy_loop expected w data st = rle_loop getenv expected w false data st.
Proof.
  induction data as [|x|c l rest IH] using list_pair_ind; intros st;
    cbn [legacy_loop rle_loop]; try reflexivity.
  destruct (lenZ (out st) <? expected); [|reflexivity].
  rewrite legacy_pair_ref.
  destruct (rle_pair _ _ _ _ _ _ _) as [st1|]; [|reflexivity].
  cbn [mbind option_bind]. apply IH.
Qed.

End Legacy.

(** X12 (legacy decoder).  With RLE_FIX_BG off, whenever the reference
    decoder, run without the all-blank hint and without the orientation
    swap, returns a raster, [legacyRLE] returns the same raster without an
    error: the two loops process every pair alike, and a gap the tail
    adjustment of the reference decoder can close is closed alike by the
    legacy tail. *)
Theorem X12_legacy_decodes_what_reference_decodes (getenv : string → string)
    (data : list byte) (w h : Z) (pix : list byte) (w2 h2 : Z) :
  getenv "RLE_FIX_BG"%string <> "1"%string ->
  0 <= w -> 0 <= h -> w * h <= max_int ->
  decodeRattaRLERef getenv data w h false false = Some (RleOk pix w2 h2) ->
  legacyRLE data w h = Some (pix, w, h, None).
Proof.
  intros Hfix Hw Hh Hmax. unfold decodeRattaRLERef, legacyRLE.
  rewrite int_wrap_small by nia.
  set (expected := w * h) in *.
  destruct (Z.ltb_spec expected 0) as [?|Hnn]; [discriminate|].
  destruct (Z.eq_dec expected 0) as [Hz|Hnz].
  - rewrite Hz. rewrite rle_loop_full by reflexivity.
    cbn. intros Hr. injection Hr as <- _ _.
    destruct data as [|c [|l rest]]; reflexivity.
  - assert (Hpos : 0 < w).
    { destruct (Z.eq_dec w 0) as [E|?]; [|lia].
      unfold expected in Hnz. rewrite E in Hnz. lia. }
    rewrite (legacy_loop_ref getenv expected w Hpos Hfix).
    destruct (rle_loop getenv expected w false data _) as [st|] eqn:Hloop;
      [|discriminate].
    cbn -[rle_tail]. 
    destruct (rle_loop_bounded getenv expected w false Hpos data
                (RleState [] false x00 x00)) as (st' & Hst' & Hb);
      [exact Hnn|].
    rewrite Hloop in Hst'. injection Hst' as <-.
    destruct (rle_tail expected w st) as [o|] eqn:Htail; [|discriminate].
    cbn -[rle_tail].
    destruct (Z.eqb_spec (lenZ o) expected) as [Hfull|?]; [|discriminate].
    cbn. intros Hr. injection Hr as <- _ _.
    destruct st as [o1 hh c1 l1]. cbn [out haveHolder holdColor holdLen] in *.
    destruct (Z.ltb_spec (lenZ o1) expected) as [Hshort|Hdone].
    + destruct hh.
      * cbn [andb]. rewrite rle_tail_holder in Htail by assumption.
        pose proof (tail_search_bounds l1 (expected - lenZ o1) tail_bits
                      ltac:(lia)) as Hbd.
        pose proof (tail_search_le_unit l1 (expected - lenZ o1)) as Hu.
        set (adj := tail_search l1 (expected - lenZ o1) tail_bits) in *.
        assert (Ho : o1 ++ replicate (Z.to_nat adj) (gray_of c1) = o)
          by congruence.
        assert (Hadj : adj = expected - lenZ o1).
        { rewrite <- Ho, lenZ_app, lenZ_replicate in Hfull. lia. }
        rewrite writeRun_spec by assumption.
        fold (holder_unit l1). fold (clamp (Z.shiftl (holder_unit l1) 7)
                                       (expected - lenZ o1)).
        rewrite emitted_clamp. unfold emitted.
        rewrite Z.min_r by lia. rewrite <- Hadj, Ho.
        cbn [mbind option_bind]. now rewrite Hfull, Z.eqb_refl.
      * unfold rle_tail in Htail. cbn in Htail. injection Htail as <-. lia.
    + assert (Ho : o = o1).
      { unfold rle_tail in Htail. cbn [haveHolder out] in Htail.
        destruct (Z.ltb_spec (lenZ o1) expected); [lia|].
        rewrite andb_false_r in Htail. congruence. }
      subst o. rewrite andb_false_r. cbn [mbind option_bind].
      now rewrite Hfull, Z.eqb_refl.
Qed.

(** X12 on the holder example: both decoders fill the 8 x 8 raster. *)
Lemma X12_legacy_decodes_what_reference_decodes_witness :
  legacyRLE [x61; x83] 8 8 = Some (replicate 64 x00, 8, 8, None).
Proof.
  apply (X12_legacy_decodes_what_reference_decodes (fun _ => EmptyString)
           [x61; x83] 8 8 (replicate 64 x00) 8 8).
  - discriminate.
  - lia.
  - lia.
  - vm_compute. discriminate.
  - vm_compute. reflexivity.
Defined.

(** ** The first RATTA_RLE decoder and the row-fill decoder *)




(** Where the two differ: a holder followed by a pair of another colour is
    flushed as 128 pixels by the first decoder and as 129 by the reference
    decoder. *)
Example ratta_decoders_differ :
  decodeRattaRLE (fun _ => EmptyString) [x61; x80; x62; x00] 129 1 false false
  = Some (RleOk (replicate 128 x00 ++ [xff]) 129 1)
  /\ decodeRattaRLERef (fun _ => EmptyString) [x61; x80; x62; x00] 129 1
       false false
     = Some (RleOk (replicate 129 x00) 129 1).
Proof. split; vm_compute; reflexivity. Qed.

Lemma rowfill_loop_bounded (expected w : Z) (data : list byte) :
  0 < w ->
  forall o, lenZ o <= expected ->
    exists o', rowfill_loop expected w data o = Some o'
               /\ lenZ o' <= expected.
Proof.
  intros Hw. induction data as [|x|c l rest IH] using list_pair_ind;
    intros o Hb; cbn [rowfill_loop]; eauto.
  destruct (lenZ o <? expected); [|eauto].
  assert (Hrun : exists run,
             (if Byte.eqb l xff then
                if w =? 0 then None
                else Some (if w - Z.rem (lenZ o) w <=? 0 then w
                           else w - Z.rem (lenZ o) w)
              else Some (byteZ l + 1)) = Some run).
  { destruct (Byte.eqb l xff); [|eauto].
    destruct (Z.eqb_spec w 0); [lia|eauto]. }
  destruct Hrun as [run ->]. cbn [mbind option_bind].
  rewrite writeRun_clamped by assumption. cbn [mbind option_bind].
  apply IH. now apply emit_bounded.
Qed.

Lemma rowfill_pad_spec (expected w : Z) (padColor : byte) (fuel : nat) :
  0 < w ->
  forall o,
    lenZ o <= expected ->
    (Z.to_nat (expected - lenZ o) <= fuel)%nat ->
    rowfill_pad fuel expected w padColor o
    = Some (o ++ replicate (Z.to_nat (expected - lenZ o)) (gray_of padColor)).
Proof.
  intros Hw. induction fuel as [|fuel IH]; intros o Hb Hfuel; cbn [rowfill_pad].
  - destruct (Z.ltb_spec (lenZ o) expected); [lia|].
    replace (Z.to_nat _) with 0%nat by lia. now rewrite app_nil_r.
  - destruct (Z.ltb_spec (lenZ o) expected) as [Hlt|Hge].
    + rewrite writeRun_spec by assumption. cbn [mbind option_bind].
      replace (emitted 1 (expected - lenZ o)) with 1%nat
        by (unfold emitted; lia).
      rewrite IH by (rewrite ?lenZ_app, ?lenZ_replicate; lia).
      rewrite lenZ_app, lenZ_replicate, <- app_assoc, <- replicate_add.
      do 3 f_equal. lia.
    + replace (Z.to_nat _) with 0%nat by lia. now rewrite app_nil_r.
Qed.

(** X14 (row-fill decoder).  [decodeRattaRLERowFill] never fails: for every
    payload and all dimensions in range it returns a raster of exactly W*H
    pixels, padding what the payload leaves open; for the empty payload the
    raster is uniformly the background gray 0xFF. *)
Theorem X14_rowfill_always_complete (data : list byte) (w h : Z)
    (horiz : bool) :
  0 <= w -> 0 <= h -> w * h <= max_int ->
  (exists pix,
      decodeRattaRLERowFill data w h horiz
      = Some (pix, if horiz then h else w, if horiz then w else h)
      /\ lenZ pix = w * h)
  /\ decodeRattaRLERowFill [] w h horiz
     = Some (replicate (Z.to_nat (w * h)) xff,
             if horiz then h else w, if horiz then w else h).
Proof.
  intros Hw Hh Hmax. unfold decodeRattaRLERowFill.
  set (w' := if horiz then h else w). set (h' := if horiz then w else h).
  assert (Hdims : (if horiz then (h, w) else (w, h)) = (w', h'))
    by (unfold w', h'; now destruct horiz).
  rewrite Hdims.
  assert (Hprod : w' * h' = w * h) by (unfold w', h'; destruct horiz; lia).
  assert (Hw' : 0 <= w') by (unfold w'; now destruct horiz).
  rewrite Hprod, int_wrap_small by nia.
  set (expected := w * h) in *.
  destruct (Z.ltb_spec expected 0) as [?|Hnn]; [nia|].
  destruct (Z.eq_dec expected 0) as [Hz|Hnz].
  - rewrite Hz. split.
    + exists []. split; [|reflexivity].
      destruct data as [|c [|l rest]]; reflexivity.
    + reflexivity.
  - assert (Hpos : 0 < w').
    { destruct (Z.eq_dec w' 0) as [E|?]; [|lia]. rewrite E in Hprod. lia. }
    split.
    + destruct (rowfill_loop_bounded expected w' data Hpos [] Hnn)
        as (o & -> & Hb).
      cbn [mbind option_bind].
      destruct (Z.eqb_spec (lenZ o) expected) as [Hfull|Hshort]; cbn [negb].
      * exists o. now split.
      * rewrite rowfill_pad_spec by (try assumption; lia).
        eexists. split; [reflexivity|].
        rewrite lenZ_app, lenZ_replicate. lia.
    + cbn [rowfill_loop mbind option_bind].
      change (lenZ []) with 0.
      destruct (Z.eqb_spec 0 expected) as [?|_]; [lia|]. cbn [negb].
      change (0 <? 0) with false. cbv iota.
      rewrite rowfill_pad_spec by (try assumption; change (lenZ []) with 0; lia).
      change (lenZ []) with 0. rewrite Z.sub_0_r. reflexivity.
Qed.

(** X14 on a payload that leaves the second row of a 3 x 2 raster open: the
    row is padded with the gray of the code 0x00, mid gray. *)
Lemma X14_rowfill_always_complete_witness :
  (exists pix,
      decodeRattaRLERowFill [x61; xff] 3 2 false = Some (pix, 3, 2)
      /\ lenZ pix = 3 * 2)
  /\ decodeRattaRLERowFill [] 3 2 false
     = Some (replicate (Z.to_nat (3 * 2)) xff, 3, 2).
Proof.
  apply (X14_rowfill_always_complete [x61; xff] 3 2 false);
    [lia | lia | vm_compute; discriminate].
Defined.

Example rowfill_pads_with_mid_gray :
  decodeRattaRLERowFill [x61; xff] 3 2 false
  = Some ([x00; x00; x00; xc9; xc9; xc9], 3, 2).
Proof. vm_compute. reflexivity. Qed.

(** ** Raster utilities *)

(** The scan returns a count that some gray at or above 0xC0 has in the
    raster, or the initial -1. *)
Lemma flatten_scan_spec (pix order : list byte) :
  let '(bestVal, bestCount) := flatten_scan pix order in
  bestCount = -1
  \/ (0xC0 <= byteZ bestVal /\ bestCount = hist_count pix bestVal).
Proof.
  unfold flatten_scan.
  assert (H : forall acc : byte * Z,
             (let '(v, c) := acc in
              c = -1 \/ (0xC0 <= byteZ v /\ c = hist_count pix v)) ->
             let '(v, c) :=
               fold_left
                 (fun '(bestVal, bestCount) g =>
                    let c := hist_count pix g in
                    if (0xC0 <=? byteZ g) && (bestCount <? c) then (g, c)
                    else (bestVal, bestCount)) order acc in
             c = -1 \/ (0xC0 <= byteZ v /\ c = hist_count pix v)).
  { induction order as [|g order IH]; intros [v c] Hacc; [exact Hacc|].
    cbn [fold_left]. apply IH.
    destruct ((0xC0 <=? byteZ g) && (c <? hist_count pix g)) eqn:Htest;
      [|exact Hacc].
    apply andb_true_iff in Htest as [Hg _]. apply Z.leb_le in Hg.
    right. now split. }
  apply (H (x00, -1)). now left.
Qed.

Lemma hist_count_pos (pix : list byte) (g : byte) :
  0 < hist_count pix g -> g ∈ pix.
Proof.
  unfold hist_count. intros Hpos.
  destruct (filter (fun p => p = g) pix) as [|p l] eqn:Hf; [simpl in Hpos; lia|].
  assert (Hin : p ∈ filter (fun p => p = g) pix) by (rewrite Hf; left).
  apply list_elem_of_filter in Hin as [-> Hin]. exact Hin.
Qed.

(** X15 (FlattenBackground).  Flattening keeps the size, the alpha plane and
    the dimensions of the raster and either leaves the pixels as they are or
    picks a tone, a gray at or above 0xC0 that occurs in the raster, and
    replaces by it exactly the pixels at or above the tone minus 24.  Pixels
    darker than 0xA8 are therefore always preserved, and a raster with no
    pixel at or above 0xC0, like a nil or empty one, is left unchanged. *)
Theorem X15_flatten_background (order : list byte) (g : GrayImage) :
  exists g',
    FlattenBackground order (Some g) = Some g'
    /\ alpha g' = alpha g /\ imgW g' = imgW g /\ imgH g' = imgH g
    /\ length (pix g') = length (pix g)
    /\ (pix g' = pix g
        \/ exists tone,
             tone ∈ pix g /\ 0xC0 <= byteZ tone
             /\ pix g' = map (fun p => if byteZ tone - 24 <=? byteZ p
                                       then tone else p) (pix g))
    /\ (forall i p, pix g !! i = Some p -> byteZ p < 0xA8 ->
                    pix g' !! i = Some p)
    /\ (Forall (fun p => byteZ p < 0xC0) (pix g) -> g' = g).
Proof.
  unfold FlattenBackground.
  destruct (lenZ (pix g) =? 0).
  { exists g. repeat split; auto. }
  pose proof (flatten_scan_spec (pix g) order) as Hscan.
  destruct (flatten_scan (pix g) order) as [tone cnt].
  destruct (Z.leb_spec cnt 0) as [Hle|Hpos].
  { exists g. repeat split; auto. }
  destruct Hscan as [?|[Htone Hcnt]]; [lia|].
  assert (Hin : tone ∈ pix g) by (apply hist_count_pos; lia).
  destruct (Z.ltb_spec (byteZ tone - 24) 0) as [?|_]; [lia|].
  assert (Hmap : map (fun p => if byteZ p >=? byteZ tone - 24 then tone else p)
                   (pix g)
                 = map (fun p => if byteZ tone - 24 <=? byteZ p then tone else p)
                     (pix g)).
  { apply map_ext. intros p. now rewrite Z.geb_leb. }
  rewrite Hmap.
  eexists. split; [reflexivity|]. cbn [pix alpha imgW imgH].
  split; [reflexivity|]. split; [reflexivity|]. split; [reflexivity|].
  split; [apply length_map|]. split; [|split].
  - right. exists tone. now repeat split.
  - intros i p Hp Hdark. rewrite list_lookup_fmap, Hp. cbn.
    destruct (Z.leb_spec (byteZ tone - 24) (byteZ p)); [lia|reflexivity].
  - intros Hall. exfalso. rewrite Forall_forall in Hall.
    specialize (Hall tone Hin). lia.
Qed.

Example flatten_background_example :
  FlattenBackground [xfe; x9d; xf0]
    (Some (mkGrayImage [xfe; xf0; x9d; xfe; xe0] None 5 1))
  = Some (mkGrayImage [xfe; xfe; x9d; xfe; xe0] None 5 1).
Proof. vm_compute. reflexivity. Qed.

(** X16 (pixel access).  On a raster whose planes hold W*H bytes each, [At]
    never indexes out of range: inside the bounds it returns the gray of the
    pixel in all three colour channels together with its alpha, outside the
    bounds the zero gray.  [SetPix] inside the pixel plane changes that pixel
    alone, and outside it changes nothing. *)
Theorem X16_pixel_access (p a : list byte) (w h : Z) :
  0 <= w -> w * h <= max_int -> lenZ p = w * h -> lenZ a = w * h ->
  let g := mkGrayImage p (Some a) w h in
  (forall x y, 0 <= x < w -> 0 <= y < h ->
     exists v av,
       p !! Z.to_nat (y * w + x) = Some v
       /\ a !! Z.to_nat (y * w + x) = Some av
       /\ At g x y = Some (NRGBA v v v av))
  /\ (forall x y, ~ (0 <= x < w /\ 0 <= y < h) -> At g x y = Some (Gray x00))
  /\ (forall i v, 0 <= i < w * h ->
        pix (SetPix g i v) !! Z.to_nat i = Some v
        /\ (forall j, j <> Z.to_nat i ->
              pix (SetPix g i v) !! j = p !! j)
        /\ alpha (SetPix g i v) = Some a)
  /\ (forall i v, ~ (0 <= i < w * h) -> SetPix g i v = g).
Proof.
  intros Hw Hmax Hp Ha g. subst g. split; [|split; [|split]].
  - intros x y Hx Hy. unfold At. cbn [imgW imgH alpha pix].
    destruct (Z.ltb_spec x 0); [lia|]. destruct (Z.ltb_spec y 0); [lia|].
    destruct (Z.geb_spec x w); [lia|]. destruct (Z.geb_spec y h); [lia|].
    cbn [orb].
    assert (Hrow : 0 <= y * w <= w * h) by nia.
    assert (Hidx : 0 <= y * w + x < w * h) by nia.
    rewrite (int_wrap_small (y * w)) by lia.
    rewrite (int_wrap_small (y * w + x)) by lia.
    destruct (Z.ltb_spec (y * w + x) (lenZ a)); [|lia].
    unfold index_checked.
    destruct (Z.ltb_spec (y * w + x) 0); [lia|].
    destruct (lookup_lt_is_Some_2 p (Z.to_nat (y * w + x))) as [v Hv];
      [unfold lenZ in Hp; lia|].
    destruct (lookup_lt_is_Some_2 a (Z.to_nat (y * w + x))) as [av Hav];
      [unfold lenZ in Ha; lia|].
    exists v, av. rewrite Hv, Hav. now repeat split.
  - intros x y Hout. unfold At. cbn [imgW imgH].
    destruct (Z.ltb_spec x 0); [reflexivity|].
    destruct (Z.ltb_spec y 0); [reflexivity|].
    destruct (Z.geb_spec x w); [reflexivity|].
    destruct (Z.geb_spec y h); [reflexivity|]. lia.
  - intros i v Hi. unfold SetPix. cbn [pix alpha imgW imgH].
    destruct (Z.geb_spec i 0); [|lia].
    destruct (Z.ltb_spec i (lenZ p)); [|lia]. cbn [andb pix alpha].
    split; [|split; [|reflexivity]].
    + apply list_lookup_insert_eq. unfold lenZ in *. lia.
    + intros j Hj. now apply list_lookup_insert_ne.
  - intros i v Hout. unfold SetPix. cbn [pix].
    destruct (Z.geb_spec i 0); destruct (Z.ltb_spec i (lenZ p));
      try reflexivity. lia.
Qed.

Lemma X16_pixel_access_witness :
  exists v av,
    [x00; x9d; xfe; xff] !! Z.to_nat (1 * 2 + 0) = Some v
    /\ [xff; xff; xff; x00] !! Z.to_nat (1 * 2 + 0) = Some av
    /\ At (mkGrayImage [x00; x9d; xfe; xff] (Some [xff; xff; xff; x00]) 2 2) 0 1
       = Some (NRGBA v v v av).
Proof.
  destruct (X16_pixel_access [x00; x9d; xfe; xff] [xff; xff; xff; x00] 2 2)
    as (Hat & _); [lia | unfold max_int; lia | reflexivity | reflexivity |].
  apply Hat; lia.
Defined.

(** ** How many pixels a payload can give *)

Lemma emitted_le_length (n remain : Z) :
  0 <= n -> Z.of_nat (emitted n remain) <= n.
Proof. unfold emitted. lia. Qed.

Lemma holder_shift_range (l1 : byte) :
  128 <= byteZ l1 -> l1 <> lenMark ->
  128 <= Z.shiftl (holder_unit l1) 7 <= 16256.
Proof.
  intros Hhigh Hns.
  assert (Hr : 128 <= byteZ l1 < 255).
  { pose proof (byteZ_range l1). split; [assumption|].
    destruct (Z.eq_dec (byteZ l1) 255) as [H255|]; [|lia].
    exfalso. apply Hns. apply byte_eqb_eq.
    rewrite lenMark_spec. now apply Z.eqb_eq. }
  unfold holder_unit. change 0x7f with (Z.ones 7).
  rewrite Z.land_ones by lia. rewrite Z.shiftl_mul_pow2 by lia.
  change (2 ^ 7) with 128.
  assert (byteZ l1 mod 128 = byteZ l1 - 128).
  { symmetry. apply (Z.mod_unique_pos _ _ 1); lia. }
  lia.
Qed.

Section Budget.

Variable getenv : string → string.
Variables expected w : Z.
Variable allBlank : bool.
Hypothesis w_pos : 0 < w.
Hypothesis fix_bg_off : getenv "RLE_FIX_BG"%string <> "1"%string.

Lemma specialLen_range (color : byte) :
  0 <= specialLen getenv w allBlank color <= 16384.
Proof.
  unfold specialLen, longLen. apply String.eqb_neq in fix_bg_off.
  rewrite fix_bg_off. cbn [andb]. destruct allBlank; lia.
Qed.

Lemma rle_fresh_budget (color length : byte) (st st' : rleState) :
  haveHolder st = false ->
  rle_fresh getenv expected w allBlank color length st = Some st' ->
  holder_ok st'
  /\ lenZ (out st') + holder_credit st' <= lenZ (out st) + 16384.
Proof.
  intros Hno Hrun. pose proof (byteZ_range length) as Hl.
  pose proof (lenZ_nonneg (out st)) as Hnn.
  destruct (pair_kind length) as [Hs | [[Hns Hh] | Hn]].
  - rewrite rle_fresh_sentinel in Hrun by assumption.
    assert (st' = RleState
              (out st ++ replicate
                 (emitted (specialLen getenv w allBlank color)
                    (expected - lenZ (out st))) (gray_of color))
              (haveHolder st) (holdColor st) (holdLen st)) as -> by congruence.
    unfold holder_credit, holder_ok. cbn [out haveHolder holdLen]. rewrite Hno.
    split; [discriminate|].
    rewrite lenZ_app, lenZ_replicate.
    pose proof (specialLen_range color) as Hsp.
    pose proof (emitted_le_length (specialLen getenv w allBlank color)
                  (expected - lenZ (out st)) ltac:(lia)). lia.
  - rewrite rle_fresh_holder in Hrun by assumption.
    assert (st' = RleState (out st) true color length) as -> by congruence.
    unfold holder_credit, holder_ok. cbn [out haveHolder holdLen].
    split; [now split | lia].
  - rewrite rle_fresh_normal in Hrun by assumption.
    assert (st' = RleState
              (out st ++ replicate
                 (emitted (byteZ length + 1) (expected - lenZ (out st)))
                 (gray_of color))
              (haveHolder st) (holdColor st) (holdLen st)) as -> by congruence.
    unfold holder_credit, holder_ok. cbn [out haveHolder holdLen]. rewrite Hno.
    split; [discriminate|].
    rewrite lenZ_app, lenZ_replicate.
    pose proof (emitted_le_length (byteZ length + 1)
                  (expected - lenZ (out st)) ltac:(lia)). lia.
Qed.

(** A pair adds at most 16384 to the pixels written plus the credit of the
    pending holder. *)
Lemma rle_pair_budget (color length : byte) (st st' : rleState) :
  holder_ok st ->
  rle_pair getenv expected w allBlank color length st = Some st' ->
  holder_ok st'
  /\ lenZ (out st') + holder_credit st'
     <= lenZ (out st) + holder_credit st + 16384.
Proof.
  destruct st as [o hh hc hl]. intros Hok Hrun.
  pose proof (byteZ_range length) as Hl.
  destruct hh.
  - destruct (Hok eq_refl) as [Hhigh Hns]. cbn [holdLen] in Hhigh, Hns.
    pose proof (holder_shift_range hl Hhigh Hns) as Hu.
    destruct (byte_eq_dec color hc) as [->|Hne].
    + rewrite rle_pair_merge in Hrun by assumption.
      assert (st' = RleState
                (o ++ replicate
                   (emitted (1 + byteZ length + Z.shiftl (holder_unit hl) 7)
                      (expected - lenZ o)) (gray_of hc))
                false hc hl) as -> by congruence.
      unfold holder_credit, holder_ok. cbn [out haveHolder].
      split; [discriminate|].
      rewrite lenZ_app, lenZ_replicate.
      pose proof (emitted_le_length
                    (1 + byteZ length + Z.shiftl (holder_unit hl) 7)
                    (expected - lenZ o) ltac:(lia)). lia.
    + rewrite rle_pair_flush in Hrun by assumption.
      rewrite rle_pair_no_holder in Hrun.
      apply rle_fresh_budget in Hrun; [|reflexivity].
      destruct Hrun as [Hok' Hrun]. split; [assumption|].
      cbn [out] in Hrun. rewrite lenZ_app, lenZ_replicate in Hrun.
      unfold holder_credit at 2. cbn [out haveHolder].
      pose proof (emitted_le_length (1 + Z.shiftl (holder_unit hl) 7)
                    (expected - lenZ o) ltac:(lia)). lia.
  - rewrite rle_pair_no_holder in Hrun.
    apply rle_fresh_budget in Hrun; [|reflexivity].
    destruct Hrun as [Hok' Hrun]. split; [assumption|].
    unfold holder_credit at 2. cbn [out haveHolder] in *. lia.
Qed.

Lemma rle_loop_budget (data : list byte) :
  forall st st',
    holder_ok st ->
    rle_loop getenv expected w allBlank data st = Some st' ->
    holder_ok st'
    /\ lenZ (out st') + holder_credit st'
       <= lenZ (out st) + holder_credit st + 16384 * (lenZ data / 2).
Proof.
  induction data as [| x | color length rest IH] using list_pair_ind;
    intros st st' Hok Hrun.
  - cbn in Hrun. assert (st' = st) as -> by congruence.
    change (lenZ [] / 2) with 0. split; [assumption|lia].
  - cbn in Hrun. assert (st' = st) as -> by congruence.
    change (lenZ [x] / 2) with 0. split; [assumption|lia].
  - assert (Hlen : lenZ (color :: length :: rest) / 2 = 1 + lenZ rest / 2).
    { unfold lenZ. cbn [List.length].
      replace (Z.of_nat (S (S (List.length rest))))
        with (Z.of_nat (List.length rest) + 1 * 2) by lia.
      rewrite Z.div_add by lia. lia. }
    rewrite Hlen.
    assert (Hrest : 0 <= lenZ rest / 2)
      by (apply Z.div_pos; [apply lenZ_nonneg | lia]).
    cbn [rle_loop] in Hrun.
    destruct (lenZ (out st) <? expected).
    + destruct (rle_pair getenv expected w allBlank color length st)
        as [st1|] eqn:Hpair; [|discriminate].
      cbn [mbind option_bind] in Hrun.
      apply rle_pair_budget in Hpair; [|assumption].
      destruct Hpair as [Hok1 Hpair].
      apply IH in Hrun; [|assumption]. destruct Hrun as [Hok' Hrun].
      split; [assumption|lia].
    + assert (st' = st) as -> by congruence. split; [assumption|lia].
Qed.

Lemma rle_tail_budget (st : rleState) (o : list byte) :
  holder_ok st ->
  lenZ (out st) <= expected ->
  rle_tail expected w st = Some o ->
  lenZ o <= lenZ (out st) + holder_credit st.
Proof.
  destruct st as [o0 hh hc hl]. cbn [out]. intros Hok Hb Hrun.
  unfold holder_credit. cbn [haveHolder].
  destruct hh.
  - destruct (Hok eq_refl) as [Hhigh Hns]. cbn [holdLen] in Hhigh, Hns.
    destruct (Z_lt_ge_dec (lenZ o0) expected) as [Hlt|Hge].
    + rewrite rle_tail_holder in Hrun by assumption.
      assert (o = o0 ++ replicate
                (Z.to_nat (tail_search hl (expected - lenZ o0) tail_bits))
                (gray_of hc)) as -> by congruence.
      rewrite lenZ_app, lenZ_replicate.
      pose proof (tail_search_le_unit hl (expected - lenZ o0)).
      pose proof (holder_shift_range hl Hhigh Hns).
      pose proof (tail_search_bounds hl (expected - lenZ o0) tail_bits
                    ltac:(lia)). lia.
    + unfold rle_tail in Hrun. cbn [haveHolder out andb] in Hrun.
      destruct (Z.ltb_spec (lenZ o0) expected); [lia|].
      assert (o = o0) as -> by congruence. lia.
  - unfold rle_tail in Hrun. cbn [haveHolder out andb] in Hrun.
    assert (o = o0) as -> by congruence. lia.
Qed.

End Budget.

(** X17 (payload size).  With RLE_FIX_BG unset, a payload decodes to at most
    16384 pixels per pair of bytes: when the decoder returns a complete
    raster for dimensions in range, W*H is at most 16384 times half the
    payload length, and a mismatch reports a produced count within the same
    bound. *)
Theorem X17_payload_bound (getenv : string → string) (data : list byte)
    (w h : Z) (allBlank horiz : bool) :
  getenv "RLE_FIX_BG"%string <> "1"%string ->
  0 <= w -> 0 <= h -> w * h <= max_int ->
  match decodeRattaRLERef getenv data w h allBlank horiz with
  | Some (RleOk pix _ _) =>
      lenZ pix = w * h /\ w * h <= 16384 * (lenZ data / 2)
  | Some (RleMismatch produced _) => produced <= 16384 * (lenZ data / 2)
  | None => False
  end.
Proof.
  intros Henv Hw Hh Hmax. unfold decodeRattaRLERef.
  set (w' := if horiz then h else w). set (h' := if horiz then w else h).
  assert (Hdims : (if horiz then (h, w) else (w, h)) = (w', h'))
    by (unfold w', h'; now destruct horiz).
  rewrite Hdims.
  assert (Hprod : w' * h' = w * h) by (unfold w', h'; destruct horiz; lia).
  assert (Hw' : 0 <= w') by (unfold w'; now destruct horiz).
  assert (Hh' : 0 <= h') by (unfold h'; now destruct horiz).
  assert (Hpairs : 0 <= lenZ data / 2)
    by (apply Z.div_pos; [apply lenZ_nonneg | lia]).
  rewrite Hprod, int_wrap_small by nia.
  destruct (Z.ltb_spec (w * h) 0) as [?|_]; [nia|].
  destruct (Z.eq_dec (w * h) 0) as [Hz|Hnz].
  - rewrite Hz. rewrite rle_loop_full by reflexivity. cbn.
    split; [reflexivity|lia].
  - assert (Hpos : 0 < w') by nia.
    destruct (rle_loop_bounded getenv (w * h) w' allBlank Hpos data
                (RleState [] false x00 x00)) as (st & Hloop & Hst);
      [simpl; unfold lenZ; simpl; nia|].
    rewrite Hloop. cbn -[rle_tail].
    destruct (rle_tail_bounded (w * h) w' st Hpos Hst) as (o & Htail & Ho).
    rewrite Htail. cbn.
    apply (rle_loop_budget getenv (w * h) w' allBlank Hpos Henv) in Hloop;
      [|discriminate].
    destruct Hloop as [Hok Hloop].
    apply (rle_tail_budget (w * h) w' Hpos) in Htail; [|assumption..].
    unfold holder_credit at 2 in Hloop. cbn [out haveHolder] in Hloop.
    change (lenZ []) with 0 in Hloop.
    assert (Hcredit : 0 <= holder_credit st)
      by (unfold holder_credit; destruct (haveHolder st); lia).
    destruct (Z.eqb_spec (lenZ o) (w * h)) as [Heq|Hne]; cbn; lia.
Qed.

(** X17 at a two-pair payload for a 1404x1872 page: it cannot fill the
    page. *)
Lemma X17_payload_bound_witness :
  match decodeRattaRLERef (fun _ => EmptyString) [x62; xff; x62; xff]
          1404 1872 false false with
  | Some (RleOk pix _ _) =>
      lenZ pix = 1404 * 1872
      /\ 1404 * 1872 <= 16384 * (lenZ [x62; xff; x62; xff] / 2)
  | Some (RleMismatch produced _) =>
      produced <= 16384 * (lenZ [x62; xff; x62; xff] / 2)
  | None => False
  end.
Proof.
  apply (X17_payload_bound (fun _ => EmptyString) [x62; xff; x62; xff]
           1404 1872 false false).
  - discriminate.
  - lia.
  - lia.
  - unfold max_int. lia.
Defined.

(** The bound is reached: sentinel pairs give 16384 pixels each. *)
Example payload_bound_tight :
  match decodeRattaRLERef (fun _ => EmptyString) [x61; xff; x62; xff]
          32768 1 false false with
  | Some (RleOk pix _ _) => lenZ pix =? 16384 * 2
  | _ => false
  end = true.
Proof. vm_compute. reflexivity. Qed.

(** ** Metadata blocks *)

Lemma string_app_nil (s : string) : EmptyString +:+ s = s.
Proof. reflexivity. Qed.

Lemma string_app_cons (a : ascii) (k s : string) :
  String a k +:+ s = String a (k +:+ s).
Proof. reflexivity. Qed.

Lemma string_length_app (s1 s2 : string) :
  String.length (s1 +:+ s2) = (String.length s1 + String.length s2)%nat.
Proof.
  induction s1 as [|a s1 IH]; [reflexivity|].
  rewrite string_app_cons. cbn [String.length]. now rewrite IH.
Qed.

Lemma meta_span_clean (k rest : string) :
  meta_clean k = true ->
  match rest with
  | String c _ => meta_delim c = true
  | EmptyString => True
  end ->
  meta_span (k +:+ rest) = (k, rest).
Proof.
  intros Hk Hrest. induction k as [|a k IH].
  - rewrite string_app_nil. destruct rest as [|c r]; [reflexivity|].
    cbn [meta_span]. now rewrite Hrest.
  - cbn [meta_clean] in Hk. apply andb_true_iff in Hk as [Ha Hk].
    apply negb_true_iff in Ha.
    rewrite string_app_cons. cbn [meta_span].
    rewrite Ha, (IH Hk). reflexivity.
Qed.

(** What the greedy class match splits off. *)
Lemma meta_span_spec (s k r : string) :
  meta_span s = (k, r) ->
  s = k +:+ r /\ meta_clean k = true
  /\ (String.length r <= String.length s)%nat.
Proof.
  revert k r. induction s as [|a s IH]; intros k r Hspan.
  - cbn in Hspan. injection Hspan as <- <-. now repeat split.
  - cbn [meta_span] in Hspan. destruct (meta_delim a) eqn:Ha.
    + injection Hspan as <- <-. now repeat split.
    + destruct (meta_span s) as [k' r'] eqn:Hs.
      injection Hspan as <- <-.
      destruct (IH k' r' eq_refl) as (-> & Hk & Hlen).
      rewrite string_app_cons. cbn [meta_clean String.length].
      rewrite Ha, Hk. split; [reflexivity|]. split; [reflexivity|]. lia.
Qed.

(** A match gives a well-formed entry and leaves a shorter string. *)
Lemma meta_match_spec (s k v rest : string) :
  meta_match s = Some (k, v, rest) ->
  s = render_entry (k, v) rest /\ entry_ok (k, v)
  /\ (String.length rest < String.length s)%nat.
Proof.
  unfold meta_match. destruct s as [|a r]; [discriminate|].
  destruct (Ascii.eqb_spec a "<") as [->|]; [|discriminate].
  destruct (meta_span r) as [k0 r1] eqn:Hk.
  destruct k0 as [|a0 k0]; [discriminate|].
  destruct r1 as [|c r2]; [discriminate|].
  destruct (Ascii.eqb_spec c ":") as [->|]; [|discriminate].
  destruct (meta_span r2) as [v0 r3] eqn:Hv.
  destruct r3 as [|d r4]; [discriminate|].
  destruct (Ascii.eqb_spec d ">") as [->|]; [|discriminate].
  intros Hm. injection Hm as <- <- <-.
  destruct (meta_span_spec _ _ _ Hk) as (-> & Hkc & Hlk).
  destruct (meta_span_spec _ _ _ Hv) as (-> & Hvc & Hlv).
  unfold render_entry, entry_ok. cbn [fst snd].
  repeat split; try assumption; try discriminate.
  cbn [String.length] in *. lia.
Qed.

Lemma meta_match_render (kv : string * string) (s : string) :
  entry_ok kv -> meta_match (render_entry kv s) = Some (kv.1, kv.2, s).
Proof.
  destruct kv as [k v]. intros (Hne & Hk & Hv). cbn [fst snd] in *.
  unfold render_entry, meta_match. cbn [fst snd].
  rewrite Ascii.eqb_refl.
  rewrite (meta_span_clean k (String ":" (v +:+ String ">" s)) Hk)
    by reflexivity.
  destruct k as [|a k]; [contradiction|].
  rewrite Ascii.eqb_refl.
  rewrite (meta_span_clean v (String ">" s) Hv) by reflexivity.
  now rewrite Ascii.eqb_refl.
Qed.

(** The steps of [meta_find_all] never run out: more than the length of the
    string changes nothing. *)
Lemma meta_find_all_fuel (n : nat) :
  forall (m : nat) (s : string),
    (String.length s <= n)%nat -> (String.length s <= m)%nat ->
    meta_find_all n s = meta_find_all m s.
Proof.
  induction n as [|n IH]; intros m s Hn Hm.
  - destruct s; [|cbn in Hn; lia]. now destruct m.
  - destruct m as [|m].
    + destruct s; [reflexivity | cbn in Hm; lia].
    + cbn [meta_find_all]. destruct s as [|a r]; [reflexivity|].
      cbn [String.length] in Hn, Hm.
      destruct (meta_match (String a r)) as [[[k v] rest]|] eqn:Hmatch.
      * apply meta_match_spec in Hmatch as (_ & _ & Hlen).
        cbn [String.length] in Hlen. f_equal. apply IH; lia.
      * apply IH; lia.
Qed.

Lemma render_entry_length (kv : string * string) (s : string) :
  (String.length s < String.length (render_entry kv s))%nat.
Proof.
  unfold render_entry. cbn [String.length].
  rewrite string_length_app. cbn [String.length].
  rewrite string_length_app. cbn [String.length]. lia.
Qed.

(** Scanning a rendered block gives back its entries. *)
Lemma meta_find_all_render (kvs : list (string * string)) :
  Forall entry_ok kvs ->
  forall n, (String.length (render_meta kvs) <= n)%nat ->
  meta_find_all n (render_meta kvs) = kvs.
Proof.
  induction 1 as [|kv kvs Hkv _ IH]; intros n Hn.
  - destruct n; reflexivity.
  - cbn [render_meta fold_right] in *. fold (render_meta kvs) in *.
    pose proof (render_entry_length kv (render_meta kvs)) as Hlen.
    destruct n as [|n]; [lia|].
    cbn [meta_find_all].
    rewrite (meta_match_render kv _ Hkv).
    unfold render_entry at 1.
    rewrite IH by lia. now destruct kv.
Qed.

(** Every entry found is well formed. *)
Lemma meta_find_all_ok (n : nat) :
  forall s, Forall entry_ok (meta_find_all n s).
Proof.
  induction n as [|n IH]; intros s; [constructor|].
  cbn [meta_find_all]. destruct s as [|a r]; [constructor|].
  destruct (meta_match (String a r)) as [[[k v] rest]|] eqn:Hmatch.
  - apply meta_match_spec in Hmatch as (_ & Hok & _).
    constructor; [assumption | apply IH].
  - apply IH.
Qed.

(** The first entry under a key wins. *)
Lemma param_insert_fold (kvs : list (string * string)) :
  forall (m : gmap string string) (k : string),
    fold_left param_insert kvs m !! k
    = match m !! k with
      | Some v => Some v
      | None => first_value kvs k
      end.
Proof.
  induction kvs as [|[k0 v0] kvs IH]; intros m k.
  - cbn. now destruct (m !! k).
  - cbn [fold_left first_value fst snd]. rewrite IH.
    unfold param_insert. cbn [fst snd].
    destruct (String.eqb_spec k0 k) as [->|Hne].
    + destruct (m !! k) eqn:Hm; [now rewrite Hm|].
      now rewrite lookup_insert_eq.
    + destruct (m !! k0) eqn:Hm0; [reflexivity|].
      now rewrite lookup_insert_ne.
Qed.

Lemma first_value_elem (kvs : list (string * string)) (k v : string) :
  first_value kvs k = Some v -> (k, v) ∈ kvs.
Proof.
  induction kvs as [|[k0 v0] kvs IH]; [discriminate|].
  cbn [first_value fst snd].
  destruct (String.eqb_spec k0 k) as [->|_].
  - intros [= ->]. left.
  - intros H. right. now apply IH.
Qed.

Lemma parseParams_render (kvs : list (string * string)) (k : string) :
  Forall entry_ok kvs ->
  parseParams (render_meta kvs) !! k = first_value kvs k.
Proof.
  intros Hok. unfold parseParams.
  rewrite (meta_find_all_render kvs Hok) by lia.
  rewrite param_insert_fold. now rewrite lookup_empty.
Qed.

(** X18 (metadata round trip).  Parsing the block [<k1:v1><k2:v2>...] of
    entries with non-empty keys, keys and values free of [:], [<] and [>],
    gives back the entries: the map holds under every key the value of the
    first entry with that key, and nothing under any other key. *)
Theorem X18_parseParams_round_trip (kvs : list (string * string))
    (k : string) :
  Forall entry_ok kvs ->
  parseParams (render_meta kvs) !! k = first_value kvs k.
Proof. apply parseParams_render. Qed.

Lemma X18_parseParams_round_trip_witness :
  parseParams
    (render_meta [("LAYERPROTOCOL", "RATTA_RLE"); ("LAYERBITMAP", "1024");
                  ("LAYERPROTOCOL", "PNG")])
  !! "LAYERPROTOCOL"
  = first_value [("LAYERPROTOCOL", "RATTA_RLE"); ("LAYERBITMAP", "1024");
                 ("LAYERPROTOCOL", "PNG")] "LAYERPROTOCOL".
Proof.
  apply (X18_parseParams_round_trip
           [("LAYERPROTOCOL", "RATTA_RLE"); ("LAYERBITMAP", "1024");
            ("LAYERPROTOCOL", "PNG")] "LAYERPROTOCOL").
  repeat constructor; discriminate.
Defined.

Lemma string_app_assoc (s1 s2 s3 : string) :
  (s1 +:+ s2) +:+ s3 = s1 +:+ (s2 +:+ s3).
Proof.
  induction s1 as [|a s1 IH]; [reflexivity|].
  rewrite !string_app_cons. now rewrite IH.
Qed.

Lemma render_entry_app (kv : string * string) (s t : string) :
  render_entry kv (s +:+ t) = render_entry kv s +:+ t.
Proof.
  unfold render_entry. rewrite string_app_cons. f_equal.
  rewrite string_app_assoc, string_app_cons. do 2 f_equal.
  now rewrite string_app_assoc, string_app_cons.
Qed.

(** Every entry found stands in the text. *)
Lemma meta_find_all_elem (n : nat) :
  forall (s : string) (kv : string * string),
    kv ∈ meta_find_all n s ->
    exists before after, s = before +:+ render_entry kv after.
Proof.
  induction n as [|n IH]; intros s kv Hin; [cbn in Hin; inversion Hin|].
  cbn [meta_find_all] in Hin. destruct s as [|a r]; [inversion Hin|].
  destruct (meta_match (String a r)) as [[[k0 v0] rest]|] eqn:Hmatch.
  - apply meta_match_spec in Hmatch as (Hs & _ & _).
    apply elem_of_cons in Hin as [->|Hin].
    + exists EmptyString, rest. now rewrite string_app_nil.
    + destruct (IH rest kv Hin) as (b & t & ->).
      exists (render_entry (k0, v0) b), t.
      now rewrite Hs, render_entry_app.
  - destruct (IH r kv Hin) as (b & t & ->).
    exists (String a b), t. now rewrite string_app_cons.
Qed.

(** A text without [<] has no entry. *)
Lemma meta_find_all_none (n : nat) :
  forall s : string,
    (forall before after, s <> before +:+ String "<" after) ->
    meta_find_all n s = [].
Proof.
  induction n as [|n IH]; intros s Hno; [reflexivity|].
  cbn [meta_find_all]. destruct s as [|a r]; [reflexivity|].
  assert (Hmatch : meta_match (String a r) = None).
  { unfold meta_match. destruct (Ascii.eqb_spec a "<") as [->|]; [|reflexivity].
    exfalso. apply (Hno EmptyString r). now rewrite string_app_nil. }
  rewrite Hmatch. apply IH. intros b t ->.
  apply (Hno (String a b) t). now rewrite string_app_cons.
Qed.

(** X19 (metadata entries).  Whatever the text, every key of the map that
    [parseParams] returns is non-empty, neither a key nor a value holds
    [:], [<] or [>], and each entry of the map stands in the text as
    [<key:value>].  A text without [<] gives the empty map. *)
Theorem X19_parseParams_entries (s k v : string) :
  (parseParams s !! k = Some v ->
   entry_ok (k, v)
   /\ exists before after, s = before +:+ render_entry (k, v) after)
  /\ ((forall before after, s <> before +:+ String "<" after) ->
      parseParams s = ∅).
Proof.
  unfold parseParams. split.
  - rewrite param_insert_fold, lookup_empty. intros Hfirst.
    apply first_value_elem in Hfirst. split.
    + pose proof (meta_find_all_ok (String.length s) s) as Hok.
      rewrite Forall_forall in Hok. now apply Hok.
    + now apply (meta_find_all_elem (String.length s)).
  - intros Hno. now rewrite meta_find_all_none.
Qed.

Example parseParams_example :
  parseParams "junk<A:1><:x><B:><A:2>< C:3 ><D:4:5><E>"
  = <["A" := "1"]> (<["B" := EmptyString]> (<[" C" := "3 "]> ∅)).
Proof. vm_compute. reflexivity. Qed.

(** ** The notebook parser *)

Section ParserFacts.

Variable getenv : string → string.
Variable parseInt : string → Z.

(** The sorted addresses do not depend on the order of the iteration. *)
Lemma pageAddrs_order (rangeOrder : list (string * string) →
                                    list (string * string))
    (footer : gmap string string) :
  (forall l, rangeOrder l ≡ₚ l) ->
  pageAddrs parseInt rangeOrder footer
  = pageAddrs parseInt (fun l => l) footer.
Proof.
  intros Hperm. unfold pageAddrs.
  apply (Sorted_unique Z.le).
  - apply Sorted_merge_sort; apply _.
  - apply Sorted_merge_sort; apply _.
  - rewrite !merge_sort_Permutation. now rewrite Hperm.
Qed.

Lemma Parse_order (rangeOrder : list (string * string) →
                                list (string * string))
    (file : list byte) :
  (forall l, rangeOrder l ≡ₚ l) ->
  Parse getenv parseInt rangeOrder file
  = Parse getenv parseInt (fun l => l) file.
Proof.
  intros Hperm. unfold Parse.
  destruct (sig_find _); [|reflexivity].
  destruct (lenZ file <? addressSize); [reflexivity|].
  destruct (read_u32 _ _); [|reflexivity].
  destruct (readMeta _ _) as [footer|]; [|reflexivity].
  now rewrite (pageAddrs_order rangeOrder footer Hperm).
Qed.

End ParserFacts.

(** X20 (page order).  The result of [Parse], notebook or error, does not
    depend on the order in which the iteration over the footer map yields
    its entries. *)
Theorem X20_Parse_order_independent (getenv : string → string)
    (parseInt : string → Z)
    (order1 order2 : list (string * string) → list (string * string))
    (file : list byte) :
  (forall l, order1 l ≡ₚ l) -> (forall l, order2 l ≡ₚ l) ->
  Parse getenv parseInt order1 file = Parse getenv parseInt order2 file.
Proof.
  intros H1 H2.
  rewrite (Parse_order getenv parseInt order1 file H1).
  now rewrite (Parse_order getenv parseInt order2 file H2).
Qed.

Lemma X20_Parse_order_independent_witness :
  Parse (fun _ => EmptyString) parseInt10 (fun l => l) two_page_file
  = Parse (fun _ => EmptyString) parseInt10 reverse two_page_file.
Proof.
  apply (X20_Parse_order_independent (fun _ => EmptyString) parseInt10
           (fun l => l) reverse two_page_file).
  - reflexivity.
  - intros l. apply reverse_Permutation.
Defined.

Lemma sig_match_spec (s m : list byte) :
  sig_match s = Some m ->
  take 12 m = sig_prefix /\ length m = 20%nat
  /\ Forall (fun b => is_digit b = true) (drop 12 m).
Proof.
  unfold sig_match.
  destruct (bool_decide (take 12 s = sig_prefix)) eqn:Hpre; [|discriminate].
  destruct (bool_decide (length (take 8 (drop 12 s)) = 8%nat)) eqn:Hlen;
    [|discriminate].
  destruct (forallb is_digit (take 8 (drop 12 s))) eqn:Hdig; [|discriminate].
  cbn [andb]. intros [= <-].
  apply bool_decide_eq_true in Hpre, Hlen.
  rewrite length_take, length_drop in Hlen.
  split; [|split].
  - rewrite take_take. now replace (12 `min` 20)%nat with 12%nat by lia.
  - rewrite length_take. lia.
  - rewrite forallb_forall in Hdig. apply Forall_forall. intros b Hb.
    apply Hdig. apply list_elem_of_In.
    assert (Heq : drop 12 (take 20 s) = take 8 (drop 12 s)).
    { now rewrite take_drop_commute. }
    now rewrite <- Heq.
Qed.

Lemma sig_find_spec (s m : list byte) :
  sig_find s = Some m ->
  take 12 m = sig_prefix /\ length m = 20%nat
  /\ Forall (fun b => is_digit b = true) (drop 12 m).
Proof.
  induction s as [|b s IH]; cbn [sig_find].
  - destruct (sig_match []) eqn:Hm; [|discriminate].
    intros [= <-]. now apply sig_match_spec in Hm.
  - destruct (sig_match (b :: s)) eqn:Hm.
    + intros [= <-]. now apply sig_match_spec in Hm.
    + exact IH.
Qed.

(** X21 (parsed notebook).  When [Parse] returns a notebook, its signature
    is SN_FILE_VER_ followed by eight digits, its dimensions are 1404x1872,
    or 1920x2560 with SUPERNOTE_FORCE_HIRES set to 1, and its pages are the
    metadata blocks at the addresses under the footer keys that start with
    PAGE, one page per key, in ascending order of address whatever the
    keys. *)
Theorem X21_Parse_notebook (getenv : string → string)
    (parseInt : string → Z)
    (order : list (string * string) → list (string * string))
    (file : list byte) (sig : string) (footer : gmap string string)
    (nb : Notebook) :
  (forall l, order l ≡ₚ l) ->
  Parse getenv parseInt order file = inl (sig, footer, nb) ->
  (exists m, sig = String.string_of_list_byte m
             /\ take 12 m = sig_prefix /\ length m = 20%nat
             /\ Forall (fun b => is_digit b = true) (drop 12 m))
  /\ (nbW nb, nbH nb)
     = (if String.eqb (getenv "SUPERNOTE_FORCE_HIRES") "1"
        then (1920, 2560) else (1404, 1872))
  /\ exists addrs,
       Sorted Z.le addrs
       /\ addrs ≡ₚ map (fun kv => parseInt kv.2)
                     (filter (fun kv => String.prefix "PAGE" kv.1 = true)
                        (map_to_list footer))
       /\ Forall2 (fun a pm => readMeta file a = Some pm) addrs (Pages nb).
Proof.
  intros Hperm. unfold Parse.
  destruct (sig_find _) as [m|] eqn:Hsig; [|discriminate].
  destruct (lenZ file <? addressSize); [discriminate|].
  destruct (read_u32 _ _) as [footerAddr|]; [|discriminate].
  destruct (readMeta file footerAddr) as [footer0|]; [|discriminate].
  destruct (mapM (readMeta file) (pageAddrs parseInt order footer0))
    as [pages|] eqn:Hpages; [|discriminate].
  apply mapM_Some in Hpages.
  assert (Hsorted : Sorted Z.le (pageAddrs parseInt order footer0))
    by (apply Sorted_merge_sort; apply _).
  assert (Hp : pageAddrs parseInt order footer0
               ≡ₚ map (fun kv => parseInt kv.2)
                    (filter (fun kv => String.prefix "PAGE" kv.1 = true)
                       (map_to_list footer0))).
  { unfold pageAddrs, toInt64. rewrite merge_sort_Permutation.
    now rewrite Hperm. }
  apply sig_find_spec in Hsig.
  destruct (String.eqb (getenv "SUPERNOTE_FORCE_HIRES") "1");
    intros [= <- <- <-]; cbn [nbW nbH Pages];
    (split; [now exists m|]); (split; [reflexivity|]);
    now exists (pageAddrs parseInt order footer0).
Qed.

(** The two-page file parses; the page at the lower address comes first,
    though the footer names it PAGE2. *)
Example parse_two_page_file :
  Parse (fun _ => EmptyString) parseInt10 reverse two_page_file
  = inl ("SN_FILE_VER_20230015"%string,
         <["FILE_FEATURE" := "24"%string]>
           (<["PAGE1" := "65"%string]> (<["PAGE2" := "20"%string]> ∅)),
         mkNotebook 1404 1872
           [ <["PAGESTYLE" := "style_white"%string]>
               (<["ORIENTATION" := "1000"%string]> ∅);
             <["PAGESTYLE" := "style_8mm_ruled_line"%string]>
               (<["ORIENTATION" := "1090"%string]> ∅) ]).
Proof. vm_compute. reflexivity. Qed.

Lemma X21_Parse_notebook_witness :
  (exists m, "SN_FILE_VER_20230015"%string = String.string_of_list_byte m
             /\ take 12 m = sig_prefix /\ length m = 20%nat
             /\ Forall (fun b => is_digit b = true) (drop 12 m))
  /\ (1404, 1872)
     = (if String.eqb EmptyString "1" then (1920, 2560) else (1404, 1872))
  /\ exists addrs,
       Sorted Z.le addrs
       /\ addrs ≡ₚ map (fun kv => parseInt10 kv.2)
                     (filter (fun kv => String.prefix "PAGE" kv.1 = true)
                        (map_to_list
                           (<["FILE_FEATURE" := "24"%string]>
                              (<["PAGE1" := "65"%string]>
                                 (<["PAGE2" := "20"%string]> ∅)))))
       /\ Forall2 (fun a pm => readMeta two_page_file a = Some pm) addrs
            [ <["PAGESTYLE" := "style_white"%string]>
                (<["ORIENTATION" := "1000"%string]> ∅);
              <["PAGESTYLE" := "style_8mm_ruled_line"%string]>
                (<["ORIENTATION" := "1090"%string]> ∅) ].
Proof.
  apply (X21_Parse_notebook (fun _ => EmptyString) parseInt10 reverse
           two_page_file "SN_FILE_VER_20230015"
           (<["FILE_FEATURE" := "24"%string]>
              (<["PAGE1" := "65"%string]> (<["PAGE2" := "20"%string]> ∅)))
           (mkNotebook 1404 1872
              [ <["PAGESTYLE" := "style_white"%string]>
                  (<["ORIENTATION" := "1000"%string]> ∅);
                <["PAGESTYLE" := "style_8mm_ruled_line"%string]>
                  (<["ORIENTATION" := "1090"%string]> ∅) ])).
  - intros l. apply reverse_Permutation.
  - vm_compute. reflexivity.
Defined.

(** ** Reading metadata blocks from the file *)

Lemma byteZ_byte_of_Z (z : Z) : byteZ (byte_of_Z z) = z mod 256.
Proof.
  unfold byte_of_Z, byteZ.
  pose proof (Z.mod_pos_bound z 256 ltac:(lia)) as Hr.
  destruct (Byte.of_N (Z.to_N (z mod 256))) as [b|] eqn:Hb.
  - apply Byte.to_of_N in Hb. rewrite Hb. lia.
  - apply Byte.of_N_None_iff in Hb. lia.
Qed.

(** The little-endian read inverts the little-endian encoding. *)
Lemma read_u32_bytes (pre rest : list byte) (n : Z) :
  0 <= n < 2 ^ 32 ->
  read_u32 (pre ++ u32_bytes n ++ rest) (lenZ pre) = Some n.
Proof.
  intros Hn. unfold read_u32, lenZ. rewrite Nat2Z.id, drop_app_length.
  unfold u32_bytes. cbn [map app].
  rewrite !byteZ_byte_of_Z, !Z.mod_mod by lia.
  rewrite !Z.shiftr_div_pow2, !Z.shiftl_mul_pow2 by lia.
  change (8 * 0) with 0. change (8 * 1) with 8. change (8 * 2) with 16.
  change (8 * 3) with 24. change (2 ^ 0) with 1. change (2 ^ 8) with 256.
  change (2 ^ 16) with 65536. change (2 ^ 24) with 16777216.
  change (2 ^ 32) with 4294967296 in Hn.
  f_equal. Z.div_mod_to_equations. lia.
Qed.

Lemma read_full_block (pre body post : list byte) :
  read_full (pre ++ body ++ post) (lenZ pre) (lenZ body) = Some body.
Proof.
  unfold read_full, lenZ. rewrite !Nat2Z.id, drop_app_length.
  rewrite length_app.
  destruct (Z.leb_spec (Z.of_nat (length body))
              (Z.of_nat (length body + length post))) as [_|?]; [|lia].
  now rewrite take_app_length.
Qed.

(** X22 (metadata block round trip).  A metadata block, the 32-bit
    little-endian length followed by the entries [<key:value>], is read back
    by [readMeta] at the address where it starts, whatever stands before and
    after it in the file: the map holds under every key the value of the
    first entry with that key.  The address must not be 0, which [readMeta]
    answers with the empty map without reading the file. *)
Theorem X22_readMeta_round_trip (pre post : list byte)
    (kvs : list (string * string)) :
  pre <> [] ->
  Forall entry_ok kvs ->
  Z.of_nat (String.length (render_meta kvs)) < 2 ^ 32 ->
  (exists m,
      readMeta (pre ++ meta_block kvs ++ post) (lenZ pre) = Some m
      /\ forall k, m !! k = first_value kvs k)
  /\ readMeta (meta_block kvs ++ post) 0 = Some ∅.
Proof.
  intros Hpre Hok Hlen. split; [|reflexivity].
  unfold readMeta.
  assert (Hpos : 0 < lenZ pre).
  { unfold lenZ. destruct pre; [contradiction|cbn [length]; lia]. }
  destruct (Z.eqb_spec (lenZ pre) 0) as [?|_]; [lia|].
  unfold seek_start. destruct (Z.ltb_spec (lenZ pre) 0) as [?|_]; [lia|].
  cbn [mbind option_bind].
  unfold meta_block.
  set (body := String.list_byte_of_string (render_meta kvs)).
  assert (Hbody : lenZ body = Z.of_nat (String.length (render_meta kvs))).
  { unfold body, lenZ. f_equal.
    generalize (render_meta kvs). intros s.
    induction s as [|a s IH]; [reflexivity|].
    unfold String.list_byte_of_string in *. cbn [map String.list_ascii_of_string].
    cbn [length String.length]. now rewrite IH. }
  rewrite <- (app_assoc (u32_bytes (lenZ body))).
  rewrite read_u32_bytes by (pose proof (lenZ_nonneg body); lia).
  cbn [mbind option_bind].
  assert (Hsplit : pre ++ u32_bytes (lenZ body) ++ body ++ post
                   = (pre ++ u32_bytes (lenZ body)) ++ body ++ post)
    by now rewrite <- app_assoc.
  assert (Hoff : lenZ pre + 4 = lenZ (pre ++ u32_bytes (lenZ body)))
    by (rewrite lenZ_app; reflexivity).
  rewrite Hsplit, Hoff, read_full_block.
  cbn [mbind option_bind]. eexists. split; [reflexivity|].
  intros k. unfold body.
  rewrite String.string_of_list_byte_of_string.
  now apply parseParams_render.
Qed.

Lemma X22_readMeta_round_trip_witness :
  (exists m,
      readMeta (String.list_byte_of_string "SN_FILE_VER_20230015"
                ++ meta_block [("LAYERPROTOCOL", "RATTA_RLE");
                               ("LAYERBITMAP", "1024")] ++ [])
        (lenZ (String.list_byte_of_string "SN_FILE_VER_20230015")) = Some m
      /\ forall k, m !! k = first_value [("LAYERPROTOCOL", "RATTA_RLE");
                                         ("LAYERBITMAP", "1024")] k)
  /\ readMeta (meta_block [("LAYERPROTOCOL", "RATTA_RLE");
                           ("LAYERBITMAP", "1024")] ++ []) 0 = Some ∅.
Proof.
  apply (X22_readMeta_round_trip
           (String.list_byte_of_string "SN_FILE_VER_20230015") []
           [("LAYERPROTOCOL", "RATTA_RLE"); ("LAYERBITMAP", "1024")]).
  - discriminate.
  - repeat constructor; discriminate.
  - vm_compute. reflexivity.
Defined.

Lemma read_u32_short (file : list byte) (pos : Z) :
  0 <= pos -> lenZ file - 4 < pos -> read_u32 file pos = None.
Proof.
  intros Hpos Hshort. unfold read_u32.
  pose proof (length_drop file (Z.to_nat pos)) as Hlen.
  unfold lenZ in Hshort.
  destruct (drop (Z.to_nat pos) file) as [|b0 [|b1 [|b2 [|b3 rest]]]];
    try reflexivity.
  cbn [length] in Hlen. lia.
Qed.

Lemma readMeta_unreadable (file : list byte) (addr : Z) :
  addr < 0 \/ (0 < addr /\ lenZ file - 4 < addr) ->
  readMeta file addr = None.
Proof.
  intros Hbad. unfold readMeta, seek_start.
  destruct (Z.eqb_spec addr 0) as [?|_]; [lia|].
  destruct (Z.ltb_spec addr 0) as [?|Hnn]; [reflexivity|].
  cbn [mbind option_bind]. rewrite read_u32_short by lia. reflexivity.
Qed.

(** X23 (layer addresses).  On the file behind the notebook, a layer whose
    address reads as 0 has no metadata, so the loader reports the missing
    bitmap address and the background decoder an unsupported (empty)
    protocol; a layer whose address is negative, or is positive and leaves
    fewer than four bytes before the end of the file, is a read error for
    both. *)
Theorem X23_layer_address_edges (getenv : string → string)
    (pngDecode : list byte → option pngImage) (parseInt : string → Z)
    (file : list byte) (nb : Notebook) (pm : gmap string string)
    (key addr : string) :
  pm !! key = Some addr ->
  (parseInt addr = 0 ->
   decodeLayerFromPage getenv pngDecode (fileSource parseInt file) nb pm key
   = fail (ErrBitmapMissing key)
   /\ (key = "BGLAYER"%string ->
       DecodeBackground getenv (fileSource parseInt file) nb pm
       = fail (ErrBgProtocol EmptyString)))
  /\ (parseInt addr < 0
      \/ (0 < parseInt addr /\ lenZ file - 4 < parseInt addr) ->
      decodeLayerFromPage getenv pngDecode (fileSource parseInt file) nb pm key
      = fail ErrRead
      /\ (key = "BGLAYER"%string ->
          DecodeBackground getenv (fileSource parseInt file) nb pm
          = fail ErrRead)).
Proof.
  intros Hkey. split.
  - intros Hzero. split.
    + unfold decodeLayerFromPage. rewrite Hkey.
      cbn [src_readMeta fileSource]. rewrite Hzero. reflexivity.
    + intros ->. unfold DecodeBackground. rewrite Hkey.
      cbn [src_readMeta fileSource]. rewrite Hzero. reflexivity.
  - intros Hbad. apply (readMeta_unreadable file) in Hbad. split.
    + unfold decodeLayerFromPage. rewrite Hkey.
      cbn [src_readMeta fileSource]. now rewrite Hbad.
    + intros ->. unfold DecodeBackground. rewrite Hkey.
      cbn [src_readMeta fileSource]. now rewrite Hbad.
Qed.

Lemma X23_layer_address_edges_witness :
  (parseInt10 "0" = 0 ->
   decodeLayerFromPage (fun _ => EmptyString) (fun _ => None)
     (fileSource parseInt10 two_page_file) (default_notebook [])
     (<["BGLAYER" := "0"%string]> ∅) "BGLAYER"
   = fail (ErrBitmapMissing "BGLAYER")
   /\ ("BGLAYER"%string = "BGLAYER"%string ->
       DecodeBackground (fun _ => EmptyString)
         (fileSource parseInt10 two_page_file) (default_notebook [])
         (<["BGLAYER" := "0"%string]> ∅)
       = fail (ErrBgProtocol EmptyString)))
  /\ (parseInt10 "0" < 0
      \/ (0 < parseInt10 "0" /\ lenZ two_page_file - 4 < parseInt10 "0") ->
      decodeLayerFromPage (fun _ => EmptyString) (fun _ => None)
        (fileSource parseInt10 two_page_file) (default_notebook [])
        (<["BGLAYER" := "0"%string]> ∅) "BGLAYER"
      = fail ErrRead
      /\ ("BGLAYER"%string = "BGLAYER"%string ->
          DecodeBackground (fun _ => EmptyString)
            (fileSource parseInt10 two_page_file) (default_notebook [])
            (<["BGLAYER" := "0"%string]> ∅)
          = fail ErrRead)).
Proof.
  apply (X23_layer_address_edges (fun _ => EmptyString) (fun _ => None)
           parseInt10 two_page_file (default_notebook [])
           (<["BGLAYER" := "0"%string]> ∅) "BGLAYER" "0").
  reflexivity.
Defined.

(** ** The converter package and the logger *)

(** X24 (converter and decoder).  [ConvertPageToImage] of the converter
    package returns the image that [DecodePage] returns, for every notebook
    and page number, and fails when [DecodePage] fails: with the
    page-does-not-exist error for a page number at or beyond the page
    count, and otherwise with the error of [DecodePage] wrapped, which for a
    negative page number is the index error of the decoder. *)
Theorem X24_converter_agrees_with_DecodePage (getenv : string → string)
    (pngDecode : list byte → option pngImage) (src : byteSource)
    (nb : Notebook) (pageNum : Z) :
  ConvertPageToImage getenv pngDecode src nb pageNum
  = match DecodePage getenv pngDecode src nb pageNum with
    | Some (inl g) => Some (inl g)
    | Some (inr e) =>
        Some (inr (if pageNum >=? Z.of_nat (length (Pages nb))
                   then ErrPageDoesNotExist pageNum
                          (Z.of_nat (length (Pages nb)))
                   else ErrDecodePage e))
    | None => None
    end
  /\ (pageNum < 0 ->
      ConvertPageToImage getenv pngDecode src nb pageNum
      = Some (inr (ErrDecodePage ErrPageIndex))).
Proof.
  unfold ConvertPageToImage, DecodePage, fail, ok. split.
  - destruct (Z.geb_spec pageNum (Z.of_nat (length (Pages nb)))) as [Hge|Hlt].
    + now rewrite orb_true_r.
    + destruct (Z.ltb_spec pageNum 0) as [Hneg|Hnn]; cbn [orb].
      * unfold DecodeLayers.
        destruct (Z.ltb_spec pageNum 0) as [_|?]; [|lia]. reflexivity.
      * destruct (DecodeLayers getenv pngDecode src nb pageNum)
          as [[[mainImg [bgImg|]]|e]|]; cbn [mbind option_bind];
          try reflexivity.
        destruct (Composite (Some mainImg) (Some bgImg)) as [[m b]|];
          cbn [mbind option_bind fst]; [|reflexivity].
        now destruct m.
  - intros Hneg.
    destruct (Z.geb_spec pageNum (Z.of_nat (length (Pages nb)))) as [?|_];
      [lia|].
    unfold DecodeLayers. destruct (Z.ltb_spec pageNum 0) as [_|?]; [|lia].
    reflexivity.
Qed.

Section PageSpecFacts.

Variable trimSpace : string → string.
Variable atoi : string → option Z.

Lemma page_range_spec (from to : Z) (p : Z) :
  p ∈ page_range from to <-> from <= p <= to.
Proof.
  unfold page_range. rewrite list_elem_of_fmap. split.
  - intros (k & -> & Hk). apply elem_of_seq in Hk. lia.
  - intros Hp. exists (Z.to_nat (p - from)). split; [lia|].
    apply elem_of_seq. lia.
Qed.

Lemma page_range_nonempty (from to : Z) :
  from <= to -> page_range from to <> [].
Proof.
  intros Hle Hnil.
  assert (Hin : from ∈ page_range from to) by (apply page_range_spec; lia).
  rewrite Hnil in Hin. inversion Hin.
Qed.

(** The loop over the parts of a list keeps the pages in range, and adds
    one page per part. *)
Lemma page_list_spec (parts : list string) (totalPages : Z) :
  forall acc pages,
    page_list trimSpace atoi parts totalPages acc = inl pages ->
    Forall (fun p => 0 <= p < totalPages) acc ->
    Forall (fun p => 0 <= p < totalPages) pages
    /\ length pages = (length acc + length parts)%nat.
Proof.
  induction parts as [|part parts IH]; intros acc pages Hrun Hacc.
  - cbn in Hrun. injection Hrun as <-. split; [assumption|cbn; lia].
  - cbn [page_list] in Hrun.
    destruct (atoi (trimSpace part)) as [pageNum|]; [|discriminate].
    destruct (Z.ltb_spec pageNum 0); [discriminate|].
    destruct (Z.geb_spec pageNum totalPages); [discriminate|].
    cbn [orb] in Hrun. apply IH in Hrun.
    + destruct Hrun as [Hall Hlen]. split; [assumption|].
      rewrite Hlen, length_app. cbn [length]. lia.
    + apply Forall_app. split; [assumption|]. constructor; [lia|constructor].
Qed.

Lemma split_char_nonempty (c : ascii) (s : string) : split_char c s <> [].
Proof.
  destruct s as [|a r]; cbn [split_char]; [discriminate|].
  destruct (Ascii.eqb a c); [discriminate|].
  destruct (split_char c r); discriminate.
Qed.

Lemma ParsePageSpec_pages (spec : string) (totalPages : Z) (pages : list Z) :
  ParsePageSpec trimSpace atoi spec totalPages = inl pages ->
  Forall (fun p => 0 <= p < totalPages) pages
  /\ (trimSpace spec = "*"%string -> pages = page_range 0 (totalPages - 1))
  /\ (trimSpace spec <> "*"%string -> pages <> []).
Proof.
  unfold ParsePageSpec.
  destruct (String.eqb_spec (trimSpace spec) "*") as [Hstar|Hns].
  - intros [= <-]. split; [|split; [reflexivity|contradiction]].
    apply Forall_forall. intros p Hp. apply page_range_spec in Hp. lia.
  - destruct (contains_char "," (trimSpace spec)).
    + intros Hrun. apply page_list_spec in Hrun; [|constructor].
      destruct Hrun as [Hall Hlen].
      split; [assumption|]. split; [contradiction|]. intros _ ->.
      cbn [length] in Hlen.
      pose proof (split_char_nonempty "," (trimSpace spec)) as Hne.
      destruct (split_char "," (trimSpace spec)); [contradiction|].
      cbn [length] in Hlen. lia.
    + destruct (contains_char "-" (trimSpace spec)).
      * destruct (split_char "-" (trimSpace spec)) as [|p0 [|p1 [|p2 rest]]];
          try discriminate.
        destruct (atoi (trimSpace p0)) as [start|]; [|discriminate].
        destruct (atoi (trimSpace p1)) as [stop|]; [|discriminate].
        destruct (Z.ltb_spec start 0); [discriminate|].
        destruct (Z.geb_spec start totalPages); [discriminate|].
        destruct (Z.ltb_spec stop 0); [discriminate|].
        destruct (Z.geb_spec stop totalPages); [discriminate|].
        destruct (Z.gtb_spec start stop); [discriminate|].
        cbn [orb]. intros [= <-].
        split; [|split; [contradiction|]].
        -- apply Forall_forall. intros p Hp. apply page_range_spec in Hp. lia.
        -- intros _. apply page_range_nonempty. lia.
      * destruct (atoi (trimSpace spec)) as [pageNum|]; [|discriminate].
        destruct (Z.ltb_spec pageNum 0); [discriminate|].
        destruct (Z.geb_spec pageNum totalPages); [discriminate|].
        cbn [orb]. intros [= <-].
        split; [|split; [contradiction|discriminate]].
        constructor; [lia|constructor].
Qed.

End PageSpecFacts.

(** X25 (page specifications).  Whatever [ParsePageSpec] returns without an
    error is a list of page numbers that all lie in [0, totalPages); for the
    specification [*] it is every page in ascending order (no page for a
    notebook without pages), and for any other specification it is not
    empty. *)
Theorem X25_page_spec_in_range (trimSpace : string → string)
    (atoi : string → option Z) (spec : string) (totalPages : Z)
    (pages : list Z) :
  ParsePageSpec trimSpace atoi spec totalPages = inl pages ->
  Forall (fun p => 0 <= p < totalPages) pages
  /\ (trimSpace spec = "*"%string -> pages = page_range 0 (totalPages - 1))
  /\ (trimSpace spec <> "*"%string -> pages <> []).
Proof. apply ParsePageSpec_pages. Qed.

Lemma X25_page_spec_in_range_witness :
  Forall (fun p => 0 <= p < 7) [2; 3; 4; 5]
  /\ ("2-5"%string = "*"%string -> [2; 3; 4; 5] = page_range 0 (7 - 1))
  /\ ("2-5"%string <> "*"%string -> [2; 3; 4; 5] <> []).
Proof.
  apply (X25_page_spec_in_range (fun s => s) atoi10 "2-5" 7 [2; 3; 4; 5]).
  reflexivity.
Defined.

Example page_spec_examples :
  ParsePageSpec (fun s => s) atoi10 "*" 3 = inl [0; 1; 2]
  /\ ParsePageSpec (fun s => s) atoi10 "*" 0 = inl []
  /\ ParsePageSpec (fun s => s) atoi10 "2,0,2" 3 = inl [2; 0; 2]
  /\ ParsePageSpec (fun s => s) atoi10 "1-1" 3 = inl [1]
  /\ ParsePageSpec (fun s => s) atoi10 "-1" 3 = inr (ErrInvalidStartPage EmptyString)
  /\ ParsePageSpec (fun s => s) atoi10 "0-1-2" 3 = inr (ErrInvalidRangeFormat "0-1-2")
  /\ ParsePageSpec (fun s => s) atoi10 "0,1-2" 3 = inr (ErrInvalidPageNumber "1-2")
  /\ ParsePageSpec (fun s => s) atoi10 "3" 3 = inr (ErrPageOutOfRange 3 3).
Proof. repeat split; reflexivity. Qed.

(** X26 (pages of a specification convert).  A page number that
    [ParsePageSpec] returns for the page count of a notebook is accepted by
    [ConvertPageToImage]: the conversion does not stop at the missing page
    or at the index check of the decoder, and reaches the main layer of that
    page. *)
Theorem X26_spec_pages_exist (getenv : string → string)
    (pngDecode : list byte → option pngImage) (src : byteSource)
    (trimSpace : string → string) (atoi : string → option Z)
    (nb : Notebook) (spec : string) (pages : list Z) (p : Z) :
  ParsePageSpec trimSpace atoi spec (Z.of_nat (length (Pages nb))) = inl pages ->
  p ∈ pages ->
  exists pm,
    Pages nb !! Z.to_nat p = Some pm
    /\ (forall e,
          decodeLayerFromPage getenv pngDecode src nb pm "MAINLAYER"
          = Some (inr e) ->
          ConvertPageToImage getenv pngDecode src nb p
          = Some (inr (ErrDecodePage e)))
    /\ (forall mainImg,
          decodeLayerFromPage getenv pngDecode src nb pm "MAINLAYER"
          = Some (inl mainImg) ->
          pm !! "BGLAYER"%string = None ->
          ConvertPageToImage getenv pngDecode src nb p = Some (inl mainImg)).
Proof.
  intros Hspec Hin.
  apply ParsePageSpec_pages in Hspec as (Hall & _ & _).
  rewrite Forall_forall in Hall. specialize (Hall p Hin).
  destruct (lookup_lt_is_Some_2 (Pages nb) (Z.to_nat p)) as [pm Hpm]; [lia|].
  exists pm. split; [assumption|].
  unfold ConvertPageToImage, DecodeLayers.
  destruct (Z.geb_spec p (Z.of_nat (length (Pages nb)))) as [?|_]; [lia|].
  destruct (Z.ltb_spec p 0) as [?|_]; [lia|]. cbn [orb]. rewrite Hpm.
  split.
  - intros e ->. reflexivity.
  - intros mainImg -> ->. reflexivity.
Qed.

Lemma X26_spec_pages_exist_witness :
  exists pm,
    Pages (default_notebook [∅; ∅]) !! Z.to_nat 1 = Some pm
    /\ (forall e,
          decodeLayerFromPage (fun _ => EmptyString) (fun _ => None)
            (mkByteSource (fun _ => None) (fun _ => None) (fun _ _ => None))
            (default_notebook [∅; ∅]) pm "MAINLAYER"
          = Some (inr e) ->
          ConvertPageToImage (fun _ => EmptyString) (fun _ => None)
            (mkByteSource (fun _ => None) (fun _ => None) (fun _ _ => None))
            (default_notebook [∅; ∅]) 1
          = Some (inr (ErrDecodePage e)))
    /\ (forall mainImg,
          decodeLayerFromPage (fun _ => EmptyString) (fun _ => None)
            (mkByteSource (fun _ => None) (fun _ => None) (fun _ _ => None))
            (default_notebook [∅; ∅]) pm "MAINLAYER"
          = Some (inl mainImg) ->
          pm !! "BGLAYER"%string = None ->
          ConvertPageToImage (fun _ => EmptyString) (fun _ => None)
            (mkByteSource (fun _ => None) (fun _ => None) (fun _ _ => None))
            (default_notebook [∅; ∅]) 1 = Some (inl mainImg)).
Proof.
  apply (X26_spec_pages_exist (fun _ => EmptyString) (fun _ => None)
           (mkByteSource (fun _ => None) (fun _ => None) (fun _ _ => None))
           (fun s => s) atoi10 (default_notebook [∅; ∅]) "0-1" [0; 1] 1).
  - reflexivity.
  - right. left.
Defined.

(** X27 (log levels).  A message of level error is logged whatever the
    current level is set to; with a current level that is none of debug,
    info, warn and error, every message is logged; and with the initial
    level info, exactly the messages of level info, warn and error are
    logged. *)
Theorem X27_log_levels (currentLogLevel level : string) :
  shouldLog currentLogLevel "error" = true
  /\ (currentLogLevel ∉ ["debug"; "info"; "warn"; "error"]%string ->
      shouldLog currentLogLevel level = true)
  /\ (shouldLog "info" level = true
      <-> level = "info"%string \/ level = "warn"%string
          \/ level = "error"%string).
Proof.
  unfold shouldLog, logLevels. cbn [fold_left].
  split; [|split].
  - destruct (String.eqb "debug" currentLogLevel),
      (String.eqb "info" currentLogLevel),
      (String.eqb "warn" currentLogLevel),
      (String.eqb "error" currentLogLevel); reflexivity.
  - intros Hnot.
    destruct (String.eqb_spec "debug" currentLogLevel) as [<-|_];
      [exfalso; apply Hnot; set_solver|].
    destruct (String.eqb_spec "info" currentLogLevel) as [<-|_];
      [exfalso; apply Hnot; set_solver|].
    destruct (String.eqb_spec "warn" currentLogLevel) as [<-|_];
      [exfalso; apply Hnot; set_solver|].
    destruct (String.eqb_spec "error" currentLogLevel) as [<-|_];
      [exfalso; apply Hnot; set_solver|].
    destruct (String.eqb "debug" level), (String.eqb "info" level),
      (String.eqb "warn" level), (String.eqb "error" level); reflexivity.
  - destruct (String.eqb_spec "debug" level) as [<-|Hd];
      [split; [discriminate | intros [?|[?|?]]; discriminate]|].
    destruct (String.eqb_spec "info" level) as [<-|Hi];
      [split; [now left | reflexivity]|].
    destruct (String.eqb_spec "warn" level) as [<-|Hw];
      [split; [now right; left | reflexivity]|].
    destruct (String.eqb_spec "error" level) as [<-|He];
      [split; [now right; right | reflexivity]|].
    split; [discriminate | intros [?|[?|?]]; congruence].
Qed.

(** ** The command-line program *)

Section CliPageSpecFacts.

Variable trimSpace : string → string.
Variable atoi : string → option Z.

Lemma cli_range_loop_spec (fuel : nat) (totalPages stop : Z) :
  forall i acc pages,
    cli_range_loop fuel i stop totalPages acc = inl pages ->
    Forall (fun p => 0 <= p < totalPages) acc ->
    Forall (fun p => 0 <= p < totalPages) pages.
Proof.
  induction fuel as [|fuel IH]; intros i acc pages Hrun Hacc.
  - cbn in Hrun. now injection Hrun as <-.
  - cbn [cli_range_loop] in Hrun.
    destruct (i <=? stop); [|now injection Hrun as <-].
    destruct (Z.ltb_spec i 0); [discriminate|].
    destruct (Z.geb_spec i totalPages); [discriminate|].
    cbn [orb] in Hrun. apply IH in Hrun; [assumption|].
    apply Forall_app. split; [assumption|]. constructor; [lia|constructor].
Qed.

(** With enough fuel the loop over a range that lies inside the page count
    appends the range. *)
Lemma cli_range_loop_run (totalPages stop : Z) (fuel : nat) :
  forall i acc,
    0 <= i -> stop < totalPages ->
    (Z.to_nat (stop - i + 1) <= fuel)%nat ->
    cli_range_loop fuel i stop totalPages acc
    = inl (acc ++ page_range i stop).
Proof.
  induction fuel as [|fuel IH]; intros i acc Hi Hstop Hfuel.
  - cbn. unfold page_range.
    replace (Z.to_nat (stop - i + 1)) with 0%nat by lia.
    now rewrite app_nil_r.
  - cbn [cli_range_loop].
    destruct (Z.leb_spec i stop) as [Hle|Hgt].
    + destruct (Z.ltb_spec i 0); [lia|].
      destruct (Z.geb_spec i totalPages); [lia|]. cbn [orb].
      rewrite IH by lia. rewrite <- app_assoc. do 2 f_equal.
      unfold page_range.
      replace (Z.to_nat (stop - i + 1))
        with (S (Z.to_nat (stop - (i + 1) + 1))) by lia.
      cbn [seq map app]. f_equal; [lia|].
      rewrite <- seq_shift, map_map. apply map_ext. intros k. lia.
    + unfold page_range.
      replace (Z.to_nat (stop - i + 1)) with 0%nat by lia.
      now rewrite app_nil_r.
Qed.

Lemma cli_parts_spec (parts : list string) (totalPages : Z) :
  forall acc pages,
    cli_parts trimSpace atoi parts totalPages acc = inl pages ->
    Forall (fun p => 0 <= p < totalPages) acc ->
    Forall (fun p => 0 <= p < totalPages) pages.
Proof.
  induction parts as [|part parts IH]; intros acc pages Hrun Hacc.
  - cbn in Hrun. now injection Hrun as <-.
  - cbn [cli_parts] in Hrun.
    destruct (contains_char "-" (trimSpace part)).
    + destruct (split_char "-" (trimSpace part)) as [|p0 [|p1 [|p2 rest]]];
        try discriminate.
      destruct (atoi (trimSpace p0)) as [start|]; [|discriminate].
      destruct (atoi (trimSpace p1)) as [stop|]; [|discriminate].
      destruct (start >? stop); [discriminate|].
      destruct (cli_range_loop (Z.to_nat (stop - start + 1)) start stop
                  totalPages acc) as [pages'|e] eqn:Hloop; [|discriminate].
      apply cli_range_loop_spec in Hloop; [|assumption].
      now apply IH in Hrun.
    + destruct (atoi (trimSpace part)) as [pageNum|]; [|discriminate].
      destruct (Z.ltb_spec pageNum 0); [discriminate|].
      destruct (Z.geb_spec pageNum totalPages); [discriminate|].
      cbn [orb] in Hrun. apply IH in Hrun; [assumption|].
      apply Forall_app. split; [assumption|]. constructor; [lia|constructor].
Qed.

End CliPageSpecFacts.

(** X28 (page specifications of the program).  For a page count that is not
    negative [parsePageSpec] of the command-line program does not panic;
    the page numbers it returns without an error all lie in
    [0, totalPages); the empty specification, [*] and [all] give every page
    in ascending order; and a range that lies inside the page count gives
    its pages in ascending order. *)
Theorem X28_cli_page_spec (trimSpace : string → string)
    (atoi : string → option Z) (spec : string) (totalPages : Z) :
  0 <= totalPages ->
  (exists r,
      parsePageSpec trimSpace atoi spec totalPages = Some r
      /\ (forall pages, r = inl pages ->
                        Forall (fun p => 0 <= p < totalPages) pages)
      /\ (trimSpace spec ∈ [EmptyString; "*"; "all"]%string ->
          r = inl (page_range 0 (totalPages - 1))))
  /\ (forall start stop acc,
        0 <= start -> stop < totalPages ->
        cli_range_loop (Z.to_nat (stop - start + 1)) start stop totalPages acc
        = inl (acc ++ page_range start stop)).
Proof.
  intros Htotal. split.
  - unfold parsePageSpec.
    destruct (String.eqb_spec (trimSpace spec) EmptyString) as [He|Hne].
    + cbn [orb]. destruct (Z.ltb_spec totalPages 0); [lia|].
      eexists. split; [reflexivity|]. split; [|reflexivity].
      intros pages [= <-]. apply Forall_forall. intros p Hp.
      apply page_range_spec in Hp. lia.
    + destruct (String.eqb_spec (trimSpace spec) "*") as [Hs|Hns].
      * cbn [orb]. destruct (Z.ltb_spec totalPages 0); [lia|].
        eexists. split; [reflexivity|]. split; [|reflexivity].
        intros pages [= <-]. apply Forall_forall. intros p Hp.
        apply page_range_spec in Hp. lia.
      * destruct (String.eqb_spec (trimSpace spec) "all") as [Ha|Hna].
        -- cbn [orb]. destruct (Z.ltb_spec totalPages 0); [lia|].
           eexists. split; [reflexivity|]. split; [|reflexivity].
           intros pages [= <-]. apply Forall_forall. intros p Hp.
           apply page_range_spec in Hp. lia.
        -- cbn [orb]. eexists. split; [reflexivity|]. split.
           ++ intros pages Hrun.
              apply (cli_parts_spec trimSpace atoi) in Hrun;
                [assumption|constructor].
           ++ intros Hin. exfalso.
              apply elem_of_cons in Hin as [?|Hin]; [contradiction|].
              apply elem_of_cons in Hin as [?|Hin]; [contradiction|].
              apply elem_of_cons in Hin as [?|Hin]; [contradiction|].
              inversion Hin.
  - intros start stop acc Hstart Hstop.
    apply cli_range_loop_run; [assumption..|lia].
Qed.

Lemma X28_cli_page_spec_witness :
  (exists r,
      parsePageSpec (fun s => s) atoi10 "0,2-3" 5 = Some r
      /\ (forall pages, r = inl pages -> Forall (fun p => 0 <= p < 5) pages)
      /\ ("0,2-3"%string ∈ [EmptyString; "*"; "all"]%string ->
          r = inl (page_range 0 (5 - 1))))
  /\ (forall start stop acc,
        0 <= start -> stop < 5 ->
        cli_range_loop (Z.to_nat (stop - start + 1)) start stop 5 acc
        = inl (acc ++ page_range start stop)).
Proof.
  apply (X28_cli_page_spec (fun s => s) atoi10 "0,2-3" 5). lia.
Defined.

Example cli_page_spec_examples :
  parsePageSpec (fun s => s) atoi10 "0,2-3" 5 = Some (inl [0; 2; 3])
  /\ parsePageSpec (fun s => s) atoi10 "all" 2 = Some (inl [0; 1])
  /\ parsePageSpec (fun s => s) atoi10 "3-9" 5 = Some (inr (ErrPageOutOfRange 5 5))
  /\ ParsePageSpec (fun s => s) atoi10 "0,2-3" 5 = inr (ErrInvalidPageNumber "2-3").
Proof. repeat split; reflexivity. Qed.
